(** * Generator method overloads of numba.np.random

    A shallow embedding of [numba/np/random/generator_methods.py]: the
    typing-time checks ([check_size], [check_types], [_get_proper_func]),
    the fill loop shared by the sampling methods, [random], [integers],
    [shuffle], [permutation], [standard_normal], [standard_exponential]
    and [standard_gamma], together with the properties the
    specification states about them.

    Conventions.
    - Python integers are [Z]; a cast [dtype(v)] wraps into the range of
      the dtype and is written out in [cast], and a subtraction wraps at
      machine width ([sub_int64], [sub_dtype]).
    - A floating sample is carried as its bit pattern, a [Z]; the
      distribution kernels are opaque functions of the bit generator.
    - The bit generator is an interface ([BitGenerator]); every operation
      threads its state explicitly.
    - An overload runs in two stages, as numba does: the body of the
      overload inspects the *types* of the arguments and either raises a
      [TypingError] or returns [impl]; [impl] then runs on the values. *)

From Stdlib Require Import ZArith Lia.
From stdpp Require Import base option list strings gmap.

Local Open Scope Z_scope.
Set Warnings "-register-all".

(** ** Exceptions and outcomes *)

Inductive exn :=
  | TypingError (msg : string)
  | IndexError (msg : string)
  | ValueError (msg : string).

(** What running a piece of code gives: a value, a raised exception, a
    rejection loop that has not accepted a word within the fuel it was
    given, or undefined behaviour (the unchecked [tuple_setitem]). *)
Inductive outcome (A : Type) :=
  | Return (a : A)
  | Raise (e : exn)
  | OutOfFuel
  | Undefined.
Arguments Return {A} a.
Arguments Raise {A} e.
Arguments OutOfFuel {A}.
Arguments Undefined {A}.

Definition obind {A B} (m : outcome A) (k : A -> outcome B) : outcome B :=
  match m with
  | Return a => k a
  | Raise e => Raise e
  | OutOfFuel => OutOfFuel
  | Undefined => Undefined
  end.

Definition is_Return {A} (m : outcome A) : bool :=
  match m with Return _ => true | _ => false end.

(** The names the specification gives to the failures, with the
    exception each one is in the code. *)
Definition size_msg : string :=
  "Argument size is not one of the expected type(s):  an integer, an empty tuple or a tuple of integers".
Definition axis_msg : string := "Axis is out of bounds for the given array".
Definition float_dtype_msg : string :=
  "Argument dtype is not one of the expected type(s):  np.float32 or np.float64".
Definition int_dtype_msg : string :=
  "Argument dtype is not one of the expected type(s): np.int32, np.int64, np.int16, np.int8, np.uint32, np.uint64, np.uint16, np.uint8, np.bool_".

Definition InvalidShape : exn := TypingError size_msg.
Definition AxisOutOfRange : exn := IndexError axis_msg.

(** ** Values and their numba types *)

(** The NumPy dtypes the methods deal with. *)
Inductive np_dtype :=
  | bool_ | int8 | uint8 | int16 | uint16 | int32 | uint32 | int64 | uint64
  | float32 | float64.

#[global] Instance np_dtype_eq_dec : EqDecision np_dtype.
Proof. solve_decision. Defined.

(** The scalar values an argument can be, and tuples and lists of them.
    [SInt], [SFloat] and [SBool] are Python values: an integer is an
    [int64], a float a [float64]. [PNpTuple] is a tuple of NumPy scalars,
    each given by its dtype and its value (the bit pattern, for a
    float), such as [(np.int32(2), np.int64(3))]. *)
Inductive scalar :=
  | SInt (z : Z)
  | SFloat (bits : Z)
  | SBool (b : bool)
  | SStr (s : string).

Inductive pyval :=
  | PScalar (s : scalar)
  | PTuple (elts : list scalar)
  | PList (elts : list scalar)
  | PNone
  | PNpTuple (elts : list (np_dtype * Z)).

(** The scalar types, up to their width: no check of this module looks
    at the width of an integer or of a float. Whether the items of a
    tuple have one type, width included, is kept in the type of the
    tuple. *)
Inductive scalar_type := Integer | Float | Boolean | UnicodeType.

#[global] Instance scalar_type_eq_dec : EqDecision scalar_type.
Proof. solve_decision. Defined.

(** [types.UniTuple] is a tuple whose items have one type, [types.Tuple]
    any other tuple (the empty one included); [Array] carries the rank;
    [Omitted] is the type of an argument that was not passed and whose
    default is [None]. *)
Inductive nbtype :=
  | Scalar (t : scalar_type)
  | UniTuple (dtype : scalar_type) (count : nat)
  | Tuple (tys : list scalar_type)
  | ListType (dtype : scalar_type)
  | Array (ndim : nat)
  | NoneType
  | Omitted.

Definition typeof_scalar (s : scalar) : scalar_type :=
  match s with
  | SInt _ => Integer
  | SFloat _ => Float
  | SBool _ => Boolean
  | SStr _ => UnicodeType
  end.

(** [from_dtype(np.dtype(d))], up to the width. *)
Definition from_dtype (d : np_dtype) : scalar_type :=
  match d with
  | bool_ => Boolean
  | float32 | float64 => Float
  | _ => Integer
  end.

Definition typeof (v : pyval) : nbtype :=
  match v with
  | PScalar s => Scalar (typeof_scalar s)
  | PTuple [] => Tuple []
  | PTuple (s :: elts) =>
      if forallb (fun e => bool_decide (typeof_scalar e = typeof_scalar s)) elts
      then UniTuple (typeof_scalar s) (S (length elts))
      else Tuple (typeof_scalar <$> (s :: elts))
  | PList [] => ListType Integer
  | PList (s :: _) => ListType (typeof_scalar s)
  | PNone => NoneType
  | PNpTuple [] => Tuple []
  | PNpTuple (e :: elts) =>
      if forallb (fun e' => bool_decide (e'.1 = e.1)) elts
      then UniTuple (from_dtype e.1) (S (length elts))
      else Tuple ((fun e' => from_dtype e'.1) <$> (e :: elts))
  end.

(** The type the overload sees for an optional argument. *)
Definition typeof_arg (a : option pyval) : nbtype :=
  match a with
  | None => Omitted
  | Some v => typeof v
  end.

(** [is_nonelike] after [if isinstance(size, types.Omitted): size = size.value]. *)
Definition is_nonelike (t : nbtype) : bool :=
  match t with
  | NoneType | Omitted => true
  | _ => false
  end.

(** ** check_size *)

Definition check_size (size : nbtype) : outcome unit :=
  if negb (existsb id
      [ match size with UniTuple Integer _ => true | _ => false end;
        match size with Tuple tys => (length tys =? 0)%nat | _ => false end;
        match size with Scalar Integer => true | _ => false end ])
  then Raise (TypingError size_msg)
  else Return tt.

(** ** N-dimensional arrays

    An array is its shape and its contents, nested one level per axis: a
    0-dimensional array is an [Item], an array of rank [r + 1] is the row
    of its sub-arrays of rank [r] along axis 0. *)

Inductive nest (A : Type) :=
  | Item (v : A)
  | Rows (rows : list (nest A)).
Arguments Item {A} v.
Arguments Rows {A} rows.

Record ndarray (A : Type) := mk_ndarray {
  shape : list nat;
  body : nest A
}.
Arguments mk_ndarray {A} shape body.
Arguments shape {A} _.
Arguments body {A} _.

Definition ndim {A} (x : ndarray A) : nat := length (shape x).

(** A Python slice object with unit step; [None] is an absent bound. *)
Inductive slice := mk_slice (start stop : option Z).

(** [slice(None, None)] *)
Definition slice_all : slice := mk_slice None None.

Section Arrays.
Context {A : Type}.

(** The contents agree with a shape: every axis has the stated length
    all the way down. *)
Fixpoint has_shape (dims : list nat) (x : nest A) : Prop :=
  match dims, x with
  | [], Item _ => True
  | d :: ds, Rows rows => length rows = d ∧ Forall (has_shape ds) rows
  | _, _ => False
  end.

Definition wf (x : ndarray A) : Prop := has_shape (shape x) (body x).

(** The elements in row-major order (what [x.ravel()] or [x.flat] gives). *)
Fixpoint elems (x : nest A) : list A :=
  match x with
  | Item v => [v]
  | Rows rows => mjoin (elems <$> rows)
  end.

Fixpoint full (dims : list nat) (v : A) : nest A :=
  match dims with
  | [] => Item v
  | d :: ds => Rows (replicate d (full ds v))
  end.

(** [out[i] = v] for a coordinate tuple [i] of full length. *)
Fixpoint setitem (i : list nat) (v : A) (x : nest A) : nest A :=
  match i, x with
  | [], Item _ => Item v
  | k :: i', Rows rows => Rows (alter (setitem i' v) k rows)
  | _, _ => x
  end.

(** [x[i]] for a coordinate tuple [i] of full length. *)
Fixpoint getitem (i : list nat) (x : nest A) : option A :=
  match i, x with
  | [], Item v => Some v
  | k :: i', Rows rows => rows !! k ≫= getitem i'
  | _, _ => None
  end.

(** Where a slice bound falls in a sequence of length [len]: a negative
    bound counts from the end, and every bound is clamped. *)
Definition slice_bound (len : nat) (dflt : nat) (b : option Z) : nat :=
  match b with
  | None => dflt
  | Some k =>
      if k <? 0 then Z.to_nat (Z.max 0 (k + Z.of_nat len))
      else Z.to_nat (Z.min k (Z.of_nat len))
  end.

Definition slice_start (len : nat) (s : slice) : nat :=
  match s with mk_slice a _ => slice_bound len 0%nat a end.
Definition slice_stop (len : nat) (s : slice) : nat :=
  match s with mk_slice _ b => slice_bound len len b end.

(** [l[s]] *)
Definition slice_apply {B} (s : slice) (l : list B) : list B :=
  let a := slice_start (length l) s in
  let b := slice_stop (length l) s in
  take (b - a) (drop a l).

(** [l[s] = new] where [new] has the length of [l[s]]. *)
Definition slice_assign {B} (s : slice) (l new : list B) : list B :=
  let a := slice_start (length l) s in
  let b := slice_stop (length l) s in
  take a l ++ new ++ drop (Nat.max a b) l.

(** [x[ix]] for a tuple [ix] of slices, one per axis: the selected
    sub-array (numpy gives a view of it; [np.copy] of the view is this
    value). *)
Fixpoint getitem_slices (ix : list slice) (x : nest A) : nest A :=
  match ix, x with
  | s :: ix', Rows rows => Rows (getitem_slices ix' <$> slice_apply s rows)
  | _, _ => x
  end.

(** [x[ix] = src] for a tuple [ix] of slices, one per axis, and a source
    of the shape of [x[ix]]. *)
Fixpoint setitem_slices (ix : list slice) (x src : nest A) : nest A :=
  match ix, x, src with
  | [], _, _ => src
  | s :: ix', Rows rows, Rows srows =>
      Rows (slice_assign s rows
              (zip_with (setitem_slices ix') (slice_apply s rows) srows))
  | _, _, _ => x
  end.

Definition np_copy (x : nest A) : nest A := x.

(** [np.empty(shape)]: the contents are whatever the allocator left,
    here [junk]. *)
Definition np_empty (junk : A) (dims : list nat) : ndarray A :=
  mk_ndarray dims (full dims junk).
End Arrays.

(** [np.ndindex] of a shape: every coordinate tuple of the shape, the last
    axis running fastest. *)
Fixpoint ndindex (dims : list nat) : list (list nat) :=
  match dims with
  | [] => [[]]
  | d :: ds => k ← seq 0 d; (fun i => k :: i) <$> ndindex ds
  end.

(** The position of a coordinate tuple in the row-major buffer. *)
Fixpoint ravel (dims : list nat) (i : list nat) : nat :=
  match dims, i with
  | d :: ds, k :: i' => (k * foldr Nat.mul 1 ds + ravel ds i')%nat
  | _, _ => 0%nat
  end.

Definition nprod (dims : list nat) : nat := foldr Nat.mul 1%nat dims.

(** The shape [np.empty] and [np.ndindex] take from a [size] argument that
    passed [check_size]: an integer is a one-axis shape, a tuple is the
    shape itself; a negative extent is refused by the allocator. *)
Definition negative_dims_msg : string := "negative dimensions not allowed".

Fixpoint dims_of_scalars (elts : list scalar) : outcome (list nat) :=
  match elts with
  | [] => Return []
  | SInt n :: rest =>
      if n <? 0 then Raise (ValueError negative_dims_msg)
      else obind (dims_of_scalars rest) (fun ds => Return (Z.to_nat n :: ds))
  | _ :: _ => Raise (TypingError size_msg)
  end.

(** The Python value a NumPy scalar stands for as an extent. *)
Definition np_scalar (e : np_dtype * Z) : scalar :=
  match from_dtype e.1 with
  | Integer => SInt e.2
  | Float => SFloat e.2
  | Boolean => SBool (negb (e.2 =? 0))
  | UnicodeType => SStr ""
  end.

Definition dims_of_size (size : pyval) : outcome (list nat) :=
  match size with
  | PScalar s => dims_of_scalars [s]
  | PTuple elts => dims_of_scalars elts
  | PNpTuple elts => dims_of_scalars (np_scalar <$> elts)
  | _ => Raise (TypingError size_msg)
  end.

(** ** dtypes *)

(** What a [dtype] argument can be at typing time: a Python type such as
    [np.int64], a numba [NumberClass], an omitted argument (its default),
    or anything else. *)
Inductive dtype_arg :=
  | DType (d : np_dtype)
  | DNumberClass (d : np_dtype)
  | DOmitted (value : np_dtype)
  | DOther.

(** [np.iinfo(dtype)]: bits, min and max of an integer dtype; it raises
    [ValueError] on any other dtype. *)
Definition iinfo (d : np_dtype) : option (Z * Z * Z) :=
  match d with
  | int8 => Some (8, - 2 ^ 7, 2 ^ 7 - 1)
  | uint8 => Some (8, 0, 2 ^ 8 - 1)
  | int16 => Some (16, - 2 ^ 15, 2 ^ 15 - 1)
  | uint16 => Some (16, 0, 2 ^ 16 - 1)
  | int32 => Some (32, - 2 ^ 31, 2 ^ 31 - 1)
  | uint32 => Some (32, 0, 2 ^ 32 - 1)
  | int64 => Some (64, - 2 ^ 63, 2 ^ 63 - 1)
  | uint64 => Some (64, 0, 2 ^ 64 - 1)
  | bool_ | float32 | float64 => None
  end.

(** [dtype(v)] for an integer [v]: wrap-around into the range of an
    integer dtype, truth value for [np.bool_]. *)
Definition cast (d : np_dtype) (v : Z) : Z :=
  match d with
  | bool_ => if v =? 0 then 0 else 1
  | _ =>
      match iinfo d with
      | Some (bits, lo, _) => (v - lo) mod 2 ^ bits + lo
      | None => v
      end
  end.

(** [types.intp(v)] *)
Definition intp (v : Z) : Z := cast int64 v.

(** Integer subtraction in compiled code is done at machine width, and
    wraps around there: both operands are converted to [uint64] when
    both are unsigned, and to [int64] otherwise (a boolean counts as a
    signed integer). [sub_int64] is [a - b] for a Python integer [a];
    [sub_dtype d] is [a - b] for two values of dtype [d]. *)
Definition is_unsigned (d : np_dtype) : bool :=
  match d with
  | uint8 | uint16 | uint32 | uint64 => true
  | _ => false
  end.

Definition sub_int64 (a b : Z) : Z := cast int64 (a - b).

Definition sub_dtype (d : np_dtype) (a b : Z) : Z :=
  cast (if is_unsigned d then uint64 else int64) (a - b).

(** ** The bit generator

    The interface the methods consume: each accessor returns a raw word
    (or the bit pattern of a float in [0, 1)) and the advanced state. *)
Class BitGenerator (G : Type) := {
  next_uint32 : G -> Z * G;
  next_uint64 : G -> Z * G;
  next_float : G -> Z * G;
  next_double : G -> Z * G
}.

(** A bit generator that replays a script of words, then zeros. *)
Definition script_next (m : Z) (ws : list Z) : Z * list Z :=
  match ws with
  | [] => (0, [])
  | w :: ws' => (w mod m, ws')
  end.

#[global] Instance script_gen : BitGenerator (list Z) := {|
  next_uint32 := script_next (2 ^ 32);
  next_uint64 := script_next (2 ^ 64);
  next_float := script_next (2 ^ 32);
  next_double := script_next (2 ^ 64)
|}.

(** A bit generator that counts: its [n]-th word is [n]. *)
#[global] Instance counter_gen : BitGenerator nat := {|
  next_uint32 n := (Z.of_nat n mod 2 ^ 32, S n);
  next_uint64 n := (Z.of_nat n mod 2 ^ 64, S n);
  next_float n := (Z.of_nat n mod 2 ^ 32, S n);
  next_double n := (Z.of_nat n mod 2 ^ 64, S n)
|}.

(** What a method hands back to its caller. *)
Inductive pyresult :=
  | RScalar (v : Z)
  | RArray (a : ndarray Z)
  | RRef (l : nat)
  | RNone.

(** ** _get_proper_func and check_types *)

Definition _get_proper_func {K} (func_32 func_64 : K) (dtype : dtype_arg)
  : outcome (K * np_dtype) :=
  let dtype := match dtype with DOmitted v => DType v | _ => dtype end in
  match dtype with
  | DType d | DNumberClass d =>
      if negb (bool_decide (d ∈ [float32; float64]))
      then Raise (TypingError float_dtype_msg)
      else Return (if bool_decide (d = float32) then func_32 else func_64, d)
  | _ => Raise (TypingError float_dtype_msg)
  end.

Definition check_types_msg : string := "Argument is not one of the expected type(s)".

(** The numba type classes the overloads test with [isinstance]. The
    Python builtins ([int], [bool], [float], [str]) that the type lists
    also name are never the class of a numba type. *)
Inductive type_class := KInteger | KFloat | KBoolean | KUnicodeType | KArray.

Definition isinstance (obj : nbtype) (c : type_class) : bool :=
  match obj, c with
  | Scalar Integer, KInteger => true
  | Scalar Float, KFloat => true
  | Scalar Boolean, KBoolean => true
  | Scalar UnicodeType, KUnicodeType => true
  | Array _, KArray => true
  | _, _ => false
  end.

(** [check_types(obj, type_list, arg_name)] on the type of [obj]. *)
Definition check_types (obj : nbtype) (type_list : list type_class) : outcome unit :=
  if negb (existsb (isinstance obj) type_list)
  then Raise (TypingError check_types_msg)
  else Return tt.

Section Methods.
Context {G : Type} `{BitGenerator G}.

(** A kernel draws one sample; [None] is a kernel whose rejection loop
    ran out of fuel. *)
Definition kernel := G -> option (Z * G).

Definition total (f : G -> Z * G) : kernel := fun bg => Some (f bg).

(** ** The fill loop

    [for i in np.ndindex(size): out[i] = dist_func(inst.bit_generator)] *)
Fixpoint fill_loop (dist_func : kernel) (idx : list (list nat))
    (bg : G) (out : nest Z) : outcome (nest Z) * G :=
  match idx with
  | [] => (Return out, bg)
  | i :: rest =>
      match dist_func bg with
      | None => (OutOfFuel, bg)
      | Some (v, bg') => fill_loop dist_func rest bg' (setitem i v out)
      end
  end.

(** [out = np.empty(size, dtype=dtype)], the loop, [return out]. *)
Definition fill (dist_func : kernel) (size : pyval) (bg : G)
  : outcome pyresult * G :=
  match dims_of_size size with
  | Return dims =>
      let out := np_empty 0 dims in
      match fill_loop dist_func (ndindex dims) bg (body out) with
      | (Return b, bg') => (Return (RArray (mk_ndarray (shape out) b)), bg')
      | (Raise e, bg') => (Raise e, bg')
      | (OutOfFuel, bg') => (OutOfFuel, bg')
      | (Undefined, bg') => (Undefined, bg')
      end
  | Raise e => (Raise e, bg)
  | OutOfFuel => (OutOfFuel, bg)
  | Undefined => (Undefined, bg)
  end.

(** An [impl]: the function an overload returns, run on the size value
    (absent on the scalar path) and the bit generator. *)
Definition impl := option pyval -> G -> outcome pyresult * G.

(** ** Generator().random() *)
Definition NumPyRandomGeneratorType_random (size : nbtype) (dtype : dtype_arg)
  : outcome impl :=
  obind (_get_proper_func next_float next_double dtype) (fun '(dist_func, nb_dt) =>
  if is_nonelike size then
    Return (fun _ bg =>
      let '(v, bg') := dist_func bg in (Return (RScalar v), bg'))
  else
    obind (check_size size) (fun _ =>
    Return (fun size bg =>
      match size with
      | Some size => fill (total dist_func) size bg
      | None => (Undefined, bg)
      end))).

(** The overloads of the distributions without a [dtype] argument
    ([normal], [uniform], [exponential], [gamma], [beta], [f],
    [chisquare], [standard_cauchy], [pareto], [weibull], [power],
    [laplace], [logistic], [lognormal], [rayleigh], [standard_t],
    [wald], [geometric], [zipf], [triangular], [poisson],
    [negative_binomial]) are one text: [dist_func] is the kernel applied
    to the parameters of the distribution. *)
Definition NumPyRandomGeneratorType_dist (dist_func : G -> Z * G) (size : nbtype)
  : outcome impl :=
  if is_nonelike size then
    Return (fun _ bg =>
      let '(v, bg') := dist_func bg in (Return (RScalar v), bg'))
  else
    obind (check_size size) (fun _ =>
    Return (fun size bg =>
      match size with
      | Some size => fill (total dist_func) size bg
      | None => (Undefined, bg)
      end)).

(** Typing, then running: what a call of a method does to the bit
    generator and gives back. *)
Definition run_overload (ov : outcome impl) (size : option pyval) (bg : G)
  : outcome pyresult * G :=
  match ov with
  | Return f => f size bg
  | Raise e => (Raise e, bg)
  | OutOfFuel => (OutOfFuel, bg)
  | Undefined => (Undefined, bg)
  end.

Definition call_random (size : option pyval) (dtype : dtype_arg) (bg : G)
  : outcome pyresult * G :=
  run_overload (NumPyRandomGeneratorType_random (typeof_arg size) dtype) size bg.

(** ** random_methods: the bounded-integer sampler

    The module [numba.np.random.random_methods] is not among the
    sources; what [integers] and [shuffle] call from it is modelled from
    section 4.4 of the specification. *)

Definition InvalidRange : exn := ValueError "invalid range".

(** Modelled from the spec: [random_methods._randint_arg_check] is not
    among the sources. The range is closed first ([high - 1] unless the
    endpoint is included); a bound outside the representable range of
    the width, or a negative closed range, fails with [InvalidRange].
    The pair [(-1, 2)] is the boolean family's pair of sentinels: both
    are excluded, so that the valid domain is [{0, 1}]; any other pair
    is the inclusive representable range of an integer width. *)
Definition _randint_arg_check (low high : Z) (endpoint : bool)
    (lower_bound upper_bound : Z) : outcome unit :=
  let high := if endpoint then high else high - 1 in
  let sentinel := (lower_bound =? -1) && (upper_bound =? 2) in
  if (if sentinel then low <=? lower_bound else low <? lower_bound)
  then Raise InvalidRange
  else if (if sentinel then upper_bound <=? high else upper_bound <? high)
  then Raise InvalidRange
  else if high - low <? 0
  then Raise InvalidRange
  else Return tt.

(** Modelled from the spec: the smallest [2^k - 1] that is at least
    [rng]. *)
Definition gen_mask (rng : Z) : Z := Z.ones (Z.log2_up (rng + 1)).

(** Modelled from the spec: masked rejection sampling. A raw word of the
    smallest granularity that can represent [rng] is drawn and masked;
    a masked value above [rng] is rejected and a new word is drawn.
    [fuel] bounds the number of words drawn. *)
Fixpoint bounded_masked (fuel : nat) (rng : Z) (bg : G) : option (Z * G) :=
  match fuel with
  | O => None
  | S fuel' =>
      let '(w, bg') :=
        if rng <=? 0xFFFFFFFF then next_uint32 bg else next_uint64 bg in
      let value := Z.land w (gen_mask rng) in
      if value <=? rng then Some (value, bg')
      else bounded_masked fuel' rng bg'
  end.

(** Modelled from the spec: [random_methods.random_interval(bitgen,
    max_val)], a draw from [[0, max_val]] by the sampler above. *)
Definition random_interval (fuel : nat) (bg : G) (max_val : Z) : option (Z * G) :=
  bounded_masked fuel max_val bg.

(** Modelled from the spec: [random_methods.random_bounded_uint<bits>_fill
    (bitgen, low, rng, size, dtype)] and [random_bounded_bool_fill]: an
    array of shape [size] filled in row-major order, each element
    [low + accepted value] cast to [dtype]. *)
Definition random_bounded_fill (fuel : nat) (bg : G) (low rng : Z)
    (size : pyval) (dtype : np_dtype) : outcome pyresult * G :=
  fill (fun bg =>
          match bounded_masked fuel rng bg with
          | Some (v, bg') => Some (cast dtype (low + v), bg')
          | None => None
          end) size bg.

Definition random_bounded_uint_fill (bits : Z) := random_bounded_fill.
Definition random_bounded_bool_fill := random_bounded_fill.

(** ** Generator().integers() *)

Definition int_func_t :=
  nat -> G -> Z -> Z -> pyval -> np_dtype -> outcome pyresult * G.

(** [a[0]] for the array a fill returned. *)
Definition first (r : outcome pyresult * G) : outcome pyresult * G :=
  match r with
  | (Return (RArray a), bg) =>
      match getitem [0%nat] (body a) with
      | Some v => (Return (RScalar v), bg)
      | None => (Raise (IndexError "index 0 is out of bounds"), bg)
      end
  | _ => r
  end.

Definition int_of_scalar (s : scalar) : Z :=
  match s with
  | SInt z => z
  | SBool b => if b then 1 else 0
  | SFloat bits => bits
  | SStr _ => 0
  end.

Definition integers_impl := nat -> G -> Z -> Z -> option pyval -> bool
                            -> outcome pyresult * G.

Definition NumPyRandomGeneratorType_integers (low high size : nbtype)
    (dtype : dtype_arg) (endpoint : nbtype) : outcome integers_impl :=
  obind (check_types low [KInteger; KBoolean]) (fun _ =>
  obind (check_types high [KInteger; KBoolean]) (fun _ =>
  obind (check_types endpoint [KBoolean]) (fun _ =>
  let dtype := match dtype with DOmitted v => DType v | _ => dtype end in
  obind (match dtype with
         | DType d | DNumberClass d => Return d
         | _ => Raise (TypingError int_dtype_msg)
         end) (fun dtype =>
  obind (if bool_decide (dtype = bool_)
         then Return (random_bounded_bool_fill, -1, 2)
         else match iinfo dtype with
              | None => Raise (TypingError int_dtype_msg)
              | Some (bits, min, max) =>
                  Return (random_bounded_uint_fill bits, min, max)
              end) (fun '(int_func, lower_bound, upper_bound) =>
  if is_nonelike size then
    Return (fun fuel bg low high _ endpoint =>
      match _randint_arg_check low high endpoint lower_bound upper_bound with
      | Return _ =>
          if negb endpoint then
            let high := sub_int64 high (cast dtype 1) in
            let low := cast dtype low in
            let high := cast dtype high in
            let rng := sub_dtype dtype high low in
            first (int_func fuel bg low rng (PScalar (SInt 1)) dtype)
          else
            let low := cast dtype low in
            let high := cast dtype high in
            let rng := sub_dtype dtype high low in
            first (int_func fuel bg low rng (PScalar (SInt 1)) dtype)
      | Raise e => (Raise e, bg)
      | OutOfFuel => (OutOfFuel, bg)
      | Undefined => (Undefined, bg)
      end)
  else
    obind (check_size size) (fun _ =>
    Return (fun fuel bg low high size endpoint =>
      match _randint_arg_check low high endpoint lower_bound upper_bound with
      | Return _ =>
          match size with
          | None => (Undefined, bg)
          | Some size =>
              if negb endpoint then
                let high := sub_int64 high (cast dtype 1) in
                let low := cast dtype low in
                let high := cast dtype high in
                let rng := sub_dtype dtype high low in
                int_func fuel bg low rng size dtype
              else
                let low := cast dtype low in
                let high := cast dtype high in
                let rng := sub_dtype dtype high low in
                int_func fuel bg low rng size dtype
          end
      | Raise e => (Raise e, bg)
      | OutOfFuel => (OutOfFuel, bg)
      | Undefined => (Undefined, bg)
      end))))))).

(** A call [gen.integers(low, high, size, dtype, endpoint)]. *)
Definition call_integers (fuel : nat) (low high : scalar) (size : option pyval)
    (dtype : dtype_arg) (endpoint : scalar) (bg : G) : outcome pyresult * G :=
  match NumPyRandomGeneratorType_integers
          (Scalar (typeof_scalar low)) (Scalar (typeof_scalar high))
          (typeof_arg size) dtype (Scalar (typeof_scalar endpoint)) with
  | Return f =>
      f fuel bg (int_of_scalar low) (int_of_scalar high) size
        (negb (int_of_scalar endpoint =? 0))
  | Raise e => (Raise e, bg)
  | OutOfFuel => (OutOfFuel, bg)
  | Undefined => (Undefined, bg)
  end.

(** ** Generator().shuffle() *)

(** [shape[axis]] on the shape tuple: a negative index counts from the
    end, an index outside the tuple raises [IndexError]. *)
Definition tuple_index_msg : string := "tuple index out of range".

Definition shape_getitem (shp : list nat) (axis : Z) : outcome nat :=
  let k := if axis <? 0 then axis + Z.of_nat (length shp) else axis in
  if k <? 0 then Raise (IndexError tuple_index_msg)
  else match shp !! Z.to_nat k with
       | Some d => Return d
       | None => Raise (IndexError tuple_index_msg)
       end.

(** [tuple_setitem(tup, idx, val)] of [numba.cpython.unsafe.tuple]: a
    copy of the tuple with the item at [idx] replaced. It makes no
    bounds check: outside the tuple its behaviour is undefined. *)
Definition tuple_setitem {B} (tup : list B) (idx : Z) (val : B) : outcome (list B) :=
  if (0 <=? idx) && (idx <? Z.of_nat (length tup))
  then Return (<[Z.to_nat idx := val]> tup)
  else Undefined.


(** The three copies of one exchange:
    [buffer = np.copy(x[axis_impl2]); x[axis_impl2] = np.copy(x[axis_impl1]);
     x[axis_impl1] = buffer]. *)
Definition exchange (axis_impl1 axis_impl2 : list slice) (x : nest Z) : nest Z :=
  let buffer := np_copy (getitem_slices axis_impl2 x) in
  let x := setitem_slices axis_impl2 x (np_copy (getitem_slices axis_impl1 x)) in
  let x := setitem_slices axis_impl1 x buffer in
  x.

(** [for i in range(x.shape[axis] - 1, 0, -1)]: the loop variable is
    the counter itself, from [i] down to 1. *)
Fixpoint shuffle_loop (fuel : nat) (axis_impl : list slice) (axis : Z)
    (i : nat) (bg : G) (x : nest Z) : outcome unit * G * nest Z :=
  match i with
  | O => (Return tt, bg, x)
  | S i' =>
      match random_interval fuel bg (Z.of_nat i) with
      | None => (OutOfFuel, bg, x)
      | Some (r, bg') =>
          let j := intp r in
          if Z.of_nat i =? j then shuffle_loop fuel axis_impl axis i' bg' x
          else
            match tuple_setitem axis_impl axis
                    (mk_slice (Some (Z.of_nat i)) (Some (Z.of_nat i + 1))),
                  tuple_setitem axis_impl axis
                    (mk_slice (Some j) (Some (j + 1))) with
            | Return axis_impl1, Return axis_impl2 =>
                shuffle_loop fuel axis_impl axis i' bg'
                  (exchange axis_impl1 axis_impl2 x)
            | _, _ => (Undefined, bg', x)
            end
      end
  end.

Definition shuffle_impl :=
  nat -> G -> ndarray Z -> Z -> outcome unit * G * ndarray Z.

Definition NumPyRandomGeneratorType_shuffle (x axis : nbtype)
  : outcome shuffle_impl :=
  obind (check_types x [KArray]) (fun _ =>
  obind (check_types axis [KInteger]) (fun _ =>
  let axis_impl :=
    replicate (match x with Array ndim => ndim | _ => 0%nat end) slice_all in
  Return (fun fuel bg x axis =>
    if Z.of_nat (ndim x) - 1 <? axis
    then (Raise AxisOutOfRange, bg, x)
    else
      match shape_getitem (shape x) axis with
      | Return n =>
          let '(r, bg', b) :=
            shuffle_loop fuel axis_impl axis (n - 1) bg (body x) in
          (r, bg', mk_ndarray (shape x) b)
      | Raise e => (Raise e, bg, x)
      | OutOfFuel => (OutOfFuel, bg, x)
      | Undefined => (Undefined, bg, x)
      end))).

(** ** Arrays passed by reference

    [shuffle] mutates the array it is given, so the arrays a caller
    holds live in a store and are passed by location. An argument [x]
    is a location, or an immediate value. Each location owns its
    memory: an array that is a view of another one is not represented,
    and nothing is stated here about such arrays. *)
Inductive xarg :=
  | XArray (l : nat)
  | XVal (v : pyval).

Definition typeof_x (h : gmap nat (ndarray Z)) (x : xarg) : nbtype :=
  match x with
  | XArray l =>
      match h !! l with
      | Some a => Array (ndim a)
      | None => NoneType
      end
  | XVal v => typeof v
  end.

Definition axis_value (axis : pyval) : Z :=
  match axis with
  | PScalar s => int_of_scalar s
  | _ => 0
  end.

(** A call [gen.shuffle(x, axis)]. *)
Definition call_shuffle (fuel : nat) (x : xarg) (axis : pyval)
    (bg : G) (h : gmap nat (ndarray Z))
  : outcome pyresult * G * gmap nat (ndarray Z) :=
  match NumPyRandomGeneratorType_shuffle (typeof_x h x) (typeof axis), x with
  | Return f, XArray l =>
      match h !! l with
      | Some a =>
          let '(r, bg', a') := f fuel bg a (axis_value axis) in
          (obind r (fun _ => Return RNone), bg', <[l := a']> h)
      | None => (Undefined, bg, h)
      end
  | Return _, XVal _ => (Undefined, bg, h)
  | Raise e, _ => (Raise e, bg, h)
  | OutOfFuel, _ => (OutOfFuel, bg, h)
  | Undefined, _ => (Undefined, bg, h)
  end.

(** ** Generator().permutation() *)

(** [np.arange(n)] *)
Definition np_arange (n : Z) : ndarray Z :=
  mk_ndarray [Z.to_nat n] (Rows ((fun k => Item (Z.of_nat k)) <$> seq 0 (Z.to_nat n))).

(** [x.copy()] *)
Definition ndarray_copy (x : ndarray Z) : ndarray Z :=
  mk_ndarray (shape x) (np_copy (body x)).

(** A new array takes a location the store does not use yet. *)
Definition alloc (h : gmap nat (ndarray Z)) (a : ndarray Z)
  : nat * gmap nat (ndarray Z) :=
  let l := fresh (dom h) in (l, <[l := a]> h).

Definition permutation_impl :=
  nat -> G -> gmap nat (ndarray Z) -> xarg -> pyval
  -> outcome pyresult * G * gmap nat (ndarray Z).

Definition NumPyRandomGeneratorType_permutation (x axis : nbtype)
  : outcome permutation_impl :=
  obind (check_types x [KArray; KInteger]) (fun _ =>
  obind (check_types axis [KInteger]) (fun _ =>
  let array_maker : gmap nat (ndarray Z) -> xarg -> option (ndarray Z) :=
    if isinstance x KInteger then
      fun h x =>
        match x with
        | XVal (PScalar s) => Some (np_arange (int_of_scalar s))
        | _ => None
        end
    else
      fun h x =>
        match x with
        | XArray l => ndarray_copy <$> h !! l
        | _ => None
        end in
  Return (fun fuel bg h x axis =>
    match array_maker h x with
    | None => (Undefined, bg, h)
    | Some a =>
        let '(new_arr, h) := alloc h a in
        match call_shuffle fuel (XArray new_arr) axis bg h with
        | (Return _, bg', h') => (Return (RRef new_arr), bg', h')
        | r => r
        end
    end))).

(** A call [gen.permutation(x, axis)]. *)
Definition call_permutation (fuel : nat) (x : xarg) (axis : pyval)
    (bg : G) (h : gmap nat (ndarray Z))
  : outcome pyresult * G * gmap nat (ndarray Z) :=
  match NumPyRandomGeneratorType_permutation (typeof_x h x) (typeof axis) with
  | Return f => f fuel bg h x axis
  | Raise e => (Raise e, bg, h)
  | OutOfFuel => (OutOfFuel, bg, h)
  | Undefined => (Undefined, bg, h)
  end.

(** ** Call sequences *)

Inductive call :=
  | CallRandom (size : option pyval) (dtype : dtype_arg)
  | CallIntegers (low high : scalar) (size : option pyval)
      (dtype : dtype_arg) (endpoint : scalar)
  | CallShuffle (x : xarg) (axis : pyval)
  | CallPermutation (x : xarg) (axis : pyval).

Definition run_call (fuel : nat) (c : call) (bg : G) (h : gmap nat (ndarray Z))
  : outcome pyresult * G * gmap nat (ndarray Z) :=
  match c with
  | CallRandom size dtype =>
      let '(r, bg') := call_random size dtype bg in (r, bg', h)
  | CallIntegers low high size dtype endpoint =>
      let '(r, bg') := call_integers fuel low high size dtype endpoint bg in
      (r, bg', h)
  | CallShuffle x axis => call_shuffle fuel x axis bg h
  | CallPermutation x axis => call_permutation fuel x axis bg h
  end.

(** The calls of a program in order, each on the state the one before
    left; an exception is a result like any other (the caller may catch
    it and go on). *)
Fixpoint run_calls (fuel : nat) (cs : list call) (bg : G)
    (h : gmap nat (ndarray Z))
  : list (outcome pyresult) * G * gmap nat (ndarray Z) :=
  match cs with
  | [] => ([], bg, h)
  | c :: cs' =>
      let '(r, bg', h') := run_call fuel c bg h in
      let '(rs, bg'', h'') := run_calls fuel cs' bg' h' in
      (r :: rs, bg'', h'')
  end.
End Methods.


(** ** Generator().standard_exponential() *)

Definition method_msg : string := "Method must be either 'zig' or 'inv'".

Section StandardExponential.
Context {G : Type} `{BitGenerator G}.

(** The four kernels of [numba.np.random.distributions] the overload
    chooses from; they are opaque functions of the bit generator. *)
Context (random_standard_exponential_inv_f random_standard_exponential_inv
         random_standard_exponential_f random_standard_exponential : G -> Z * G).

(** The loop over [np.ndindex(size)] on an allocated [out], and
    [return out]. *)
Definition loop_return (dist_func : G -> Z * G) (out : ndarray Z) (bg : G)
  : outcome pyresult * G :=
  match fill_loop (total dist_func) (ndindex (shape out)) bg (body out) with
  | (Return b, bg') => (Return (RArray (mk_ndarray (shape out) b)), bg')
  | (Raise e, bg') => (Raise e, bg')
  | (OutOfFuel, bg') => (OutOfFuel, bg')
  | (Undefined, bg') => (Undefined, bg')
  end.

Definition standard_exponential_impl :=
  option pyval -> string -> G -> outcome pyresult * G.

Definition NumPyRandomGeneratorType_standard_exponential
    (size : nbtype) (dtype : dtype_arg) (method : nbtype)
  : outcome standard_exponential_impl :=
  obind (check_types method [KUnicodeType]) (fun _ =>
  obind (_get_proper_func random_standard_exponential_inv_f
           random_standard_exponential_inv dtype) (fun '(dist_func_inv, nb_dt) =>
  obind (_get_proper_func random_standard_exponential_f
           random_standard_exponential dtype) (fun '(dist_func, nb_dt) =>
  if is_nonelike size then
    Return (fun _ method bg =>
      if bool_decide (method = "zig") then
        let '(v, bg') := dist_func bg in (Return (RScalar v), bg')
      else if bool_decide (method = "inv") then
        let '(v, bg') := dist_func_inv bg in (Return (RScalar v), bg')
      else (Raise (ValueError method_msg), bg))
  else
    obind (check_size size) (fun _ =>
    Return (fun size method bg =>
      match size with
      | None => (Undefined, bg)
      | Some size =>
          match dims_of_size size with
          | Return dims =>
              let out := np_empty 0 dims in
              if bool_decide (method = "zig") then loop_return dist_func out bg
              else if bool_decide (method = "inv") then loop_return dist_func_inv out bg
              else (Raise (ValueError method_msg), bg)
          | Raise e => (Raise e, bg)
          | OutOfFuel => (OutOfFuel, bg)
          | Undefined => (Undefined, bg)
          end
      end))))).

(** A call [gen.standard_exponential(size, dtype, method)]. *)
Definition call_standard_exponential (size : option pyval) (dtype : dtype_arg)
    (method : string) (bg : G) : outcome pyresult * G :=
  match NumPyRandomGeneratorType_standard_exponential
          (typeof_arg size) dtype (Scalar UnicodeType) with
  | Return f => f size method bg
  | Raise e => (Raise e, bg)
  | OutOfFuel => (OutOfFuel, bg)
  | Undefined => (Undefined, bg)
  end.
End StandardExponential.

(** ** Generator().standard_gamma() *)

Section StandardGamma.
Context {G : Type} `{BitGenerator G}.

(** The two kernels of [numba.np.random.distributions]; they take the
    bit generator and the shape parameter of the distribution. *)
Context (random_standard_gamma_f random_standard_gamma : G -> scalar -> Z * G).

Definition standard_gamma_impl :=
  scalar -> option pyval -> G -> outcome pyresult * G.

Definition NumPyRandomGeneratorType_standard_gamma
    (shape size : nbtype) (dtype : dtype_arg) : outcome standard_gamma_impl :=
  obind (check_types shape [KFloat; KInteger]) (fun _ =>
  obind (_get_proper_func random_standard_gamma_f random_standard_gamma dtype)
    (fun '(dist_func, nb_dt) =>
  if is_nonelike size then
    Return (fun shape _ bg =>
      let '(v, bg') := dist_func bg shape in (Return (RScalar v), bg'))
  else
    obind (check_size size) (fun _ =>
    Return (fun shape size bg =>
      match size with
      | Some size => fill (total (fun bg => dist_func bg shape)) size bg
      | None => (Undefined, bg)
      end)))).

(** A call [gen.standard_gamma(shape, size, dtype)]. *)
Definition call_standard_gamma (shape : scalar) (size : option pyval)
    (dtype : dtype_arg) (bg : G) : outcome pyresult * G :=
  match NumPyRandomGeneratorType_standard_gamma
          (Scalar (typeof_scalar shape)) (typeof_arg size) dtype with
  | Return f => f shape size bg
  | Raise e => (Raise e, bg)
  | OutOfFuel => (OutOfFuel, bg)
  | Undefined => (Undefined, bg)
  end.
End StandardGamma.

(** ** Generator().standard_normal() *)

Section StandardNormal.
Context {G : Type} `{BitGenerator G}.

(** The two kernels of [numba.np.random.distributions]. *)
Context (random_standard_normal_f random_standard_normal : G -> Z * G).

Definition NumPyRandomGeneratorType_standard_normal (size : nbtype) (dtype : dtype_arg)
  : outcome impl :=
  obind (_get_proper_func random_standard_normal_f random_standard_normal dtype)
    (fun '(dist_func, nb_dt) =>
  if is_nonelike size then
    Return (fun _ bg =>
      let '(v, bg') := dist_func bg in (Return (RScalar v), bg'))
  else
    obind (check_size size) (fun _ =>
    Return (fun size bg =>
      match size with
      | Some size => fill (total dist_func) size bg
      | None => (Undefined, bg)
      end))).

(** A call [gen.standard_normal(size, dtype)]. *)
Definition call_standard_normal (size : option pyval) (dtype : dtype_arg) (bg : G)
  : outcome pyresult * G :=
  run_overload (NumPyRandomGeneratorType_standard_normal (typeof_arg size) dtype) size bg.
End StandardNormal.

(** * Notions the properties are stated with *)

(** A [size] the specification calls malformed because of its type: a
    sequence with an item that is not an integer, or a value that is
    neither a sequence nor an integer. *)
Definition non_integer_size (v : pyval) : Prop :=
  match v with
  | PScalar s => typeof_scalar s ≠ Integer
  | PTuple elts => ∃ e, e ∈ elts ∧ typeof_scalar e ≠ Integer
  | PList _ => True
  | PNone => False
  | PNpTuple elts => ∃ e, e ∈ elts ∧ from_dtype e.1 ≠ Integer
  end.

(** A [size] the specification calls malformed because of a value: a
    negative integer, alone or in a tuple of integers. *)
Definition negative_size (v : pyval) : Prop :=
  match v with
  | PScalar (SInt n) => n < 0
  | PTuple elts =>
      Forall (fun e => typeof_scalar e = Integer) elts
      ∧ ∃ n, SInt n ∈ elts ∧ n < 0
  | _ => False
  end.

(** The [size] values of a shape: the tuple of its extents, and for one
    axis also the bare integer. *)
Definition size_tuple (dims : list nat) : pyval :=
  PTuple ((fun d => SInt (Z.of_nat d)) <$> dims).
Definition size_int (n : nat) : pyval := PScalar (SInt (Z.of_nat n)).

(** [n] successive samples of a kernel, and the state they leave. *)
Fixpoint draws {G} (k : G -> Z * G) (n : nat) (bg : G) : list Z * G :=
  match n with
  | O => ([], bg)
  | S n' =>
      let '(v, bg1) := k bg in
      let '(vs, bg2) := draws k n' bg1 in
      (v :: vs, bg2)
  end.

Local Open Scope nat_scope.

(** ** Notions for the shuffle *)

(** The slices at positions [i] and [j] along [axis] exchanged. *)
Fixpoint swap_along {A} (axis i j : nat) (x : nest A) : nest A :=
  match axis, x with
  | O, Rows rows =>
      match rows !! i, rows !! j with
      | Some ri, Some rj => Rows (<[i := rj]> (<[j := ri]> rows))
      | _, _ => x
      end
  | S a, Rows rows => Rows (swap_along a i j <$> rows)
  | _, Item _ => x
  end.

(** [slice(k, k + 1)] *)
Definition slice_one (k : Z) : slice := mk_slice (Some k) (Some (k + 1)%Z).

(** The exchange of positions [i] and [j]. *)
Definition transp (i j k : nat) : nat :=
  if decide (k = i) then j else if decide (k = j) then i else k.

Definition apply_swaps (axis : nat) (js : list (nat * Z)) (x : nest Z) : nest Z :=
  fold_left (fun x p => if Z.of_nat p.1 =? p.2 then x
                        else swap_along axis p.1 (Z.to_nat p.2) x)%Z js x.

(** [x'] holds the elements of [x] moved along [axis] only, position [k]
    of the axis taking its elements from position [f k], whatever the
    other coordinates are. *)
Definition moved_along {A} (axis : nat) (f : nat -> nat) (x x' : nest A) : Prop :=
  ∀ c, getitem c x' = getitem (alter f axis c) x.

(** The extents of an array fit the index type [intp]. *)
Definition fits_intp {A} (x : ndarray A) : Prop :=
  Forall (fun d => (Z.of_nat d < 2 ^ 63)%Z) (shape x).

Section MethodNotions.
Context {G : Type} `{BitGenerator G}.

(** The draws of a shuffle whose loop starts at [i]: one call of
    [random_interval] for each value of the loop variable, from [i]
    down to 1, and whether the loop came to its end. *)
Fixpoint shuffle_trace (fuel : nat) (i : nat) (bg : G) : list (nat * Z) * G * bool :=
  match i with
  | O => ([], bg, true)
  | S i' =>
      match random_interval fuel bg (Z.of_nat i) with
      | None => ([], bg, false)
      | Some (j, bg1) =>
          let '(rest, bg2, ok) := shuffle_trace fuel i' bg1 in
          ((i, j) :: rest, bg2, ok)
      end
  end.

(** [gen.shuffle(x, axis)] on the array itself: the overload is typed
    at the array's rank and an integer axis, and its [impl] is run. *)
Definition shuffle_array (fuel : nat) (bg : G) (x : ndarray Z) (axis : Z)
  : outcome unit * G * ndarray Z :=
  match NumPyRandomGeneratorType_shuffle (Array (ndim x)) (Scalar Integer) with
  | Return f => f fuel bg x axis
  | Raise e => (Raise e, bg, x)
  | OutOfFuel => (OutOfFuel, bg, x)
  | Undefined => (Undefined, bg, x)
  end.
End MethodNotions.

(** ** Notions for integers and permutation *)

(** The bounds [integers] passes to the argument check for a dtype: the
    sentinels of the boolean family, or [np.iinfo] of an integer width. *)
Definition int_bounds (dtype : np_dtype) : option (Z * Z) :=
  if bool_decide (dtype = bool_) then Some ((-1)%Z, 2%Z)
  else match iinfo dtype with
       | Some (_, min, max) => Some (min, max)
       | None => None
       end.

(** The samples in a result. *)
Definition samples (r : pyresult) : list Z :=
  match r with
  | RScalar v => [v]
  | RArray a => elems (body a)
  | _ => []
  end.

(** The array [permutation] is to build from its argument: the array the
    argument refers to, or [[0, ..., n - 1]] for an integer [n]. *)
Definition permutation_source (h : gmap nat (ndarray Z)) (x : xarg) : option (ndarray Z) :=
  match x with
  | XArray l => h !! l
  | XVal (PScalar (SInt n)) => Some (np_arange n)
  | XVal _ => None
  end.

(** ** Notions for determinism *)

(** Two bit generators are bisimilar under [R] when related states give
    the same word through each accessor and advance to related states. *)
Definition bisimulation {G1 G2} `{BitGenerator G1} `{BitGenerator G2}
    (R : G1 -> G2 -> Prop) : Prop :=
  ∀ s1 s2, R s1 s2 ->
    ((next_uint32 s1).1 = (next_uint32 s2).1 ∧ R (next_uint32 s1).2 (next_uint32 s2).2)
    ∧ ((next_uint64 s1).1 = (next_uint64 s2).1 ∧ R (next_uint64 s1).2 (next_uint64 s2).2)
    ∧ ((next_float s1).1 = (next_float s2).1 ∧ R (next_float s1).2 (next_float s2).2)
    ∧ ((next_double s1).1 = (next_double s2).1 ∧ R (next_double s1).2 (next_double s2).2).

(** A counting generator whose state is an integer. *)
#[global] Instance zcounter_gen : BitGenerator Z := {|
  next_uint32 n := ((n mod 2 ^ 32)%Z, (n + 1)%Z);
  next_uint64 n := ((n mod 2 ^ 64)%Z, (n + 1)%Z);
  next_float n := ((n mod 2 ^ 32)%Z, (n + 1)%Z);
  next_double n := ((n mod 2 ^ 64)%Z, (n + 1)%Z)
|}.

Section AgreeNotions.
Context {G1 G2 : Type} (R : G1 -> G2 -> Prop).

(** Two runs agree: the same result, related generator states. *)
Definition agree_on {X} (r1 : X * G1) (r2 : X * G2) : Prop :=
  r1.1 = r2.1 ∧ R r1.2 r2.2.

Definition kernels_agree_on (k1 : G1 -> option (Z * G1)) (k2 : G2 -> option (Z * G2)) : Prop :=
  ∀ s1 s2, R s1 s2 ->
    match k1 s1, k2 s2 with
    | Some r1, Some r2 => agree_on r1 r2
    | None, None => True
    | _, _ => False
    end.

(** Two runs on a store agree: the same result, related generator
    states, the same store. *)
Definition agree3_on {X} (r1 : X * G1 * gmap nat (ndarray Z))
    (r2 : X * G2 * gmap nat (ndarray Z)) : Prop :=
  r1.1.1 = r2.1.1 ∧ R r1.1.2 r2.1.2 ∧ r1.2 = r2.2.
End AgreeNotions.

(** ** Arrays for the examples *)

Definition vec4 : ndarray Z := mk_ndarray [4] (Rows [Item 1; Item 2; Item 3; Item 4])%Z.
Definition vec2 : ndarray Z := mk_ndarray [2] (Rows [Item 10; Item 20])%Z.
Definition mat23 : ndarray Z :=
  mk_ndarray [2; 3] (Rows [Rows [Item 1; Item 2; Item 3]; Rows [Item 4; Item 5; Item 6]])%Z.

(** ** Notions for the argument checks *)

(** A [size] value that is an integer or a tuple of integers of one
    type (the empty tuple included), whatever the sign of the integers. *)
Definition integer_size (v : pyval) : Prop :=
  match v with
  | PScalar s => typeof_scalar s = Integer
  | PTuple elts => Forall (fun e => typeof_scalar e = Integer) elts
  | PNpTuple elts =>
      ∃ d, from_dtype d = Integer ∧ Forall (fun e => e.1 = d) elts
  | _ => False
  end.

(** The dtype a [dtype] argument stands for, if it is a Python type, a
    [NumberClass] or the omitted default. *)
Definition dtype_of (dtype : dtype_arg) : option np_dtype :=
  match dtype with
  | DType d | DNumberClass d | DOmitted d => Some d
  | DOther => None
  end.

Definition is_float_dtype (dtype : dtype_arg) : bool :=
  match dtype_of dtype with
  | Some float32 | Some float64 => true
  | _ => false
  end.

(** An integer dtype: [np.bool_] or a dtype [np.iinfo] accepts. *)
Definition is_int_dtype (dtype : dtype_arg) : bool :=
  match dtype_of dtype ≫= int_bounds with
  | Some _ => true
  | None => false
  end.

(** A value of type [types.Integer] or [types.Boolean]. *)
Definition int_or_bool (s : scalar) : bool :=
  match typeof_scalar s with
  | Integer | Boolean => true
  | _ => false
  end.

(** A value of type [types.Float] or [types.Integer]. *)
Definition float_or_int (s : scalar) : bool :=
  match typeof_scalar s with
  | Float | Integer => true
  | _ => false
  end.

(** The type of an optional [size] is one the overloads accept. *)
Definition size_ok (size : option pyval) : Prop :=
  match size with
  | None => True
  | Some s => integer_size s
  end.

(** A matrix of one row, for the examples. *)
Definition row13 : ndarray Z :=
  mk_ndarray [1; 3] (Rows [Rows [Item 1; Item 2; Item 3]])%Z.

(** A bit generator that serves 32-bit floats from a script and has
    nothing else to give. *)
Definition float_only_gen : BitGenerator (list Z) := {|
  next_uint32 ws := (0%Z, ws);
  next_uint64 ws := (0%Z, ws);
  next_float := script_next (2 ^ 32);
  next_double ws := (0%Z, ws)
|}.


Section ResultNotions.
Context {G : Type} `{BitGenerator G}.

(** A method obeys the shape law: for a size [check_size] accepts and
    whose extents are not negative it returns an array of exactly the
    resolved shape, and without a size it returns a scalar. *)
Definition shape_law (method : option pyval -> G -> outcome pyresult * G) : Prop :=
  (∀ size dims bg, integer_size size -> dims_of_size size = Return dims ->
     ∃ a, (method (Some size) bg).1 = Return (RArray a)
          ∧ shape a = dims ∧ has_shape dims (body a))
  ∧ (∀ bg, ∃ v, (method None bg).1 = Return (RScalar v)).

(** What [permutation] makes of the array [a0] it has built, along an
    axis of extent [n]: the shuffle of [a0] is stored at a location the
    caller does not hold and that location is returned (unless the
    rejection loop ran out of fuel, which it does not when every draw of
    the shuffle finds an accepted word within the fuel); the shuffled
    array has the shape and, as a multiset, the elements of [a0]. *)
Definition permuted_copy (fuel : nat) (bg : G) (h : gmap nat (ndarray Z))
    (a0 : ndarray Z) (axis n : nat)
    (r : outcome pyresult * G * gmap nat (ndarray Z)) : Prop :=
  let l' := fresh (dom h) in
  let s := shuffle_array fuel bg a0 (Z.of_nat axis) in
  (l' ∉ dom h)
  ∧ r = (if (shuffle_trace fuel (n - 1) bg).2 then Return (RRef l') else OutOfFuel,
         s.1.2, <[l' := s.2]> h)
  ∧ s.1.1 = (if (shuffle_trace fuel (n - 1) bg).2 then Return tt else OutOfFuel)
  ∧ ((∀ st i, 1 <= i < n -> is_Some (random_interval fuel st (Z.of_nat i))) ->
     r.1.1 = Return (RRef l'))
  ∧ shape s.2 = shape a0
  ∧ elems (body s.2) ≡ₚ elems (body a0).
End ResultNotions.

(** * Properties *)

(** ** Shapes *)

Section ShapeLemmas.
Context {A : Type}.
Implicit Types (x : nest A) (dims : list nat).

Lemma has_shape_full dims (v : A) : has_shape dims (full dims v).
Proof.
  induction dims as [|d ds IH]; simpl; [done|].
  split; [by rewrite length_replicate|].
  by apply Forall_replicate.
Qed.

Lemma has_shape_setitem dims i (v : A) x :
  has_shape dims x -> has_shape dims (setitem i v x).
Proof.
  revert i x. induction dims as [|d ds IH]; intros i x Hx.
  - destruct x; [|done]. by destruct i.
  - destruct x as [|rows]; [done|]. destruct Hx as [Hlen Hall].
    destruct i as [|k i']; simpl; [done|].
    split; [by rewrite length_alter|].
    apply Forall_alter; [done|]. intros y _ Hy. by apply IH.
Qed.
End ShapeLemmas.

Lemma dims_of_scalars_nat (dims : list nat) :
  dims_of_scalars ((fun d => SInt (Z.of_nat d)) <$> dims) = Return dims.
Proof.
  induction dims as [|d ds IH]; [done|].
  rewrite fmap_cons. cbn [dims_of_scalars].
  destruct (Z.ltb_spec (Z.of_nat d) 0) as [Hneg|_]; [lia|].
  rewrite IH. cbn [obind]. by rewrite Nat2Z.id.
Qed.

Lemma ravel_ndindex_block (d : nat) (ds : list nat) (a m : nat) :
  ravel ds <$> ndindex ds = seq 0 (nprod ds) ->
  ravel (d :: ds) <$> (seq a m ≫= fun k => (fun i => k :: i) <$> ndindex ds)
  = seq (a * nprod ds) (m * nprod ds).
Proof.
  intros IH. revert a. induction m as [|m IHm]; intros a; [done|].
  cbn [seq]. rewrite bind_cons, fmap_app, IHm.
  rewrite <- list_fmap_compose.
  replace (ravel (d :: ds) ∘ (fun i => a :: i)) with (Nat.add (a * nprod ds) ∘ ravel ds) by done.
  rewrite list_fmap_compose, IH, fmap_add_seq.
  replace (S m * nprod ds) with (nprod ds + m * nprod ds) by lia.
  rewrite seq_app. f_equal; [f_equal; lia|]. f_equal. lia.
Qed.

Lemma ravel_ndindex (dims : list nat) :
  ravel dims <$> ndindex dims = seq 0 (nprod dims).
Proof.
  induction dims as [|d ds IH]; [done|].
  cbn [ndindex]. rewrite (ravel_ndindex_block d ds 0 d IH). done.
Qed.

Lemma ravel_lt dims c :
  Forall2 lt c dims -> ravel dims c < nprod dims.
Proof.
  intros Hc. induction Hc as [|k d c ds Hk Hc IH]; simpl; [lia|].
  fold (nprod ds). nia.
Qed.

Lemma ndindex_in_range dims c :
  c ∈ ndindex dims -> Forall2 lt c dims.
Proof.
  revert c. induction dims as [|d ds IH]; intros c Hc.
  - apply list_elem_of_singleton in Hc. subst. constructor.
  - cbn [ndindex] in Hc. apply list_elem_of_bind in Hc as (k & Hc & Hk).
    apply list_elem_of_fmap in Hc as (c' & -> & Hc').
    apply elem_of_seq in Hk. constructor; [lia|]. by apply IH.
Qed.

Section Elems.
Context {A : Type}.
Implicit Types (x : nest A) (dims : list nat).

Lemma join_uniform_length (ls : list (list A)) P :
  Forall (fun l => length l = P) ls -> length (mjoin ls) = length ls * P.
Proof.
  induction 1 as [|l ls Hl _ IH]; [done|].
  change (mjoin (l :: ls)) with (l ++ mjoin ls).
  rewrite length_app, IH, Hl. simpl. lia.
Qed.

Lemma elems_length dims x :
  has_shape dims x -> length (elems x) = nprod dims.
Proof.
  revert x. induction dims as [|d ds IH]; intros [v|rows] Hx; try done.
  destruct Hx as [Hlen Hall]. cbn [elems nprod foldr].
  rewrite (join_uniform_length _ (nprod ds)).
  - by rewrite length_fmap, Hlen.
  - apply Forall_fmap. eapply Forall_impl; [exact Hall|]. intros y Hy. by apply IH.
Qed.

Lemma join_uniform_insert (ls : list (list A)) P k l m v :
  Forall (fun l => length l = P) ls ->
  ls !! k = Some l -> m < P ->
  mjoin (<[k := <[m := v]> l]> ls) = <[k * P + m := v]> (mjoin ls).
Proof.
  intros Hall. revert k. induction Hall as [|l0 ls Hl0 Hall IH]; intros k Hk Hm; [done|].
  destruct k as [|k].
  - injection Hk as ->.
    change (mjoin (<[m:=v]> l :: ls) = <[0 * P + m:=v]> (l ++ mjoin ls)).
    simpl. rewrite insert_app_l; [done|lia].
  - change (l0 ++ mjoin (<[k:=<[m:=v]> l]> ls) = <[S k * P + m:=v]> (l0 ++ mjoin ls)).
    rewrite (IH k Hk Hm).
    replace (S k * P + m) with (length l0 + (k * P + m)) by lia.
    by rewrite insert_app_r.
Qed.

Lemma join_uniform_lookup (ls : list (list A)) P k l m :
  Forall (fun l => length l = P) ls ->
  ls !! k = Some l -> m < P ->
  mjoin ls !! (k * P + m) = l !! m.
Proof.
  intros Hall. revert k. induction Hall as [|l0 ls Hl0 Hall IH]; intros k Hk Hm; [done|].
  destruct k as [|k]; change (mjoin (l0 :: ls)) with (l0 ++ mjoin ls).
  - injection Hk as ->. simpl. rewrite lookup_app_l; [done|lia].
  - rewrite lookup_app_r by lia.
    replace (S k * P + m - length l0) with (k * P + m) by lia. by apply IH.
Qed.

Lemma elems_setitem dims c v x :
  has_shape dims x -> Forall2 lt c dims ->
  elems (setitem c v x) = <[ravel dims c := v]> (elems x).
Proof.
  intros Hx Hc. revert x Hx.
  induction Hc as [|k d c ds Hk Hc IH]; intros [a|rows] Hx; try done.
  destruct Hx as [Hlen Hall]. cbn [setitem elems ravel]. fold (nprod ds).
  destruct (lookup_lt_is_Some_2 rows k) as [r Hr]; [lia|].
  assert (has_shape ds r) as Hrs by (eapply Forall_lookup_1; eauto).
  rewrite <- (join_uniform_insert _ (nprod ds) k (elems r)).
  - f_equal. apply list_eq. intros i.
    rewrite list_lookup_fmap, list_lookup_alter, list_lookup_insert, list_lookup_fmap.
    rewrite length_fmap. destruct (decide (k = i)) as [->|Hne].
    + rewrite Hr. simpl. rewrite decide_True by (split; [done|lia]).
      f_equal. by apply IH.
    + rewrite decide_False; [done|]. by intros [? _].
  - apply Forall_fmap. eapply Forall_impl; [exact Hall|]. intros y Hy. by apply elems_length.
  - by rewrite list_lookup_fmap, Hr.
  - by apply ravel_lt.
Qed.

Lemma getitem_elems dims c x :
  has_shape dims x -> Forall2 lt c dims ->
  getitem c x = elems x !! ravel dims c.
Proof.
  intros Hx Hc. revert x Hx.
  induction Hc as [|k d c ds Hk Hc IH]; intros [a|rows] Hx; try done.
  destruct Hx as [Hlen Hall]. cbn [getitem elems ravel]. fold (nprod ds).
  destruct (lookup_lt_is_Some_2 rows k) as [r Hr]; [lia|].
  assert (has_shape ds r) as Hrs by (eapply Forall_lookup_1; eauto).
  rewrite Hr. simpl. rewrite (join_uniform_lookup _ (nprod ds) k (elems r)).
  - by apply IH.
  - apply Forall_fmap. eapply Forall_impl; [exact Hall|]. intros y Hy. by apply elems_length.
  - by rewrite list_lookup_fmap, Hr.
  - by apply ravel_lt.
Qed.
End Elems.

Lemma draws_length {G} (k : G -> Z * G) n bg : length (draws k n bg).1 = n.
Proof.
  revert bg. induction n as [|n IH]; intros bg; [done|].
  cbn [draws]. destruct (k bg) as [v bg1]. specialize (IH bg1).
  destruct (draws k n bg1) as [vs bg2]. simpl in *. by rewrite IH.
Qed.

Lemma fold_insert_seq {A} (vs pre suf : list A) a :
  length pre = a -> length suf = length vs ->
  fold_left (fun l p => <[p.1 := p.2]> l) (zip (seq a (length vs)) vs) (pre ++ suf)
  = pre ++ vs.
Proof.
  revert pre suf a. induction vs as [|v vs IH]; intros pre suf a Ha Hs.
  - destruct suf; [done|discriminate].
  - destruct suf as [|s suf]; [discriminate|]. cbn [length seq zip zip_with fold_left fst snd].
    rewrite insert_app_r_alt by lia. replace (a - length pre) with 0 by lia.
    cbn [insert list_insert].
    rewrite (cons_middle v pre suf), (cons_middle v pre vs), !app_assoc.
    apply IH; [rewrite length_app; simpl; lia|]. simpl in Hs. lia.
Qed.

Section FillSpec.
Context {G : Type} `{BitGenerator G}.

Lemma fill_loop_elems (k : G -> Z * G) dims idx bg out :
  has_shape dims out ->
  Forall (fun c => Forall2 lt c dims) idx ->
  ∃ b, fill_loop (total k) idx bg out = (Return b, (draws k (length idx) bg).2)
       ∧ has_shape dims b
       ∧ elems b = fold_left (fun l p => <[p.1 := p.2]> l)
                     (zip (ravel dims <$> idx) (draws k (length idx) bg).1)
                     (elems out).
Proof.
  intros Hout Hidx. revert bg out Hout.
  induction Hidx as [|c idx Hc Hidx IH]; intros bg out Hout.
  - by exists out.
  - cbn [fill_loop length draws]. change (total k bg) with (Some (k bg)).
    destruct (k bg) as [v bg1] eqn:Hk.
    destruct (IH bg1 (setitem c v out)) as (b & Hb & Hshape & Helems).
    { by apply has_shape_setitem. }
    exists b. rewrite Hb. destruct (draws k (length idx) bg1) as [vs bg2].
    split; [done|]. split; [done|]. rewrite Helems.
    cbn [fmap list_fmap zip zip_with fold_left fst snd].
    by rewrite (elems_setitem dims).
Qed.

Lemma fill_ndindex (k : G -> Z * G) dims bg :
  ∃ b, fill_loop (total k) (ndindex dims) bg (full dims 0%Z)
         = (Return b, (draws k (nprod dims) bg).2)
       ∧ has_shape dims b
       ∧ elems b = (draws k (nprod dims) bg).1.
Proof.
  assert (length (ndindex dims) = nprod dims) as Hlen.
  { by rewrite <- (length_fmap (ravel dims)), ravel_ndindex, length_seq. }
  destruct (fill_loop_elems k dims (ndindex dims) bg (full dims 0%Z))
    as (b & Hb & Hshape & Helems).
  { apply has_shape_full. }
  { apply Forall_forall. intros c Hc. by apply ndindex_in_range. }
  rewrite Hlen in Hb, Helems. exists b. split; [done|]. split; [done|].
  rewrite Helems, ravel_ndindex.
  pose proof (draws_length k (nprod dims) bg) as Hd.
  rewrite <- Hd at 1.
  rewrite <- (app_nil_l (elems (full dims 0%Z))).
  rewrite fold_insert_seq; [done|done|].
  rewrite Hd. apply elems_length, has_shape_full.
Qed.
End FillSpec.

Lemma forallb_same_type_ints (dims : list nat) :
  forallb (fun e => bool_decide (typeof_scalar e = Integer))
    ((fun d => SInt (Z.of_nat d)) <$> dims) = true.
Proof. by induction dims. Qed.

Lemma check_size_size_tuple dims : check_size (typeof (size_tuple dims)) = Return tt.
Proof.
  destruct dims as [|d ds]; [done|].
  unfold size_tuple. rewrite fmap_cons. cbn [typeof typeof_scalar].
  by rewrite (forallb_same_type_ints ds).
Qed.

Lemma check_size_non_integer v :
  non_integer_size v -> check_size (typeof v) = Raise InvalidShape.
Proof.
  destruct v as [s|elts|elts| |elts]; cbn [non_integer_size].
  - by destruct s.
  - intros (e & He & Hty). destruct elts as [|s elts]; [by apply elem_of_nil in He|].
    cbn [typeof]. destruct (forallb _ elts) eqn:Hall.
    + destruct (typeof_scalar s) eqn:Hs; try done.
      exfalso. apply Hty. apply elem_of_cons in He as [->|He]; [done|].
      rewrite forallb_forall in Hall. apply list_elem_of_In, Hall in He.
      by apply bool_decide_eq_true in He.
    + done.
  - intros _. by destruct elts.
  - done.
  - intros (e & He & Hty). destruct elts as [|e0 elts]; [by apply elem_of_nil in He|].
    cbn [typeof]. destruct (forallb _ elts) eqn:Hall.
    + destruct (from_dtype e0.1) eqn:Hs; try done.
      exfalso. apply Hty. apply elem_of_cons in He as [->|He]; [done|].
      rewrite forallb_forall in Hall. apply list_elem_of_In, Hall in He.
      apply bool_decide_eq_true in He. by rewrite He.
    + done.
Qed.

Section ShapeLaw.
Context {G : Type} `{BitGenerator G}.


Lemma fill_total_shape (k : G -> Z * G) size dims bg :
  dims_of_size size = Return dims ->
  ∃ a, fill (total k) size bg = (Return (RArray a), (draws k (nprod dims) bg).2)
       ∧ shape a = dims ∧ has_shape dims (body a)
       ∧ elems (body a) = (draws k (nprod dims) bg).1.
Proof.
  intros Hd. unfold fill. rewrite Hd.
  destruct (fill_ndindex k dims bg) as (b & Hb & Hshape & Helems).
  cbn [np_empty body shape]. rewrite Hb. by eexists.
Qed.

End ShapeLaw.

Section Claims1.
Context {G : Type} `{BitGenerator G}.

Lemma random_float32 size :
  NumPyRandomGeneratorType_random size (DType float32)
  = NumPyRandomGeneratorType_dist next_float size.
Proof. reflexivity. Qed.

Lemma random_float64 size :
  NumPyRandomGeneratorType_random size (DType float64)
  = NumPyRandomGeneratorType_dist next_double size.
Proof. reflexivity. Qed.

(** C6: the fill of an array of shape [dims] calls the kernel once per
    coordinate tuple, [nprod dims] times in all, in row-major order:
    the [j]-th tuple of [np.ndindex] is the one at position [j] of the
    row-major buffer, it receives the [j]-th sample drawn, and the bit
    generator is left in the state after exactly these draws. *)
Theorem fill_row_major (dist_func : G -> Z * G) (size : pyval) (dims : list nat) (bg : G) :
  dims_of_size size = Return dims ->
  ravel dims <$> ndindex dims = seq 0 (nprod dims)
  ∧ length (draws dist_func (nprod dims) bg).1 = nprod dims
  ∧ ∃ out,
      fill (total dist_func) size bg
        = (Return (RArray out), (draws dist_func (nprod dims) bg).2)
      ∧ shape out = dims
      ∧ elems (body out) = (draws dist_func (nprod dims) bg).1
      ∧ ∀ j c, ndindex dims !! j = Some c ->
               getitem c (body out) = (draws dist_func (nprod dims) bg).1 !! j.
Proof.
  intros Hd. split; [apply ravel_ndindex|]. split; [apply draws_length|].
  destruct (fill_total_shape dist_func size dims bg Hd) as (a & Ha & Hs & Hb & He).
  exists a. repeat split; try done.
  intros j c Hj.
  rewrite (getitem_elems dims) by
    (try done; apply ndindex_in_range; by eapply list_elem_of_lookup_2).
  rewrite He. f_equal.
  assert ((ravel dims <$> ndindex dims) !! j = Some (ravel dims c)) as Hr
    by (by rewrite list_lookup_fmap, Hj).
  rewrite ravel_ndindex in Hr. apply lookup_seq in Hr. lia.
Qed.

(** C7, as the code has it: a [size] whose type is not an integer, the
    empty tuple or a tuple of integers is refused by [check_size] with
    the typing error, so that no [impl] exists: nothing is allocated
    and the bit generator is not touched. *)
Theorem check_size_rejects_non_integer (size : pyval) (dist_func : G -> Z * G) (bg : G) :
  non_integer_size size ->
  check_size (typeof size) = Raise InvalidShape
  ∧ call_random (Some size) (DType float32) bg = (Raise InvalidShape, bg)
  ∧ call_random (Some size) (DType float64) bg = (Raise InvalidShape, bg)
  ∧ run_overload (NumPyRandomGeneratorType_dist dist_func (typeof size)) (Some size) bg
    = (Raise InvalidShape, bg).
Proof.
  intros Hsize. pose proof (check_size_non_integer size Hsize) as Hchk.
  assert (is_nonelike (typeof size) = false) as Hnone.
  { destruct size as [s|[|s elts]|[|s elts]| |[|e elts]]; try done;
      cbn [typeof]; by destruct (forallb _ _). }
  assert (∀ k : G -> Z * G,
    run_overload (NumPyRandomGeneratorType_dist k (typeof size)) (Some size) bg
    = (Raise InvalidShape, bg)) as Hdist.
  { intros k. unfold NumPyRandomGeneratorType_dist. by rewrite Hnone, Hchk. }
  split; [done|]. unfold call_random. rewrite random_float32, random_float64.
  cbn [typeof_arg]. by rewrite !Hdist.
Qed.
End Claims1.

Lemma fill_row_major_witness :
  dims_of_size (PTuple [SInt 2; SInt 3]) = Return [2; 3]%nat
  ∧ ∃ out,
      fill (total (next_double (G := nat))) (PTuple [SInt 2; SInt 3]) 0%nat
        = (Return (RArray out), 6%nat)
      ∧ elems (body out) = [0; 1; 2; 3; 4; 5]%Z.
Proof.
  split; [reflexivity|].
  destruct (fill_row_major (next_double (G := nat)) (PTuple [SInt 2; SInt 3])
              [2; 3]%nat 0%nat eq_refl) as (_ & _ & out & Hfill & _ & Helems & _).
  exists out. split; [exact Hfill | exact Helems].
Defined.

Lemma check_size_rejects_non_integer_witness :
  non_integer_size (PTuple [SInt 2; SFloat 3])
  ∧ call_random (Some (PTuple [SInt 2; SFloat 3])) (DType float64) ([7; 3]%Z : list Z)
    = (Raise InvalidShape, [7; 3]%Z).
Proof.
  assert (non_integer_size (PTuple [SInt 2; SFloat 3])) as Hn.
  { exists (SFloat 3). split; [|discriminate]. apply elem_of_cons. right. apply elem_of_cons. by left. }
  split; [exact Hn|].
  exact (proj1 (proj2 (proj2
    (check_size_rejects_non_integer (PTuple [SInt 2; SFloat 3]) (next_double (G := list Z))
       [7; 3]%Z Hn)))).
Defined.

(** C7 as stated fails: a negative extent has an integer type, passes
    [check_size], and is refused only by the allocation. *)
Lemma negative_size_passes_check_size :
  negative_size (PTuple [SInt 2; SInt (-3)])
  ∧ check_size (typeof (PTuple [SInt 2; SInt (-3)])) = Return tt
  ∧ call_random (Some (PTuple [SInt 2; SInt (-3)])) (DType float64) ([7; 3]%Z : list Z)
    = (Raise (ValueError negative_dims_msg), [7; 3]%Z)
  ∧ (call_random (Some (PTuple [SInt 2; SInt (-3)])) (DType float64) ([7; 3]%Z : list Z)).1
    ≠ Raise InvalidShape.
Proof.
  split; [|split; [reflexivity|split; [reflexivity|discriminate]]].
  split.
  - repeat constructor.
  - exists (-3)%Z. split; [|lia]. apply elem_of_cons. right. apply elem_of_cons. by left.
Defined.


Section SliceLemmas.
Context {A : Type}.
Implicit Types (x : nest A) (dims : list nat).

Lemma slice_apply_all {B} (l : list B) : slice_apply slice_all l = l.
Proof.
  unfold slice_apply, slice_all, slice_start, slice_stop, slice_bound.
  rewrite Nat.sub_0_r, drop_0. by apply take_ge.
Qed.

Lemma slice_assign_all {B} (l new : list B) : slice_assign slice_all l new = new.
Proof.
  unfold slice_assign, slice_all, slice_start, slice_stop, slice_bound.
  rewrite Nat.max_0_l, take_0, drop_all. simpl. by rewrite app_nil_r.
Qed.

Lemma slice_one_bounds len (k : nat) :
  k < len ->
  slice_start len (slice_one (Z.of_nat k)) = k
  ∧ slice_stop len (slice_one (Z.of_nat k)) = S k.
Proof.
  intros Hk. unfold slice_one, slice_start, slice_stop, slice_bound.
  destruct (Z.ltb_spec (Z.of_nat k) 0); [lia|].
  destruct (Z.ltb_spec (Z.of_nat k + 1) 0); [lia|]. lia.
Qed.

Lemma slice_apply_one {B} (l : list B) (k : nat) r :
  l !! k = Some r -> slice_apply (slice_one (Z.of_nat k)) l = [r].
Proof.
  intros Hr. pose proof (lookup_lt_Some _ _ _ Hr) as Hk.
  unfold slice_apply. destruct (slice_one_bounds (length l) k Hk) as [-> ->].
  replace (S k - k) with 1 by lia.
  rewrite (drop_S _ _ _ Hr). done.
Qed.

Lemma slice_assign_one {B} (l : list B) (k : nat) r :
  k < length l -> slice_assign (slice_one (Z.of_nat k)) l [r] = <[k := r]> l.
Proof.
  intros Hk. unfold slice_assign. destruct (slice_one_bounds (length l) k Hk) as [-> ->].
  replace (Nat.max k (S k)) with (S k) by lia.
  by rewrite insert_take_drop.
Qed.

Lemma getitem_slices_all n x : getitem_slices (replicate n slice_all) x = x.
Proof.
  revert x. induction n as [|n IH]; intros x; [by destruct x|].
  destruct x as [v|rows]; [done|]. cbn [replicate getitem_slices].
  rewrite slice_apply_all. f_equal.
  rewrite <- (list_fmap_id rows) at 2. apply list_fmap_ext. intros _ y _. apply IH.
Qed.

Lemma setitem_slices_all dims x src :
  has_shape dims x -> has_shape dims src ->
  setitem_slices (replicate (length dims) slice_all) x src = src.
Proof.
  revert x src. induction dims as [|d ds IH]; intros x src Hx Hsrc; [by destruct x|].
  destruct x as [|rows]; [done|]. destruct src as [|srows]; [done|].
  destruct Hx as [Hlx Hx]. destruct Hsrc as [Hls Hsrc].
  cbn [length replicate setitem_slices]. rewrite slice_assign_all, slice_apply_all.
  f_equal. subst d.
  revert srows Hls Hsrc. induction Hx as [|r rows Hr Hx IHr]; intros [|s srows] Hls Hsrc;
    try done.
  apply Forall_cons in Hsrc as [Hs Hsrc]. cbn [zip_with].
  rewrite IH by done. f_equal. apply IHr; [|done]. simpl in Hls. lia.
Qed.
End SliceLemmas.

Lemma zip_with_fmap_both {A B C D} (f : B -> C -> D) (h : A -> B) (g : A -> C) l :
  zip_with f (h <$> l) (g <$> l) = (fun y => f (h y) (g y)) <$> l.
Proof. induction l as [|y l IH]; [done|]. cbn. by rewrite <- IH. Qed.

Lemma zip_with_fmap_self {A B C} (f : A -> B -> C) (g : A -> B) l :
  zip_with f l (g <$> l) = (fun y => f y (g y)) <$> l.
Proof. induction l as [|y l IH]; [done|]. cbn. by rewrite <- IH. Qed.

Lemma exchange_swap dims (x : nest Z) axis n i j :
  has_shape dims x -> dims !! axis = Some n -> i < n -> j < n -> i ≠ j ->
  exchange (<[axis := slice_one (Z.of_nat i)]> (replicate (length dims) slice_all))
           (<[axis := slice_one (Z.of_nat j)]> (replicate (length dims) slice_all)) x
  = swap_along axis i j x.
Proof.
  revert dims x. induction axis as [|a IH]; intros [|d ds] x Hx Hn Hi Hj Hij; try done.
  - injection Hn as ->. destruct x as [|rows]; [done|]. destruct Hx as [Hlen Hall].
    destruct (lookup_lt_is_Some_2 rows i) as [ri Hri]; [lia|].
    destruct (lookup_lt_is_Some_2 rows j) as [rj Hrj]; [lia|].
    assert (has_shape ds ri) as Hsi by (eapply Forall_lookup_1; eauto).
    assert (has_shape ds rj) as Hsj by (eapply Forall_lookup_1; eauto).
    unfold exchange, np_copy. cbn [length replicate insert list_insert
      getitem_slices setitem_slices swap_along].
    rewrite Hri, Hrj.
    rewrite (slice_apply_one rows j rj Hrj), (slice_apply_one rows i ri Hri).
    cbn [fmap list_fmap zip_with]. rewrite !getitem_slices_all.
    rewrite (setitem_slices_all ds rj ri Hsj Hsi).
    rewrite slice_assign_one by lia.
    assert (<[j:=ri]> rows !! i = Some ri) as Hri'
      by (by rewrite list_lookup_insert_ne).
    rewrite (slice_apply_one _ i ri Hri'). cbn [zip_with].
    rewrite (setitem_slices_all ds ri rj Hsi Hsj).
    by rewrite slice_assign_one by (rewrite length_insert; lia).
  - destruct x as [|rows]; [done|]. destruct Hx as [Hlen Hall].
    unfold exchange, np_copy. cbn [length replicate insert list_insert
      getitem_slices setitem_slices swap_along].
    rewrite !slice_assign_all, !slice_apply_all.
    f_equal.
    rewrite zip_with_fmap_self, zip_with_fmap_both.
    apply list_fmap_ext. intros k y Hy.
    assert (has_shape ds y) as Hys by (eapply Forall_lookup_1; eauto).
    by apply (IH ds y).
Qed.

Section SwapLemmas.
Context {A : Type}.
Implicit Types (x : nest A) (l : list A).

Lemma insert_head_perm {B} (l : list B) j a b :
  l !! j = Some b -> b :: <[j := a]> l ≡ₚ a :: l.
Proof.
  revert j. induction l as [|c l IH]; intros [|j] Hj; try done.
  - injection Hj as ->. apply perm_swap.
  - cbn [insert list_insert]. rewrite perm_swap, (IH j Hj). apply perm_swap.
Qed.

Lemma insert_swap_perm {B} (l : list B) i j a b :
  l !! i = Some a -> l !! j = Some b -> <[i := b]> (<[j := a]> l) ≡ₚ l.
Proof.
  revert i j. induction l as [|c l IH]; intros [|i] [|j] Hi Hj; try done.
  - injection Hi as ->. by injection Hj as ->.
  - injection Hi as ->. cbn [insert list_insert]. by apply insert_head_perm.
  - injection Hj as ->. cbn [insert list_insert]. by apply insert_head_perm.
  - cbn [insert list_insert]. f_equiv. by apply IH.
Qed.

Lemma join_perm_pointwise {B} (ls ls' : list (list B)) :
  Forall2 (≡ₚ) ls ls' -> mjoin ls ≡ₚ mjoin ls'.
Proof.
  induction 1 as [|l l' ls ls' Hl _ IH]; [done|].
  change (l ++ mjoin ls ≡ₚ l' ++ mjoin ls'). by rewrite Hl, IH.
Qed.

Lemma swap_along_elems axis i j x : elems (swap_along axis i j x) ≡ₚ elems x.
Proof.
  revert x. induction axis as [|a IH]; intros [v|rows]; try done.
  - cbn [swap_along]. destruct (rows !! i) as [ri|] eqn:Hi; [|done].
    destruct (rows !! j) as [rj|] eqn:Hj; [|done].
    cbn [elems]. apply join_Permutation. rewrite !list_fmap_insert.
    apply insert_swap_perm; by rewrite list_lookup_fmap, ?Hi, ?Hj.
  - cbn [swap_along elems]. apply join_perm_pointwise.
    rewrite <- list_fmap_compose. apply Forall2_fmap, Forall2_same_length_lookup.
    split; [done|]. intros k y y' Hy Hy'. rewrite Hy in Hy'. injection Hy' as <-.
    apply IH.
Qed.

Lemma swap_along_shape dims axis i j x :
  has_shape dims x -> has_shape dims (swap_along axis i j x).
Proof.
  revert dims x. induction axis as [|a IH]; intros [|d ds] [v|rows] Hx; try done.
  - cbn [swap_along]. destruct (rows !! i) as [ri|] eqn:Hi; [|done].
    destruct (rows !! j) as [rj|] eqn:Hj; [|done].
    destruct Hx as [Hlen Hall]. split; [by rewrite !length_insert|].
    apply Forall_insert; [apply Forall_insert|]; try done;
      eapply Forall_lookup_1; eauto.
  - destruct Hx as [Hlen Hall]. split; [by rewrite length_fmap|].
    apply Forall_fmap. eapply Forall_impl; [exact Hall|]. intros y Hy. by apply IH.
Qed.
End SwapLemmas.


Section Trace.
Context {G : Type} `{BitGenerator G}.


Lemma gen_mask_nonneg rng : (0 <= gen_mask rng)%Z.
Proof.
  unfold gen_mask. rewrite Z.ones_equiv.
  pose proof (Z.log2_up_nonneg (rng + 1)).
  pose proof (Z.pow_pos_nonneg 2 (Z.log2_up (rng + 1))). lia.
Qed.

Lemma bounded_masked_range fuel rng bg v bg' :
  bounded_masked fuel rng bg = Some (v, bg') -> (0 <= v <= rng)%Z.
Proof.
  revert bg. induction fuel as [|fuel IH]; intros bg Hb; [done|].
  cbn [bounded_masked] in Hb.
  destruct (if (rng <=? 4294967295)%Z then next_uint32 bg else next_uint64 bg)
    as [w bg1].
  destruct (Z.leb_spec (Z.land w (gen_mask rng)) rng) as [Hle|Hgt].
  - injection Hb as <- <-. split; [|done].
    apply Z.land_nonneg. right. apply gen_mask_nonneg.
  - by apply (IH bg1).
Qed.

Lemma intp_small v : (- 2 ^ 63 <= v < 2 ^ 63)%Z -> intp v = v.
Proof.
  intros Hv. unfold intp, cast. cbn [iinfo].
  rewrite Z.mod_small by lia. lia.
Qed.

Lemma shuffle_trace_range fuel i bg :
  Forall (fun p => (0 <= p.2 <= Z.of_nat p.1)%Z ∧ 1 <= p.1 <= i)
    (shuffle_trace fuel i bg).1.1.
Proof.
  revert bg. induction i as [|i IH]; intros bg; [constructor|].
  cbn [shuffle_trace]. unfold random_interval.
  destruct (bounded_masked fuel (Z.of_nat (S i)) bg) as [[j bg1]|] eqn:Hb; [|constructor].
  specialize (IH bg1). destruct (shuffle_trace fuel i bg1) as [[rest bg2] ok].
  cbn [fst snd] in *. constructor.
  - split; [by eapply bounded_masked_range|simpl; lia].
  - eapply Forall_impl; [exact IH|]. intros p Hp. simpl in *. lia.
Qed.

Lemma shuffle_trace_complete fuel i bg :
  (shuffle_trace fuel i bg).2 = true ->
  (shuffle_trace fuel i bg).1.1.*1 = reverse (seq 1 i).
Proof.
  revert bg. induction i as [|i IH]; intros bg; [done|].
  cbn [shuffle_trace]. destruct (random_interval fuel bg (Z.of_nat (S i))) as [[j bg1]|];
    [|done].
  specialize (IH bg1). destruct (shuffle_trace fuel i bg1) as [[rest bg2] ok].
  cbn [fst snd] in *. intros Hok. rewrite fmap_cons, (IH Hok). cbn [fst].
  rewrite seq_S, reverse_app. done.
Qed.

Lemma shuffle_loop_trace fuel dims axis n i bg (x : nest Z) :
  has_shape dims x -> dims !! axis = Some n -> i < n -> (Z.of_nat n <= 2 ^ 63)%Z ->
  shuffle_loop fuel (replicate (length dims) slice_all) (Z.of_nat axis) i bg x
  = let '(js, bg', ok) := shuffle_trace fuel i bg in
    (if ok then Return tt else OutOfFuel, bg', apply_swaps axis js x).
Proof.
  intros Hx Hn Hi Hn63. revert bg x Hx. induction i as [|i IH]; intros bg x Hx; [done|].
  cbn [shuffle_loop shuffle_trace]. unfold random_interval at 2.
  unfold random_interval at 1.
  destruct (bounded_masked fuel (Z.of_nat (S i)) bg) as [[j bg1]|] eqn:Hb; [|done].
  apply bounded_masked_range in Hb. rewrite intp_small by lia.
  pose proof (lookup_lt_Some _ _ _ Hn) as Haxis.
  assert (∀ s, tuple_setitem (replicate (length dims) slice_all) (Z.of_nat axis) s
               = Return (<[axis := s]> (replicate (length dims) slice_all))) as Hset.
  { intros s. unfold tuple_setitem. rewrite length_replicate, Nat2Z.id.
    destruct (Z.leb_spec 0 (Z.of_nat axis)); [|lia].
    destruct (Z.ltb_spec (Z.of_nat axis) (Z.of_nat (length dims))); [done|lia]. }
  rewrite !Hset.
  destruct (Z.eqb_spec (Z.of_nat (S i)) j) as [Heq|Hne].
  - rewrite (IH ltac:(lia) bg1 x Hx).
    destruct (shuffle_trace fuel i bg1) as [[rest bg2] ok].
    unfold apply_swaps. cbn [fold_left fst snd].
    by destruct (Z.eqb_spec (Z.of_nat (S i)) j).
  - change (mk_slice (Some (Z.of_nat (S i))) (Some (Z.of_nat (S i) + 1)%Z))
      with (slice_one (Z.of_nat (S i))).
    change (mk_slice (Some j) (Some (j + 1)%Z)) with (slice_one j).
    rewrite <- (Z2Nat.id j) at 1 by lia.
    rewrite (exchange_swap dims x axis n (S i) (Z.to_nat j)) by (try done; lia).
    rewrite (IH ltac:(lia) bg1 _ (swap_along_shape dims axis (S i) (Z.to_nat j) x Hx)).
    destruct (shuffle_trace fuel i bg1) as [[rest bg2] ok].
    unfold apply_swaps. cbn [fold_left fst snd].
    by destruct (Z.eqb_spec (Z.of_nat (S i)) j).
Qed.
End Trace.


Section Moved.
Context {A : Type}.
Implicit Types (x : nest A).

Lemma transp_perm i j n :
  i < n -> j < n -> transp i j <$> seq 0 n ≡ₚ seq 0 n.
Proof.
  intros Hi Hj.
  assert (transp i j <$> seq 0 n = <[i := j]> (<[j := i]> (seq 0 n))) as ->.
  { apply list_eq. intros k. rewrite list_lookup_fmap, !list_lookup_insert.
    rewrite length_insert, length_seq. unfold transp.
    destruct (decide (k < n)) as [Hk|Hk].
    - rewrite (lookup_seq_lt 0 n k Hk). simpl.
      repeat case_decide; try done; try f_equal; lia.
    - rewrite (lookup_seq_ge 0 n k) by lia. simpl.
      repeat case_decide; try done; lia. }
  apply insert_swap_perm; by rewrite lookup_seq_lt.
Qed.

Lemma swap_along_moved dims axis n i j x :
  has_shape dims x -> dims !! axis = Some n -> i < n -> j < n ->
  moved_along axis (transp i j) x (swap_along axis i j x).
Proof.
  unfold moved_along. revert dims x.
  induction axis as [|a IH]; intros [|d ds] [v|rows] Hx Hn Hi Hj c; try done.
  - injection Hn as ->. destruct Hx as [Hlen Hall]. cbn [swap_along].
    destruct (lookup_lt_is_Some_2 rows i) as [ri Hri]; [lia|].
    destruct (lookup_lt_is_Some_2 rows j) as [rj Hrj]; [lia|].
    rewrite Hri, Hrj. destruct c as [|k c]; [done|].
    cbn [alter list_alter getitem]. f_equal.
    unfold transp. destruct (decide (k = i)) as [->|Hki].
    { rewrite list_lookup_insert_eq by (rewrite length_insert; lia). by rewrite Hrj. }
    rewrite list_lookup_insert_ne by done.
    destruct (decide (k = j)) as [->|Hkj].
    { rewrite list_lookup_insert_eq by lia. by rewrite Hri. }
    by rewrite list_lookup_insert_ne.
  - destruct Hx as [Hlen Hall]. cbn [swap_along].
    destruct c as [|k c]; [done|]. cbn [alter list_alter getitem].
    rewrite list_lookup_fmap. destruct (rows !! k) as [r|] eqn:Hr; [|done].
    simpl. apply (IH ds r); try done. eapply Forall_lookup_1; eauto.
Qed.
End Moved.

Lemma apply_swaps_cons axis i j js (x : nest Z) :
  apply_swaps axis ((i, j) :: js) x
  = apply_swaps axis js
      (if (Z.of_nat i =? j)%Z then x else swap_along axis i (Z.to_nat j) x).
Proof. reflexivity. Qed.

Lemma apply_swaps_spec dims axis n js (x : nest Z) :
  has_shape dims x -> dims !! axis = Some n ->
  Forall (fun p : nat * Z => (0 <= p.2 <= Z.of_nat p.1)%Z ∧ p.1 < n) js ->
  has_shape dims (apply_swaps axis js x)
  ∧ elems (apply_swaps axis js x) ≡ₚ elems x
  ∧ ∃ f, f <$> seq 0 n ≡ₚ seq 0 n ∧ moved_along axis f x (apply_swaps axis js x).
Proof.
  intros Hx Hn Hjs. revert x Hx. induction Hjs as [|[i j] js [Hj Hi] Hjs IH]; intros x Hx.
  - split; [done|]. split; [done|]. exists id. split; [by rewrite list_fmap_id|].
    intros c. by rewrite list_alter_id.
  - rewrite apply_swaps_cons. cbn [fst snd] in *.
    destruct (Z.eqb_spec (Z.of_nat i) j) as [Heq|Hne]; [by apply IH|].
    pose proof (swap_along_shape dims axis i (Z.to_nat j) x Hx) as Hx'.
    destruct (IH _ Hx') as (Hs & He & f & Hf & Hm).
    split; [done|]. split; [by rewrite He, swap_along_elems|].
    exists (transp i (Z.to_nat j) ∘ f). split.
    + rewrite list_fmap_compose, Hf. apply transp_perm; lia.
    + intros c. rewrite (Hm c).
      rewrite (swap_along_moved dims axis n i (Z.to_nat j) x) by (try done; lia).
      by rewrite list_alter_alter_eq.
Qed.


Section ShuffleClaims.
Context {G : Type} `{BitGenerator G}.


Lemma call_shuffle_array fuel l (x : ndarray Z) axis bg (h : gmap nat (ndarray Z)) :
  h !! l = Some x ->
  call_shuffle fuel (XArray l) (PScalar (SInt axis)) bg h
  = let '(r, bg', x') := shuffle_array fuel bg x axis in
    (obind r (fun _ => Return RNone), bg', <[l := x']> h).
Proof.
  intros Hl. unfold call_shuffle, shuffle_array. cbn [typeof_x typeof typeof_scalar].
  rewrite Hl. reflexivity.
Qed.

Lemma shuffle_array_valid fuel bg (x : ndarray Z) (axis n : nat) :
  wf x -> fits_intp x -> shape x !! axis = Some n ->
  shuffle_array fuel bg x (Z.of_nat axis)
  = let '(js, bg', ok) := shuffle_trace fuel (n - 1) bg in
    (if ok then Return tt else OutOfFuel, bg',
     mk_ndarray (shape x) (apply_swaps axis js (body x))).
Proof.
  intros Hwf Hfit Hn. pose proof (lookup_lt_Some _ _ _ Hn) as Haxis.
  unfold shuffle_array. cbn [NumPyRandomGeneratorType_shuffle check_types existsb
    isinstance negb obind orb].
  assert ((Z.of_nat (ndim x) - 1 <? Z.of_nat axis)%Z = false) as ->
    by (apply Z.ltb_ge; unfold ndim; lia).
  unfold shape_getitem.
  assert ((Z.of_nat axis <? 0)%Z = false) as Hlt0 by (apply Z.ltb_ge; lia).
  cbv zeta. rewrite Hlt0. cbv iota. rewrite Hlt0, Nat2Z.id, Hn.
  destruct (decide (n = 0)) as [->|Hn0].
  { reflexivity. }
  assert (Z.of_nat n <= 2 ^ 63)%Z as Hn63.
  { pose proof (Forall_lookup_1 _ _ _ _ Hfit Hn) as Hd. simpl in Hd. lia. }
  unfold ndim. rewrite (shuffle_loop_trace fuel (shape x) axis n (n - 1) bg (body x))
    by (try done; lia).
  by destruct (shuffle_trace fuel (n - 1) bg) as [[js bg'] ok].
Qed.

(** C3: on a valid axis of extent [n] the loop variable runs from
    [n - 1] down to 1 with one draw [j] in [[0, i]] for each [i],
    consumed whether or not [i = j]; when [i ≠ j] the three copies
    through the scratch buffer exchange the slices at [i] and [j] along
    the axis and touch nothing else. *)
Theorem shuffle_fisher_yates fuel bg (x : ndarray Z) (axis n : nat) :
  wf x -> fits_intp x -> shape x !! axis = Some n ->
  shuffle_array fuel bg x (Z.of_nat axis)
  = (if (shuffle_trace fuel (n - 1) bg).2 then Return tt else OutOfFuel,
     (shuffle_trace fuel (n - 1) bg).1.2,
     mk_ndarray (shape x) (apply_swaps axis (shuffle_trace fuel (n - 1) bg).1.1 (body x)))
  ∧ Forall (fun p => (0 <= p.2 <= Z.of_nat p.1)%Z ∧ 1 <= p.1 <= n - 1)
      (shuffle_trace fuel (n - 1) bg).1.1
  ∧ ((shuffle_trace fuel (n - 1) bg).2 = true ->
     (shuffle_trace fuel (n - 1) bg).1.1.*1 = reverse (seq 1 (n - 1)))
  ∧ ∀ i j y, has_shape (shape x) y -> i < n -> j < n -> i ≠ j ->
      exchange (<[axis := slice_one (Z.of_nat i)]> (replicate (ndim x) slice_all))
               (<[axis := slice_one (Z.of_nat j)]> (replicate (ndim x) slice_all)) y
      = swap_along axis i j y
      ∧ moved_along axis (transp i j) y (swap_along axis i j y).
Proof.
  intros Hwf Hfit Hn. split; [|split; [|split]].
  - rewrite (shuffle_array_valid fuel bg x axis n Hwf Hfit Hn).
    by destruct (shuffle_trace fuel (n - 1) bg) as [[js bg'] ok].
  - apply shuffle_trace_range.
  - apply shuffle_trace_complete.
  - intros i j y Hy Hi Hj Hij. split.
    + by apply (exchange_swap (shape x) y axis n).
    + by apply (swap_along_moved (shape x) axis n).
Qed.

(** C4: whatever the draws, and however far the loop got, the array
    after [shuffle] has the shape it had and the same elements as a
    multiset, and each element has moved along the selected axis only:
    position [k] of the axis holds the whole slice that was at [f k],
    for one permutation [f] of the positions. *)
Theorem shuffle_permutes fuel bg (x : ndarray Z) (axis n : nat) :
  wf x -> fits_intp x -> shape x !! axis = Some n ->
  shape (shuffle_array fuel bg x (Z.of_nat axis)).2 = shape x
  ∧ wf (shuffle_array fuel bg x (Z.of_nat axis)).2
  ∧ elems (body (shuffle_array fuel bg x (Z.of_nat axis)).2) ≡ₚ elems (body x)
  ∧ ∃ f, f <$> seq 0 n ≡ₚ seq 0 n
         ∧ moved_along axis f (body x) (body (shuffle_array fuel bg x (Z.of_nat axis)).2).
Proof.
  intros Hwf Hfit Hn. rewrite (shuffle_array_valid fuel bg x axis n Hwf Hfit Hn).
  pose proof (shuffle_trace_range fuel (n - 1) bg) as Hr.
  destruct (shuffle_trace fuel (n - 1) bg) as [[js bg'] ok]. cbn [fst snd] in *.
  destruct (apply_swaps_spec (shape x) axis n js (body x) Hwf Hn) as (Hs & He & Hf).
  { eapply Forall_impl; [exact Hr|]. intros p Hp. simpl in *. lia. }
  done.
Qed.
End ShuffleClaims.


Lemma vec4_wf : wf vec4 ∧ fits_intp vec4.
Proof. split; [split; [done|repeat constructor]|repeat constructor]. Qed.

Lemma mat23_wf : wf mat23 ∧ fits_intp mat23.
Proof. split; [split; [done|repeat constructor]|repeat constructor]. Qed.

Lemma shuffle_fisher_yates_witness :
  wf vec4 ∧ fits_intp vec4
  ∧ shuffle_array 8 ([3; 1; 0]%Z : list Z) vec4 0
    = (Return tt, [], mk_ndarray [4] (Rows [Item 3; Item 1; Item 2; Item 4])%Z).
Proof.
  split; [apply vec4_wf|]. split; [apply vec4_wf|].
  exact (proj1 (shuffle_fisher_yates 8 ([3; 1; 0]%Z : list Z) vec4 0 4
                  (proj1 vec4_wf) (proj2 vec4_wf) eq_refl)).
Defined.

Lemma shuffle_permutes_witness :
  wf mat23 ∧ fits_intp mat23
  ∧ elems (body (shuffle_array 8 ([2; 0]%Z : list Z) mat23 1).2) ≡ₚ [1; 2; 3; 4; 5; 6]%Z.
Proof.
  split; [apply mat23_wf|]. split; [apply mat23_wf|].
  exact (proj1 (proj2 (proj2 (shuffle_permutes 8 ([2; 0]%Z : list Z) mat23 1 3
                  (proj1 mat23_wf) (proj2 mat23_wf) eq_refl)))).
Defined.

Section IntegersClaims.
Context {G : Type} `{BitGenerator G}.

Lemma fill_size_one (k : G -> option (Z * G)) bg a bg' :
  fill k (PScalar (SInt 1)) bg = (Return (RArray a), bg') ->
  shape a = [1] ∧ ∃ v, body a = Rows [Item v] ∧ k bg = Some (v, bg').
Proof.
  unfold fill.
  change (dims_of_size (PScalar (SInt 1))) with (Return (A := list nat) [1]).
  cbv beta iota zeta.
  assert (ndindex [1] = [[0]]) as -> by reflexivity. cbn [fill_loop np_empty body shape].
  destruct (k bg) as [[v bg1]|]; [|done].
  intros [= <- <-]. split; [done|]. by exists v.
Qed.

(** C10: [integers] without a size is the first element of the array
    that [integers] with [size = 1] fills from the same state: the same
    value, the same draws. *)
Theorem integers_scalar_is_first_of_size_one fuel low high dtype endpoint (bg : G) :
  call_integers fuel low high None dtype endpoint bg
  = first (call_integers fuel low high (Some (PScalar (SInt 1))) dtype endpoint bg)
  ∧ ∀ a bg',
      call_integers fuel low high (Some (PScalar (SInt 1))) dtype endpoint bg
      = (Return (RArray a), bg') ->
      shape a = [1]
      ∧ ∃ v, elems (body a) = [v]
             ∧ call_integers fuel low high None dtype endpoint bg = (Return (RScalar v), bg').
Proof.
  unfold call_integers, NumPyRandomGeneratorType_integers.
  cbn [typeof_arg typeof typeof_scalar].
  destruct (check_types (Scalar (typeof_scalar low)) [KInteger; KBoolean]); cbn [obind]; try done.
  destruct (check_types (Scalar (typeof_scalar high)) [KInteger; KBoolean]); cbn [obind]; try done.
  destruct (check_types (Scalar (typeof_scalar endpoint)) [KBoolean]); cbn [obind]; try done.
  destruct (match match dtype with DOmitted v => DType v | _ => dtype end with
            | DType d | DNumberClass d => Return d
            | _ => Raise (TypingError int_dtype_msg)
            end) as [d| | |]; cbn [obind]; try done.
  destruct d;
    repeat match goal with
    | |- context [bool_decide (?a = ?b)] =>
        let v := eval vm_compute in (bool_decide (a = b)) in
        change (bool_decide (a = b)) with v
    end;
    cbn [iinfo obind is_nonelike check_size existsb negb id orb]; try done;
    unfold random_bounded_bool_fill, random_bounded_uint_fill;
    (destruct (_randint_arg_check _ _ _ _ _); try done);
    (destruct (negb (negb (int_of_scalar endpoint =? 0)%Z)));
    (split; [done|]); intros arr bg' Hfill; rewrite Hfill;
    apply fill_size_one in Hfill as (Hs & v & Hb & _); (split; [done|]);
    exists v; unfold first; by rewrite !Hb.
Qed.
End IntegersClaims.


Lemma np_arange_elems n :
  shape (np_arange n) = [Z.to_nat n]
  ∧ elems (body (np_arange n)) = Z.of_nat <$> seq 0 (Z.to_nat n).
Proof.
  split; [done|]. unfold np_arange. cbn [body elems].
  induction (seq 0 (Z.to_nat n)) as [|k ks IH]; [done|].
  rewrite !fmap_cons. change (mjoin (?l :: ?ls)) with (l ++ mjoin ls).
  cbn [elems app]. by rewrite IH.
Qed.

Lemma ndarray_copy_id (a : ndarray Z) : ndarray_copy a = a.
Proof. by destruct a. Qed.

Section PermutationClaims.
Context {G : Type} `{BitGenerator G}.

Lemma call_shuffle_frame fuel x axis (bg : G) (h : gmap nat (ndarray Z)) l0 :
  (∀ l, x = XArray l -> (l0 ≠ l)) ->
  ((call_shuffle fuel x axis bg h).2) !! l0 = h !! l0.
Proof.
  intros Hne. unfold call_shuffle.
  destruct (NumPyRandomGeneratorType_shuffle (typeof_x h x) (typeof axis)) as [f| | |];
    destruct x as [l|v]; try done.
  destruct (h !! l) as [a|] eqn:Hl; [|done].
  destruct (f fuel bg a (axis_value axis)) as [[r bg'] a']. cbn [snd].
  rewrite lookup_insert_ne; [done|]. intros ->. by apply (Hne l0).
Qed.

End PermutationClaims.


Lemma cast_one dtype lb ub : int_bounds dtype = Some (lb, ub) -> cast dtype 1 = 1%Z.
Proof. by destruct dtype. Qed.

Lemma cast_valid dtype lb ub low high endpoint v :
  int_bounds dtype = Some (lb, ub) ->
  _randint_arg_check low high endpoint lb ub = Return tt ->
  (low <= v <= (if endpoint then high else high - 1))%Z ->
  cast dtype v = v.
Proof.
  intros Hb Hchk Hv. unfold _randint_arg_check in Hchk.
  set (closed := if endpoint then high else (high - 1)%Z) in *.
  destruct dtype; cbn in Hb; try done; injection Hb as <- <-;
    cbn [Z.eqb andb Pos.eqb] in Hchk;
    repeat match type of Hchk with
    | context [(?a <=? ?b)%Z] => destruct (Z.leb_spec a b); try done
    | context [(?a <? ?b)%Z] => destruct (Z.ltb_spec a b); try done
    end;
    unfold cast; cbn [iinfo].
  all: try (rewrite Z.mod_small; lia).
  destruct (Z.eqb_spec v 0); lia.
Qed.

Section IntegersRange.
Context {G : Type} `{BitGenerator G}.

Lemma fill_loop_samples (k : G -> option (Z * G)) (P : Z -> Prop) dims idx bg out b bg' :
  (∀ bg v bg1, k bg = Some (v, bg1) -> P v) ->
  has_shape dims out ->
  Forall (fun c => Forall2 lt c dims) idx ->
  fill_loop k idx bg out = (Return b, bg') ->
  ∃ vs, length vs = length idx ∧ Forall P vs ∧ has_shape dims b
        ∧ elems b = fold_left (fun l p => <[p.1 := p.2]> l)
                      (zip (ravel dims <$> idx) vs) (elems out).
Proof.
  intros Hk Hout Hidx. revert bg out Hout.
  induction Hidx as [|c idx Hc Hidx IH]; intros bg out Hout Hfill.
  - injection Hfill as <- <-. by exists [].
  - cbn [fill_loop] in Hfill. destruct (k bg) as [[v bg1]|] eqn:Hkb; [|done].
    destruct (IH bg1 (setitem c v out)) as (vs & Hlen & HP & Hshape & Helems);
      [by apply has_shape_setitem|done|].
    exists (v :: vs). split; [simpl; lia|]. split; [constructor; eauto|].
    split; [done|]. rewrite Helems.
    cbn [fmap list_fmap zip zip_with fold_left fst snd].
    by rewrite (elems_setitem dims).
Qed.

Lemma fill_samples (k : G -> option (Z * G)) (P : Z -> Prop) size bg r bg' :
  (∀ bg v bg1, k bg = Some (v, bg1) -> P v) ->
  fill k size bg = (Return r, bg') ->
  ∃ a, r = RArray a ∧ Forall P (elems (body a)).
Proof.
  intros Hk. unfold fill. destruct (dims_of_size size) as [dims| | |]; try done.
  cbn [np_empty body shape].
  destruct (fill_loop k (ndindex dims) bg (full dims 0%Z)) as [[b| | |] bg1] eqn:Hfill;
    try done.
  intros [= <- <-]. eexists. split; [done|]. cbn [body].
  destruct (fill_loop_samples k P dims (ndindex dims) bg (full dims 0%Z) b bg1 Hk)
    as (vs & Hlen & HP & Hshape & Helems); [apply has_shape_full|..|done|].
  { apply Forall_forall. intros c Hc. by apply ndindex_in_range. }
  assert (length (ndindex dims) = nprod dims) as Hn.
  { by rewrite <- (length_fmap (ravel dims)), ravel_ndindex, length_seq. }
  rewrite Helems, ravel_ndindex, <- Hn, <- Hlen.
  rewrite <- (app_nil_l (elems (full dims 0%Z))).
  rewrite fold_insert_seq; [done|done|].
  rewrite Hlen, Hn. apply elems_length, has_shape_full.
Qed.

End IntegersRange.

Lemma call_shuffle_unfold {G} `{BitGenerator G} fuel l (a : ndarray Z) axis (bg : G)
    (h : gmap nat (ndarray Z)) :
  h !! l = Some a ->
  call_shuffle fuel (XArray l) axis bg h
  = match check_types (typeof axis) [KInteger] with
    | Return _ =>
        let '(r, bg', x') := shuffle_array fuel bg a (axis_value axis) in
        (obind r (fun _ => Return RNone), bg', <[l := x']> h)
    | Raise e => (Raise e, bg, h)
    | OutOfFuel => (OutOfFuel, bg, h)
    | Undefined => (Undefined, bg, h)
    end.
Proof.
  intros Hl. unfold call_shuffle, shuffle_array. cbn [typeof_x]. rewrite Hl.
  unfold NumPyRandomGeneratorType_shuffle.
  cbn [check_types existsb isinstance negb obind orb].
  by destruct (check_types (typeof axis) [KInteger]).
Qed.

Section Determinism.
Context {G1 G2 : Type} {H1 : BitGenerator G1} {H2 : BitGenerator G2}.
Context (R : G1 -> G2 -> Prop) (HR : bisimulation R).

Local Abbreviation agree := (agree_on R).
Local Abbreviation kernels_agree := (kernels_agree_on R).
Local Abbreviation agree3 := (agree3_on R).


Lemma bounded_masked_agree fuel rng :
  kernels_agree (bounded_masked fuel rng) (bounded_masked fuel rng).
Proof.
  induction fuel as [|fuel IH]; intros s1 s2 Hs; [done|].
  cbn [bounded_masked].
  destruct (HR s1 s2 Hs) as ((H32 & R32) & (H64 & R64) & _).
  destruct (rng <=? 4294967295)%Z.
  - destruct (next_uint32 s1) as [w1 t1], (next_uint32 s2) as [w2 t2].
    cbn [fst snd] in *. subst w2.
    destruct (Z.land w1 (gen_mask rng) <=? rng)%Z; [done|]. by apply IH.
  - destruct (next_uint64 s1) as [w1 t1], (next_uint64 s2) as [w2 t2].
    cbn [fst snd] in *. subst w2.
    destruct (Z.land w1 (gen_mask rng) <=? rng)%Z; [done|]. by apply IH.
Qed.

Lemma total_agree (f1 : G1 -> Z * G1) (f2 : G2 -> Z * G2) :
  (∀ s1 s2, R s1 s2 -> agree (f1 s1) (f2 s2)) ->
  kernels_agree (total f1) (total f2).
Proof. intros Hf s1 s2 Hs. by apply Hf. Qed.

Lemma fill_loop_agree k1 k2 idx s1 s2 out :
  kernels_agree k1 k2 -> R s1 s2 ->
  agree (fill_loop k1 idx s1 out) (fill_loop k2 idx s2 out).
Proof.
  intros Hk. revert s1 s2 out. induction idx as [|i idx IH]; intros s1 s2 out Hs; [done|].
  cbn [fill_loop]. specialize (Hk s1 s2 Hs).
  destruct (k1 s1) as [[v1 t1]|], (k2 s2) as [[v2 t2]|]; try done.
  destruct Hk as [Hv Ht]. cbn [fst snd] in *. subst v2. by apply IH.
Qed.

Lemma fill_agree k1 k2 size s1 s2 :
  kernels_agree k1 k2 -> R s1 s2 ->
  agree (fill k1 size s1) (fill k2 size s2).
Proof.
  intros Hk Hs. unfold fill. destruct (dims_of_size size) as [dims| | |]; try done.
  pose proof (fill_loop_agree k1 k2 (ndindex dims) s1 s2 (body (np_empty 0%Z dims)) Hk Hs)
    as [Ho Ht].
  destruct (fill_loop k1 _ s1 _) as [o1 t1], (fill_loop k2 _ s2 _) as [o2 t2].
  cbn [fst snd] in *. subst o2. by destruct o1.
Qed.

Lemma first_agree (r1 : outcome pyresult * G1) (r2 : outcome pyresult * G2) :
  agree r1 r2 -> agree (first r1) (first r2).
Proof.
  destruct r1 as [o1 t1], r2 as [o2 t2]. intros [Ho Ht]. cbn [fst snd] in *. subst o2.
  unfold first. destruct o1 as [[v|a|l|]| | |]; try done.
  by destruct (getitem [0] (body a)).
Qed.

Lemma random_bounded_fill_agree fuel s1 s2 low rng size dtype :
  R s1 s2 ->
  agree (random_bounded_fill fuel s1 low rng size dtype)
        (random_bounded_fill fuel s2 low rng size dtype).
Proof.
  intros Hs. unfold random_bounded_fill. apply fill_agree; [|done].
  intros t1 t2 Ht. pose proof (bounded_masked_agree fuel rng t1 t2 Ht) as Hb.
  destruct (bounded_masked fuel rng t1) as [[v1 u1]|],
           (bounded_masked fuel rng t2) as [[v2 u2]|]; try done.
  destruct Hb as [Hv Hu]. cbn [fst snd] in *. by subst v2.
Qed.

Lemma dist_agree (f1 : G1 -> Z * G1) (f2 : G2 -> Z * G2) size s1 s2 :
  (∀ s1 s2, R s1 s2 -> agree (f1 s1) (f2 s2)) -> R s1 s2 ->
  agree (run_overload (NumPyRandomGeneratorType_dist f1 (typeof_arg size)) size s1)
        (run_overload (NumPyRandomGeneratorType_dist f2 (typeof_arg size)) size s2).
Proof.
  intros Hf Hs. unfold NumPyRandomGeneratorType_dist.
  destruct (is_nonelike (typeof_arg size)).
  - cbn [run_overload]. specialize (Hf s1 s2 Hs).
    destruct (f1 s1) as [v1 t1], (f2 s2) as [v2 t2]. destruct Hf as [Hv Ht].
    cbn [fst snd] in *. by subst v2.
  - destruct (check_size (typeof_arg size)); cbn [obind run_overload]; try done.
    destruct size as [sz|]; [|done]. apply fill_agree; [|done]. by apply total_agree.
Qed.

Lemma call_random_agree size dtype s1 s2 :
  R s1 s2 -> agree (call_random size dtype s1) (call_random size dtype s2).
Proof.
  intros Hs. unfold call_random, NumPyRandomGeneratorType_random, _get_proper_func.
  destruct (match dtype with DOmitted v => DType v | _ => dtype end) as [d|d|d|];
    try done.
  - destruct (bool_decide (d ∈ [float32; float64])); cbn [negb obind]; [|done].
    destruct (bool_decide (d = float32)).
    + apply (dist_agree next_float next_float); [|done].
      intros t1 t2 Ht. by destruct (HR t1 t2 Ht) as (_ & _ & ? & _).
    + apply (dist_agree next_double next_double); [|done].
      intros t1 t2 Ht. by destruct (HR t1 t2 Ht) as (_ & _ & _ & ?).
  - destruct (bool_decide (d ∈ [float32; float64])); cbn [negb obind]; [|done].
    destruct (bool_decide (d = float32)).
    + apply (dist_agree next_float next_float); [|done].
      intros t1 t2 Ht. by destruct (HR t1 t2 Ht) as (_ & _ & ? & _).
    + apply (dist_agree next_double next_double); [|done].
      intros t1 t2 Ht. by destruct (HR t1 t2 Ht) as (_ & _ & _ & ?).
Qed.

Lemma call_integers_agree fuel low high size dtype endpoint s1 s2 :
  R s1 s2 ->
  agree (call_integers fuel low high size dtype endpoint s1)
        (call_integers fuel low high size dtype endpoint s2).
Proof.
  intros Hs. unfold call_integers, NumPyRandomGeneratorType_integers.
  destruct (check_types (Scalar (typeof_scalar low)) _); cbn [obind]; try done.
  destruct (check_types (Scalar (typeof_scalar high)) _); cbn [obind]; try done.
  destruct (check_types (Scalar (typeof_scalar endpoint)) _); cbn [obind]; try done.
  destruct (match match dtype with DOmitted v => DType v | _ => dtype end with
            | DType d | DNumberClass d => Return d
            | _ => Raise (TypingError int_dtype_msg)
            end) as [d| | |]; cbn [obind]; try done.
  destruct d;
    repeat match goal with
    | |- context [bool_decide (?a = ?b)] =>
        let v := eval vm_compute in (bool_decide (a = b)) in
        change (bool_decide (a = b)) with v
    end;
    cbn [iinfo obind]; try done;
    unfold random_bounded_bool_fill, random_bounded_uint_fill;
    (destruct (is_nonelike (typeof_arg size));
     [|destruct (check_size (typeof_arg size)); cbn [obind]; try done]);
    (destruct (_randint_arg_check _ _ _ _ _); try done);
    try (destruct size as [sz|]; [|done]);
    destruct (negb (negb (int_of_scalar endpoint =? 0)%Z));
    try apply first_agree; by apply random_bounded_fill_agree.
Qed.

Lemma shuffle_loop_agree fuel axis_impl axis i s1 s2 (x : nest Z) :
  R s1 s2 ->
  (shuffle_loop fuel axis_impl axis i s1 x).1.1 = (shuffle_loop fuel axis_impl axis i s2 x).1.1
  ∧ R (shuffle_loop fuel axis_impl axis i s1 x).1.2 (shuffle_loop fuel axis_impl axis i s2 x).1.2
  ∧ (shuffle_loop fuel axis_impl axis i s1 x).2 = (shuffle_loop fuel axis_impl axis i s2 x).2.
Proof.
  revert s1 s2 x. induction i as [|i IH]; intros s1 s2 x Hs; [done|].
  cbn [shuffle_loop]. unfold random_interval.
  pose proof (bounded_masked_agree fuel (Z.of_nat (S i)) s1 s2 Hs) as Hb.
  destruct (bounded_masked fuel (Z.of_nat (S i)) s1) as [[v1 t1]|],
           (bounded_masked fuel (Z.of_nat (S i)) s2) as [[v2 t2]|]; try done.
  destruct Hb as [Hv Ht]. cbn [fst snd] in *. subst v2.
  destruct (Z.of_nat (S i) =? intp v1)%Z; [by apply IH|].
  destruct (tuple_setitem axis_impl axis _) as [ix1| | |]; try done.
  destruct (tuple_setitem axis_impl axis _) as [ix2| | |]; try done.
  by apply IH.
Qed.

Lemma shuffle_array_agree fuel s1 s2 (x : ndarray Z) axis :
  R s1 s2 ->
  (shuffle_array fuel s1 x axis).1.1 = (shuffle_array fuel s2 x axis).1.1
  ∧ R (shuffle_array fuel s1 x axis).1.2 (shuffle_array fuel s2 x axis).1.2
  ∧ (shuffle_array fuel s1 x axis).2 = (shuffle_array fuel s2 x axis).2.
Proof.
  intros Hs. unfold shuffle_array.
  cbn [NumPyRandomGeneratorType_shuffle check_types existsb isinstance negb obind orb].
  destruct (Z.of_nat (ndim x) - 1 <? axis)%Z; [done|].
  destruct (shape_getitem (shape x) axis) as [n| | |]; try done.
  pose proof (shuffle_loop_agree fuel (replicate (ndim x) slice_all) axis (n - 1)
                s1 s2 (body x) Hs) as (Ho & Ht & Hb).
  destruct (shuffle_loop fuel _ axis (n - 1) s1 (body x)) as [[o1 t1] b1].
  destruct (shuffle_loop fuel _ axis (n - 1) s2 (body x)) as [[o2 t2] b2].
  cbn [fst snd] in *. by subst.
Qed.


Lemma call_shuffle_agree fuel x axis s1 s2 (h : gmap nat (ndarray Z)) :
  R s1 s2 -> agree3 (call_shuffle fuel x axis s1 h) (call_shuffle fuel x axis s2 h).
Proof.
  intros Hs. unfold call_shuffle. destruct x as [l|v].
  - cbn [typeof_x]. destruct (h !! l) as [a|] eqn:Hl; [|done].
    pose proof (call_shuffle_unfold fuel l a axis s1 h Hl) as E1.
    pose proof (call_shuffle_unfold fuel l a axis s2 h Hl) as E2.
    unfold call_shuffle in E1, E2. cbn [typeof_x] in E1, E2. rewrite Hl in E1, E2.
    rewrite E1, E2. destruct (check_types (typeof axis) [KInteger]); try done.
    pose proof (shuffle_array_agree fuel s1 s2 a (axis_value axis) Hs) as (Ho & Ht & Hb).
    destruct (shuffle_array fuel s1 a (axis_value axis)) as [[o1 t1] a1].
    destruct (shuffle_array fuel s2 a (axis_value axis)) as [[o2 t2] a2].
    cbn [fst snd] in *. by subst.
  - unfold NumPyRandomGeneratorType_shuffle.
    destruct (check_types (typeof_x h (XVal v)) [KArray]); cbn [obind];
      try (by repeat split).
    destruct (check_types (typeof axis) [KInteger]); cbn [obind]; by repeat split.
Qed.

Lemma call_permutation_agree fuel x axis s1 s2 (h : gmap nat (ndarray Z)) :
  R s1 s2 ->
  agree3 (call_permutation fuel x axis s1 h) (call_permutation fuel x axis s2 h).
Proof.
  intros Hs. unfold call_permutation, NumPyRandomGeneratorType_permutation.
  destruct (check_types (typeof_x h x) [KArray; KInteger]); cbn [obind]; try (by repeat split).
  destruct (check_types (typeof axis) [KInteger]); cbn [obind]; try (by repeat split).
  match goal with
  | |- context [match ?e with Some _ => _ | None => _ end] =>
      destruct e as [arr0|]; [|by repeat split]
  end.
  unfold alloc.
  pose proof (call_shuffle_agree fuel (XArray (fresh (dom h))) axis s1 s2
                (<[fresh (dom h):=arr0]> h) Hs) as (Ho & Ht & Hh).
  destruct (call_shuffle fuel _ axis s1 _) as [[o1 t1] h1].
  destruct (call_shuffle fuel _ axis s2 _) as [[o2 t2] h2].
  cbn [fst snd] in *. subst o2 h2. destruct o1; by repeat split.
Qed.

Lemma run_call_agree fuel c s1 s2 (h : gmap nat (ndarray Z)) :
  R s1 s2 -> agree3 (run_call fuel c s1 h) (run_call fuel c s2 h).
Proof.
  intros Hs. destruct c as [size dtype|low high size dtype endpoint|x axis|x axis];
    cbn [run_call].
  - pose proof (call_random_agree size dtype s1 s2 Hs) as [Ho Ht].
    destruct (call_random size dtype s1), (call_random size dtype s2).
    cbn [fst snd] in *. by subst.
  - pose proof (call_integers_agree fuel low high size dtype endpoint s1 s2 Hs) as [Ho Ht].
    destruct (call_integers fuel low high size dtype endpoint s1),
             (call_integers fuel low high size dtype endpoint s2).
    cbn [fst snd] in *. by subst.
  - by apply call_shuffle_agree.
  - by apply call_permutation_agree.
Qed.

(** Two bit generators that deliver the same words lead a call
    sequence to the same outcomes, the same arrays and related final
    states. An [Undefined] outcome agrees with an [Undefined] one: this
    says nothing of what the program does there. *)
Theorem same_words_same_results fuel cs s1 s2 (h : gmap nat (ndarray Z)) :
  R s1 s2 -> agree3 (run_calls fuel cs s1 h) (run_calls fuel cs s2 h).
Proof.
  revert s1 s2 h. induction cs as [|c cs IH]; intros s1 s2 h Hs; [done|].
  cbn [run_calls].
  pose proof (run_call_agree fuel c s1 s2 h Hs) as (Ho & Ht & Hh).
  destruct (run_call fuel c s1 h) as [[o1 t1] h1].
  destruct (run_call fuel c s2 h) as [[o2 t2] h2].
  cbn [fst snd] in *. subst o2 h2.
  pose proof (IH t1 t2 h1 Ht) as (Hos & Hts & Hhs).
  destruct (run_calls fuel cs t1 h1) as [[os1 u1] k1].
  destruct (run_calls fuel cs t2 h1) as [[os2 u2] k2].
  cbn [fst snd] in *. by subst.
Qed.
End Determinism.

(** The counter kept as a natural number and the counter kept as an
    integer produce the same words. *)
Lemma counters_bisimilar :
  bisimulation (fun (n : nat) (z : Z) => z = Z.of_nat n).
Proof.
  intros n z ->. cbn. repeat split; lia.
Qed.

Lemma same_words_same_results_witness :
  agree3_on (fun (n : nat) (z : Z) => z = Z.of_nat n)
    (run_calls 8 [CallIntegers (SInt 0) (SInt 10) None (DType int64) (SBool false);
                  CallShuffle (XArray 0) (PScalar (SInt 0));
                  CallRandom (Some (PTuple [SInt 2])) (DType float64);
                  CallPermutation (XArray 0) (PScalar (SInt 0))]
       5 {[ 0 := vec4 ]})
    (run_calls 8 [CallIntegers (SInt 0) (SInt 10) None (DType int64) (SBool false);
                  CallShuffle (XArray 0) (PScalar (SInt 0));
                  CallRandom (Some (PTuple [SInt 2])) (DType float64);
                  CallPermutation (XArray 0) (PScalar (SInt 0))]
       5%Z {[ 0 := vec4 ]}).
Proof.
  apply (same_words_same_results _ counters_bisimilar). reflexivity.
Defined.

(** * Further properties of the overloads *)

Lemma dims_of_scalars_integer elts dims :
  dims_of_scalars elts = Return dims -> Forall (fun e => typeof_scalar e = Integer) elts.
Proof.
  revert dims. induction elts as [|e elts IH]; intros dims Hd; [done|].
  destruct e as [n| | |]; try done. cbn [dims_of_scalars] in Hd.
  destruct (n <? 0)%Z; [done|].
  destruct (dims_of_scalars elts) as [ds| | |]; try done.
  constructor; [done|]. by eapply IH.
Qed.

Lemma typeof_integer_tuple elts :
  Forall (fun e => typeof_scalar e = Integer) elts ->
  typeof (PTuple elts) = Tuple [] ∨ typeof (PTuple elts) = UniTuple Integer (length elts).
Proof.
  intros Hall. destruct elts as [|s elts]; [by left|right].
  apply Forall_cons in Hall as [Hs Hall]. cbn [typeof]. rewrite Hs.
  assert (forallb (fun e => bool_decide (typeof_scalar e = Integer)) elts = true) as ->; [|done].
  apply forallb_forall. intros e He%list_elem_of_In.
  apply bool_decide_eq_true. by eapply Forall_forall in Hall.
Qed.

Lemma typeof_np_integer_tuple elts d :
  from_dtype d = Integer -> Forall (fun e : np_dtype * Z => e.1 = d) elts ->
  typeof (PNpTuple elts) = Tuple [] ∨ typeof (PNpTuple elts) = UniTuple Integer (length elts).
Proof.
  intros Hd Hall. destruct elts as [|e elts]; [by left|right].
  apply Forall_cons in Hall as [He Hall]. cbn [typeof]. rewrite He, Hd.
  assert (forallb (fun e' : np_dtype * Z => bool_decide (e'.1 = d)) elts = true) as ->; [|done].
  apply forallb_forall. intros e' He'%list_elem_of_In.
  apply bool_decide_eq_true. by eapply Forall_forall in Hall.
Qed.

Lemma check_size_integer_size size : integer_size size -> check_size (typeof size) = Return tt.
Proof.
  destruct size as [s|elts|elts| |elts]; try done.
  - cbn. by intros ->.
  - intros Hall. by destruct (typeof_integer_tuple elts Hall) as [-> | ->].
  - intros (d & Hd & Hall). by destruct (typeof_np_integer_tuple elts d Hd Hall) as [-> | ->].
Qed.

Lemma check_size_not_integer_size size :
  ¬ integer_size size -> check_size (typeof size) = Raise InvalidShape.
Proof.
  destruct size as [s|elts|elts| |elts]; cbn [integer_size].
  - by destruct s.
  - intros Hn. destruct elts as [|s elts]; [by destruct Hn|].
    cbn [typeof].
    destruct (forallb _ elts) eqn:Hfa.
    + destruct (decide (typeof_scalar s = Integer)) as [Hs|Hs].
      * destruct Hn. constructor; [done|]. apply Forall_forall. intros e He.
        rewrite forallb_forall in Hfa. specialize (Hfa e).
        rewrite <- list_elem_of_In in Hfa. specialize (Hfa He).
        apply bool_decide_eq_true in Hfa. congruence.
      * by destruct (typeof_scalar s).
    + done.
  - by destruct elts.
  - done.
  - intros Hn. destruct elts as [|e elts]; [destruct Hn; by exists int64|].
    cbn [typeof].
    destruct (forallb _ elts) eqn:Hfa.
    + destruct (decide (from_dtype e.1 = Integer)) as [Hs|Hs].
      * destruct Hn. exists e.1. split; [done|]. constructor; [done|].
        apply Forall_forall. intros e' He'.
        rewrite forallb_forall in Hfa. specialize (Hfa e').
        rewrite <- list_elem_of_In in Hfa. specialize (Hfa He').
        by apply bool_decide_eq_true in Hfa.
      * by destruct (from_dtype e.1).
    + done.
Qed.



Lemma dtype_refused {K} (f g : K) dtype :
  is_float_dtype dtype = false ->
  _get_proper_func f g dtype = Raise (TypingError float_dtype_msg).
Proof. by destruct dtype as [[]|[]|[]|]. Qed.

Lemma dtype_pass {K} (f g : K) dtype :
  is_float_dtype dtype = true ->
  ∃ d, dtype_of dtype = Some d
       ∧ _get_proper_func f g dtype = Return (if bool_decide (d = float32) then f else g, d).
Proof. destruct dtype as [[]|[]|[]|]; try done; by eexists. Qed.

Lemma nprod_zero dims : 0 ∈ dims -> nprod dims = 0.
Proof.
  induction dims as [|d ds IH]; [by intros ?%elem_of_nil|].
  intros [<-|Hin]%elem_of_cons; cbn; [done|]. unfold nprod in IH. rewrite IH; [lia|done].
Qed.


Lemma integer_size_not_none size : integer_size size -> is_nonelike (typeof size) = false.
Proof.
  destruct size as [s|elts|elts| |elts]; try done.
  - intros Hall. by destruct (typeof_integer_tuple elts Hall) as [-> | ->].
  - intros (d & Hd & Hall). by destruct (typeof_np_integer_tuple elts d Hd Hall) as [-> | ->].
Qed.

Lemma negative_size_dims size :
  negative_size size ->
  integer_size size ∧ dims_of_size size = Raise (ValueError negative_dims_msg).
Proof.
  destruct size as [s|elts|elts| |elts]; try done; cbn [negative_size integer_size dims_of_size].
  - destruct s as [n| | |]; try done. intros Hn. split; [done|].
    cbn. by assert ((n <? 0)%Z = true) as -> by (apply Z.ltb_lt; lia).
  - intros (Hall & n & Hin & Hn). split; [done|].
    induction elts as [|e elts IH]; [by apply elem_of_nil in Hin|].
    apply Forall_cons in Hall as [He Hall]. destruct e as [m| | |]; try done.
    cbn [dims_of_scalars]. destruct (Z.ltb_spec m 0); [done|].
    apply elem_of_cons in Hin as [[= ->]|Hin]; [lia|].
    by rewrite (IH Hall Hin).
Qed.

Section SamplingExtras.
Context {G : Type} `{BitGenerator G}.

Lemma dist_array_path (k : G -> Z * G) size bg :
  integer_size size ->
  run_overload (NumPyRandomGeneratorType_dist k (typeof size)) (Some size) bg
  = fill (total k) size bg.
Proof.
  intros Hi. unfold NumPyRandomGeneratorType_dist.
  rewrite (integer_size_not_none size Hi), (check_size_integer_size size Hi). done.
Qed.

Lemma random_as_dist size dtype d :
  is_float_dtype dtype = true -> dtype_of dtype = Some d ->
  NumPyRandomGeneratorType_random size dtype
  = NumPyRandomGeneratorType_dist (if bool_decide (d = float32) then next_float else next_double) size.
Proof.
  intros Hf Hd. unfold NumPyRandomGeneratorType_random.
  destruct (dtype_pass (next_float (G := G)) next_double dtype Hf) as (d' & Hd' & ->).
  rewrite Hd in Hd'. injection Hd' as <-. done.
Qed.

(** X2: [random] checks [dtype] first: with a dtype that is not
    [np.float32] or [np.float64] the call raises the dtype [TypingError]
    whatever [size] is, a malformed one included, and draws nothing. *)
Theorem random_dtype_checked_first (size : option pyval) (dtype : dtype_arg) (bg : G) :
  is_float_dtype dtype = false ->
  call_random size dtype bg = (Raise (TypingError float_dtype_msg), bg).
Proof.
  intros Hd. unfold call_random, NumPyRandomGeneratorType_random.
  by rewrite (dtype_refused _ _ dtype Hd).
Qed.

(** X3: a shape with an extent 0 makes [random] return an empty array of
    that shape; the loop body never runs and the bit generator is left
    where it was. The size is one [check_size] accepts. *)
Theorem random_zero_extent_draws_nothing (size : pyval) (dims : list nat)
    (dtype : dtype_arg) (bg : G) :
  is_float_dtype dtype = true ->
  integer_size size ->
  dims_of_size size = Return dims ->
  0 ∈ dims ->
  ∃ a, call_random (Some size) dtype bg = (Return (RArray a), bg)
       ∧ shape a = dims ∧ has_shape dims (body a) ∧ elems (body a) = [].
Proof.
  intros Hf Hi Hd H0. unfold call_random. cbn [typeof_arg].
  destruct (dtype_pass (next_float (G := G)) next_double dtype Hf) as (d & Hdt & _).
  rewrite (random_as_dist _ dtype d Hf Hdt).
  rewrite dist_array_path by done.
  destruct (fill_total_shape (if bool_decide (d = float32) then next_float else next_double)
              size dims bg Hd) as (a & Hfill & Hs & Hb & He).
  rewrite (nprod_zero dims H0) in Hfill, He. cbn [draws fst snd] in Hfill, He.
  by exists a.
Qed.

(** X4: the scalar path and the array paths of [random] draw alike: the
    one sample [random()] returns is the content of the 0-dimensional
    array [random(())] and of the one-element array [random(1)], and
    the three calls leave the same generator state. *)
Theorem random_scalar_is_one_draw (dtype : dtype_arg) (bg : G) :
  is_float_dtype dtype = true ->
  ∃ v bg', call_random None dtype bg = (Return (RScalar v), bg')
           ∧ call_random (Some (PTuple [])) dtype bg
             = (Return (RArray (mk_ndarray [] (Item v))), bg')
           ∧ call_random (Some (PScalar (SInt 1))) dtype bg
             = (Return (RArray (mk_ndarray [1] (Rows [Item v]))), bg').
Proof.
  intros Hf. unfold call_random. cbn [typeof_arg].
  destruct (dtype_pass (next_float (G := G)) next_double dtype Hf) as (d & Hdt & _).
  rewrite !(random_as_dist _ dtype d Hf Hdt).
  set (k := if bool_decide (d = float32) then next_float else next_double).
  cbn. unfold total. change (Z.to_nat 1) with 1. cbn.
  destruct (k bg) as [v bg']. by exists v, bg'.
Qed.

(** X5: a negative extent passes [check_size] and is refused by the
    allocation: the call raises [ValueError], not [InvalidShape], and
    the bit generator is left where it was. *)
Theorem negative_size_fails_in_allocation (size : pyval) (dtype : dtype_arg)
    (dist_func : G -> Z * G) (bg : G) :
  is_float_dtype dtype = true ->
  negative_size size ->
  check_size (typeof size) = Return tt
  ∧ call_random (Some size) dtype bg = (Raise (ValueError negative_dims_msg), bg)
  ∧ run_overload (NumPyRandomGeneratorType_dist dist_func (typeof size)) (Some size) bg
    = (Raise (ValueError negative_dims_msg), bg).
Proof.
  intros Hf [Hi Hd]%negative_size_dims.
  split; [by apply check_size_integer_size|].
  unfold call_random. cbn [typeof_arg].
  destruct (dtype_pass (next_float (G := G)) next_double dtype Hf) as (d & Hdt & _).
  rewrite (random_as_dist _ dtype d Hf Hdt), !dist_array_path by done.
  unfold fill. by rewrite Hd.
Qed.

(** X6: the fill loop writes every cell of the array it is given:
    whatever [np.empty] left in [out], the result holds the successive
    samples in row-major order and nothing of the old contents. *)
Theorem fill_overwrites_every_cell (dist_func : G -> Z * G) (dims : list nat)
    (junk : Z) (bg : G) :
  ∃ b, fill_loop (total dist_func) (ndindex dims) bg (body (np_empty junk dims))
       = (Return b, (draws dist_func (nprod dims) bg).2)
       ∧ has_shape dims b
       ∧ elems b = (draws dist_func (nprod dims) bg).1.
Proof.
  destruct (fill_loop_elems dist_func dims (ndindex dims) bg (full dims junk))
    as (b & Hfill & Hb & He).
  { apply has_shape_full. }
  { apply Forall_forall. intros c. apply ndindex_in_range. }
  assert (length (ndindex dims) = nprod dims) as Hlen.
  { rewrite <- (length_fmap (ravel dims)), ravel_ndindex. apply length_seq. }
  rewrite Hlen in Hfill, He. exists b. split; [done|]. split; [done|].
  rewrite He, ravel_ndindex.
  pose proof (draws_length dist_func (nprod dims) bg) as Hdl.
  rewrite <- Hdl at 1.
  rewrite (fold_insert_seq _ [] (elems (full dims junk)) 0); [done|done|].
  rewrite Hdl. apply elems_length, has_shape_full.
Qed.
End SamplingExtras.

Lemma typeof_not_array v : isinstance (typeof v) KArray = false.
Proof.
  destruct v as [[]|[|s elts]|[|s elts]| |[|e elts]]; try done;
    cbn [typeof]; by destruct (forallb _ _).
Qed.

Lemma isinstance_integer t : isinstance t KInteger = true -> t = Scalar Integer.
Proof. by destruct t as [[]| | | | | |]. Qed.

Lemma check_types_axis t :
  t ≠ Scalar Integer -> check_types t [KInteger] = Raise (TypingError check_types_msg).
Proof.
  intros Ht. unfold check_types. cbn [existsb].
  destruct (isinstance t KInteger) eqn:Hi; [|done].
  by apply isinstance_integer in Hi.
Qed.

Lemma np_arange_wf n : (n < 2 ^ 63)%Z -> wf (np_arange n) ∧ fits_intp (np_arange n).
Proof.
  intros Hn. split.
  - unfold wf, np_arange. cbn [shape body has_shape]. split.
    + by rewrite length_fmap, length_seq.
    + apply Forall_fmap, Forall_forall. by intros k _.
  - unfold fits_intp, np_arange. cbn [shape]. constructor; [|done]. lia.
Qed.

Section ShuffleExtras.
Context {G : Type} `{BitGenerator G}.

Lemma shuffle_array_too_large fuel (bg : G) (x : ndarray Z) (axis : Z) :
  (Z.of_nat (ndim x) <= axis)%Z ->
  shuffle_array fuel bg x axis = (Raise AxisOutOfRange, bg, x).
Proof.
  intros Haxis. unfold shuffle_array. cbn [NumPyRandomGeneratorType_shuffle check_types existsb
    isinstance negb obind orb].
  destruct (Z.ltb_spec (Z.of_nat (ndim x) - 1) axis); [done|lia].
Qed.

(** X7: along an axis of extent 0 or 1 the loop [range(n - 1, 0, -1)] is
    empty: [shuffle] returns without a draw and leaves the array, the
    bit generator and the store as they were. *)
Theorem shuffle_short_axis_is_noop fuel (bg : G) (x : ndarray Z) (axis n : nat) l
    (h : gmap nat (ndarray Z)) :
  shape x !! axis = Some n -> n <= 1 -> h !! l = Some x ->
  shuffle_array fuel bg x (Z.of_nat axis) = (Return tt, bg, x)
  ∧ call_shuffle fuel (XArray l) (PScalar (SInt (Z.of_nat axis))) bg h
    = (Return RNone, bg, h).
Proof.
  intros Hn Hle Hl. pose proof (lookup_lt_Some _ _ _ Hn) as Haxis.
  assert (shuffle_array fuel bg x (Z.of_nat axis) = (Return tt, bg, x)) as Hs.
  { unfold shuffle_array. cbn [NumPyRandomGeneratorType_shuffle check_types existsb
      isinstance negb obind orb].
    assert ((Z.of_nat (ndim x) - 1 <? Z.of_nat axis)%Z = false) as ->
      by (apply Z.ltb_ge; unfold ndim; lia).
    unfold shape_getitem.
    assert ((Z.of_nat axis <? 0)%Z = false) as Hlt0 by (apply Z.ltb_ge; lia).
    cbv zeta. rewrite Hlt0. cbv iota. rewrite Hlt0, Nat2Z.id, Hn.
    replace (n - 1) with 0 by lia. cbn [shuffle_loop]. by destruct x. }
  split; [done|].
  rewrite (call_shuffle_array fuel l x (Z.of_nat axis) bg h Hl), Hs.
  cbn [obind]. by rewrite insert_id.
Qed.

(** X8: [shuffle] is refused at typing when [x] is not an array or
    [axis] is not an integer (a boolean included): the call raises a
    [TypingError] and touches neither the bit generator nor the store. *)
Theorem shuffle_rejects_ill_typed fuel (x : xarg) (axis : pyval) (bg : G)
    (h : gmap nat (ndarray Z)) :
  (∃ v, x = XVal v) ∨ typeof axis ≠ Scalar Integer ->
  call_shuffle fuel x axis bg h = (Raise (TypingError check_types_msg), bg, h).
Proof.
  intros Hbad. unfold call_shuffle, NumPyRandomGeneratorType_shuffle.
  destruct (check_types (typeof_x h x) [KArray]) as [u| | |] eqn:Hx; cbn [obind].
  - destruct Hbad as [[v ->]|Hax].
    + cbn [typeof_x] in Hx. unfold check_types in Hx. cbn [existsb] in Hx.
      by rewrite typeof_not_array in Hx.
    + by rewrite (check_types_axis _ Hax).
  - unfold check_types in Hx. destruct (negb _) in Hx; [|done].
    injection Hx as <-. by destruct x.
  - unfold check_types in Hx. by destruct (negb _) in Hx.
  - unfold check_types in Hx. by destruct (negb _) in Hx.
Qed.

Lemma call_permutation_valid fuel (x : xarg) (axis n : nat) (bg : G)
    (h : gmap nat (ndarray Z)) (a0 : ndarray Z) :
  permutation_source h x = Some a0 -> wf a0 -> fits_intp a0 ->
  shape a0 !! axis = Some n ->
  call_permutation fuel x (PScalar (SInt (Z.of_nat axis))) bg h
  = let '(js, bg', ok) := shuffle_trace fuel (n - 1) bg in
    (if ok then Return (RRef (fresh (dom h))) else OutOfFuel, bg',
     <[fresh (dom h) := mk_ndarray (shape a0) (apply_swaps axis js (body a0))]> h).
Proof.
  intros Hsrc Hwf Hfit Hn.
  unfold call_permutation, NumPyRandomGeneratorType_permutation.
  assert (check_types (typeof_x h x) [KArray; KInteger] = Return tt
          ∧ (if isinstance (typeof_x h x) KInteger
             then fun (h : gmap nat (ndarray Z)) x =>
                    match x with
                    | XVal (PScalar s) => Some (np_arange (int_of_scalar s))
                    | _ => None
                    end
             else fun h x =>
                    match x with
                    | XArray l => ndarray_copy <$> h !! l
                    | _ => None
                    end) h x = Some a0) as [-> Hmk].
  { destruct x as [l|v]; cbn [typeof_x permutation_source] in *.
    - rewrite Hsrc. split; [done|]. cbn [isinstance]. rewrite Hsrc.
      cbn [fmap option_fmap option_map]. by rewrite ndarray_copy_id.
    - by destruct v as [[z| | |]|?|?| |?]. }
  cbn [obind typeof typeof_scalar check_types existsb isinstance negb orb].
  rewrite Hmk. unfold alloc. set (l := fresh (dom h)).
  rewrite (call_shuffle_array fuel l a0 (Z.of_nat axis) bg (<[l:=a0]> h))
    by apply lookup_insert_eq.
  rewrite (shuffle_array_valid fuel bg a0 axis n Hwf Hfit Hn).
  destruct (shuffle_trace fuel (n - 1) bg) as [[js bg'] ok].
  rewrite insert_insert_eq. by destruct ok.
Qed.

(** X10: [permutation(n)] puts at a fresh location an array of shape
    [(n,)] whose elements are a permutation of [0, ..., n - 1]; it
    returns that location unless a rejection loop ran out of fuel, and
    leaves the bit generator where the [n - 1] draws of the shuffle
    leave it. *)
Theorem permutation_of_integer fuel (n : Z) (bg : G) (h : gmap nat (ndarray Z)) :
  (n < 2 ^ 63)%Z ->
  ∃ a, call_permutation fuel (XVal (PScalar (SInt n))) (PScalar (SInt 0)) bg h
       = (if (shuffle_trace fuel (Z.to_nat n - 1) bg).2
          then Return (RRef (fresh (dom h))) else OutOfFuel,
          (shuffle_trace fuel (Z.to_nat n - 1) bg).1.2,
          <[fresh (dom h) := a]> h)
     ∧ shape a = [Z.to_nat n]
     ∧ elems (body a) ≡ₚ Z.of_nat <$> seq 0 (Z.to_nat n).
Proof.
  intros Hn. destruct (np_arange_wf n Hn) as [Hwf Hfit].
  pose proof (call_permutation_valid fuel (XVal (PScalar (SInt n))) 0 (Z.to_nat n) bg h
                (np_arange n) eq_refl Hwf Hfit eq_refl) as Hcall.
  change (Z.of_nat 0) with 0%Z in Hcall. rewrite Hcall.
  pose proof (shuffle_trace_range fuel (Z.to_nat n - 1) bg) as Hrange.
  destruct (shuffle_trace fuel (Z.to_nat n - 1) bg) as [[js bg'] ok]. cbn [fst snd] in *.
  eexists. split; [done|]. cbn [shape]. split; [done|].
  destruct (apply_swaps_spec [Z.to_nat n] 0 (Z.to_nat n) js (body (np_arange n)))
    as (_ & Hperm & _); [apply Hwf|done| |].
  { eapply Forall_impl; [exact Hrange|]. intros [i j] [? ?]. cbn [fst snd] in *.
    split; [done|lia]. }
  cbn [body]. rewrite Hperm. by rewrite (proj2 (np_arange_elems n)).
Qed.

(** X11: [permutation(x, axis)] on an array puts at a fresh location an
    array of the shape of [x] with the same elements as a multiset,
    moved along [axis] only by one permutation of the positions; it
    draws as the shuffle of [x] along [axis] does. *)
Theorem permutation_of_array fuel l (x : ndarray Z) (axis n : nat) (bg : G)
    (h : gmap nat (ndarray Z)) :
  h !! l = Some x -> wf x -> fits_intp x -> shape x !! axis = Some n ->
  ∃ a, call_permutation fuel (XArray l) (PScalar (SInt (Z.of_nat axis))) bg h
       = (if (shuffle_trace fuel (n - 1) bg).2
          then Return (RRef (fresh (dom h))) else OutOfFuel,
          (shuffle_trace fuel (n - 1) bg).1.2,
          <[fresh (dom h) := a]> h)
     ∧ shape a = shape x ∧ wf a
     ∧ elems (body a) ≡ₚ elems (body x)
     ∧ ∃ f, f <$> seq 0 n ≡ₚ seq 0 n ∧ moved_along axis f (body x) (body a).
Proof.
  intros Hl Hwf Hfit Hn.
  rewrite (call_permutation_valid fuel (XArray l) axis n bg h x Hl Hwf Hfit Hn).
  pose proof (shuffle_trace_range fuel (n - 1) bg) as Hrange.
  destruct (shuffle_trace fuel (n - 1) bg) as [[js bg'] ok]. cbn [fst snd] in *.
  eexists. split; [done|]. cbn [shape body]. split; [done|].
  destruct (apply_swaps_spec (shape x) axis n js (body x)) as (Hsh & Hperm & Hmoved);
    [apply Hwf|done| |done].
  eapply Forall_impl; [exact Hrange|]. intros [i j] [? ?]. cbn [fst snd] in *.
  split; [done|lia].
Qed.

(** X12: [permutation] inherits the axis check of [shuffle]: an axis
    beyond the last one of the array built from the argument raises
    [AxisOutOfRange] before any draw. *)
Theorem permutation_axis_too_large fuel (x : xarg) (a0 : ndarray Z) (axis : Z) (bg : G)
    (h : gmap nat (ndarray Z)) :
  permutation_source h x = Some a0 ->
  (Z.of_nat (ndim a0) <= axis)%Z ->
  (call_permutation fuel x (PScalar (SInt axis)) bg h).1 = (Raise AxisOutOfRange, bg).
Proof.
  intros Hsrc Haxis.
  unfold call_permutation, NumPyRandomGeneratorType_permutation.
  assert (check_types (typeof_x h x) [KArray; KInteger] = Return tt
          ∧ (if isinstance (typeof_x h x) KInteger
             then fun (h : gmap nat (ndarray Z)) x =>
                    match x with
                    | XVal (PScalar s) => Some (np_arange (int_of_scalar s))
                    | _ => None
                    end
             else fun h x =>
                    match x with
                    | XArray l => ndarray_copy <$> h !! l
                    | _ => None
                    end) h x = Some a0) as [-> Hmk].
  { destruct x as [l|v]; cbn [typeof_x permutation_source] in *.
    - rewrite Hsrc. split; [done|]. cbn [isinstance]. rewrite Hsrc.
      cbn [fmap option_fmap option_map]. by rewrite ndarray_copy_id.
    - by destruct v as [[z| | |]|?|?| |?]. }
  cbn [obind typeof typeof_scalar check_types existsb isinstance negb orb].
  rewrite Hmk. unfold alloc. set (l := fresh (dom h)).
  rewrite (call_shuffle_array fuel l a0 axis bg (<[l:=a0]> h)) by apply lookup_insert_eq.
  by rewrite (shuffle_array_too_large fuel bg a0 axis Haxis).
Qed.

(** X13: [permutation] is refused at typing when [x] is a value that is
    not an integer: the call raises a [TypingError], draws nothing and
    allocates nothing. *)
Theorem permutation_rejects_ill_typed fuel (v : pyval) (axis : pyval) (bg : G)
    (h : gmap nat (ndarray Z)) :
  typeof v ≠ Scalar Integer ->
  call_permutation fuel (XVal v) axis bg h = (Raise (TypingError check_types_msg), bg, h).
Proof.
  intros Hv. unfold call_permutation, NumPyRandomGeneratorType_permutation.
  cbn [typeof_x]. unfold check_types at 1. cbn [existsb].
  rewrite typeof_not_array. destruct (isinstance (typeof v) KInteger) eqn:Hi.
  - by apply isinstance_integer in Hi.
  - done.
Qed.
End ShuffleExtras.

Section IntegersExtras.
Context {G : Type} `{BitGenerator G}.

Lemma integers_ill_typed fuel (low high : scalar) (size : option pyval)
    (dtype : dtype_arg) (endpoint : scalar) (bg : G) :
  int_or_bool low && int_or_bool high
    && bool_decide (typeof_scalar endpoint = Boolean) = false ->
  call_integers fuel low high size dtype endpoint bg
  = (Raise (TypingError check_types_msg), bg).
Proof.
  unfold int_or_bool, call_integers, NumPyRandomGeneratorType_integers.
  destruct (typeof_scalar low), (typeof_scalar high), (typeof_scalar endpoint); done.
Qed.

Lemma integers_bad_dtype fuel (low high : scalar)
    (size : option pyval) (dtype : dtype_arg) (endpoint : scalar) (bg : G) :
  int_or_bool low = true -> int_or_bool high = true ->
  typeof_scalar endpoint = Boolean ->
  is_int_dtype dtype = false ->
  call_integers fuel low high size dtype endpoint bg
  = (Raise (TypingError int_dtype_msg), bg).
Proof.
  unfold int_or_bool, call_integers, NumPyRandomGeneratorType_integers.
  intros Hl Hh -> Hd.
  destruct (typeof_scalar low), (typeof_scalar high); try done;
    by destruct dtype as [[]|[]|[]|].
Qed.

(** X14: [integers] is refused at typing when [low] or [high] is neither
    an integer nor a boolean, or [endpoint] is not a boolean (an integer
    flag included), whatever [dtype] and [size] are; nothing is drawn. *)
Theorem integers_rejects_ill_typed fuel (low high : scalar) (size : option pyval)
    (dtype : dtype_arg) (endpoint : scalar) (bg : G) :
  int_or_bool low && int_or_bool high
    && bool_decide (typeof_scalar endpoint = Boolean) = false ->
  call_integers fuel low high size dtype endpoint bg
  = (Raise (TypingError check_types_msg), bg).
Proof. apply integers_ill_typed. Qed.

(** X15: with well-typed bounds and flag, a [dtype] that is neither
    [np.bool_] nor an integer dtype makes [integers] raise the dtype
    [TypingError] whatever [size] and the range are; nothing is drawn. *)
Theorem integers_dtype_checked_before_size fuel (low high : scalar)
    (size : option pyval) (dtype : dtype_arg) (endpoint : scalar) (bg : G) :
  int_or_bool low = true -> int_or_bool high = true ->
  typeof_scalar endpoint = Boolean ->
  is_int_dtype dtype = false ->
  call_integers fuel low high size dtype endpoint bg
  = (Raise (TypingError int_dtype_msg), bg).
Proof. apply integers_bad_dtype. Qed.

Lemma integers_typed fuel (low high : scalar) (size : option pyval)
    (dtype : dtype_arg) (endpoint : scalar) (bg : G) d lb ub :
  int_or_bool low = true -> int_or_bool high = true ->
  typeof_scalar endpoint = Boolean ->
  dtype_of dtype = Some d -> int_bounds d = Some (lb, ub) ->
  call_integers fuel low high size dtype endpoint bg
  = if is_nonelike (typeof_arg size) then
      match _randint_arg_check (int_of_scalar low) (int_of_scalar high)
              (negb (int_of_scalar endpoint =? 0)%Z) lb ub with
      | Return _ =>
          first (random_bounded_fill fuel bg (cast d (int_of_scalar low))
                   (sub_dtype d
                      (cast d (if negb (int_of_scalar endpoint =? 0)%Z
                               then int_of_scalar high
                               else sub_int64 (int_of_scalar high) (cast d 1)))
                      (cast d (int_of_scalar low)))
                   (PScalar (SInt 1)) d)
      | Raise e => (Raise e, bg)
      | OutOfFuel => (OutOfFuel, bg)
      | Undefined => (Undefined, bg)
      end
    else
      match check_size (typeof_arg size) with
      | Return _ =>
          match _randint_arg_check (int_of_scalar low) (int_of_scalar high)
                  (negb (int_of_scalar endpoint =? 0)%Z) lb ub with
          | Return _ =>
              match size with
              | None => (Undefined, bg)
              | Some size =>
                  random_bounded_fill fuel bg (cast d (int_of_scalar low))
                    (sub_dtype d
                       (cast d (if negb (int_of_scalar endpoint =? 0)%Z
                                then int_of_scalar high
                                else sub_int64 (int_of_scalar high) (cast d 1)))
                       (cast d (int_of_scalar low))) size d
              end
          | Raise e => (Raise e, bg)
          | OutOfFuel => (OutOfFuel, bg)
          | Undefined => (Undefined, bg)
          end
      | Raise e => (Raise e, bg)
      | OutOfFuel => (OutOfFuel, bg)
      | Undefined => (Undefined, bg)
      end.
Proof.
  unfold int_or_bool, call_integers, NumPyRandomGeneratorType_integers.
  intros Hl Hh -> Hd Hb.
  assert (check_types (Scalar (typeof_scalar low)) [KInteger; KBoolean] = Return tt) as ->
    by by destruct (typeof_scalar low).
  assert (check_types (Scalar (typeof_scalar high)) [KInteger; KBoolean] = Return tt) as ->
    by by destruct (typeof_scalar high).
  cbn [obind check_types existsb isinstance negb orb].
  assert (match match dtype with DOmitted v => DType v | _ => dtype end with
          | DType d | DNumberClass d => Return d
          | _ => Raise (TypingError int_dtype_msg)
          end = Return d) as ->
    by (destruct dtype; cbn in Hd; congruence).
  cbn [obind]. unfold int_bounds in Hb.
  destruct (bool_decide (d = bool_)) eqn:Hbool.
  - injection Hb as <- <-. cbn [obind].
    destruct (is_nonelike (typeof_arg size)).
    + destruct (_randint_arg_check _ _ _ _ _); try done.
      by destruct (negb (int_of_scalar endpoint =? 0)%Z).
    + destruct (check_size (typeof_arg size)); try done. cbn [obind].
      destruct (_randint_arg_check _ _ _ _ _); try done.
      destruct size; [|done].
      by destruct (negb (int_of_scalar endpoint =? 0)%Z).
  - destruct (iinfo d) as [[[bits mn] mx]|]; [|done].
    injection Hb as <- <-. cbn [obind].
    destruct (is_nonelike (typeof_arg size)).
    + destruct (_randint_arg_check _ _ _ _ _); try done.
      by destruct (negb (int_of_scalar endpoint =? 0)%Z).
    + destruct (check_size (typeof_arg size)); try done. cbn [obind].
      destruct (_randint_arg_check _ _ _ _ _); try done.
      destruct size; [|done].
      by destruct (negb (int_of_scalar endpoint =? 0)%Z).
Qed.

(** X16: the type of [size] is checked when [integers] is typed, before
    the range is looked at: a [size] that is not an integer or a tuple
    of integers raises [InvalidShape] whatever [low] and [high] are. *)
Theorem integers_size_checked_before_range fuel (low high : scalar) (size : pyval)
    (dtype : dtype_arg) (endpoint : scalar) (bg : G) :
  int_or_bool low = true -> int_or_bool high = true ->
  typeof_scalar endpoint = Boolean ->
  is_int_dtype dtype = true ->
  size ≠ PNone ->
  ¬ integer_size size ->
  call_integers fuel low high (Some size) dtype endpoint bg = (Raise InvalidShape, bg).
Proof.
  intros Hl Hh He Hd Hnone Hsize. unfold is_int_dtype in Hd.
  destruct (dtype_of dtype) as [d|] eqn:Hdt; [|done]. cbn in Hd.
  destruct (int_bounds d) as [[lb ub]|] eqn:Hb; [|done].
  rewrite (integers_typed fuel low high (Some size) dtype endpoint bg d lb ub) by done.
  cbn [typeof_arg]. rewrite (check_size_not_integer_size size Hsize).
  destruct size as [s|[|s elts]|[|s elts]| |[|e elts]]; try done;
    cbn [typeof]; by destruct (forallb _ elts).
Qed.

(** X17: at run time [integers] checks the range first: when
    [_randint_arg_check] raises, the call raises the same exception
    before any allocation or draw, a negative [size] included. *)
Theorem integers_range_checked_before_allocation fuel (low high : scalar)
    (size : option pyval) (d : np_dtype) (endpoint : bool) (bg : G) lb ub e :
  int_or_bool low = true -> int_or_bool high = true ->
  int_bounds d = Some (lb, ub) ->
  size_ok size ->
  _randint_arg_check (int_of_scalar low) (int_of_scalar high) endpoint lb ub = Raise e ->
  call_integers fuel low high size (DType d) (SBool endpoint) bg = (Raise e, bg).
Proof.
  intros Hl Hh Hb Hsize Hcheck.
  rewrite (integers_typed fuel low high size (DType d) (SBool endpoint) bg d lb ub) by done.
  assert (negb (int_of_scalar (SBool endpoint) =? 0)%Z = endpoint) as -> by by destruct endpoint.
  rewrite Hcheck. destruct size as [size|]; cbn [typeof_arg size_ok] in *.
  - rewrite (check_size_integer_size size Hsize). by destruct (is_nonelike _).
  - done.
Qed.
End IntegersExtras.

Section StandardExponentialExtras.
Context {G : Type} `{BitGenerator G}.
Context (inv_f inv zig_f zig : G -> Z * G).

Local Abbreviation call_se := (call_standard_exponential inv_f inv zig_f zig).

Lemma loop_return_fill (k : G -> Z * G) size dims (bg : G) :
  dims_of_size size = Return dims ->
  loop_return k (np_empty 0%Z dims) bg = fill (total k) size bg.
Proof. intros Hd. unfold fill, loop_return. by rewrite Hd. Qed.

Lemma standard_exponential_scalar dtype d method (bg : G) :
  is_float_dtype dtype = true -> dtype_of dtype = Some d ->
  call_se None dtype method bg
  = if bool_decide (method = "zig") then
      let '(v, bg') := (if bool_decide (d = float32) then zig_f else zig) bg in
      (Return (RScalar v), bg')
    else if bool_decide (method = "inv") then
      let '(v, bg') := (if bool_decide (d = float32) then inv_f else inv) bg in
      (Return (RScalar v), bg')
    else (Raise (ValueError method_msg), bg).
Proof.
  intros Hf Hd. unfold call_standard_exponential, NumPyRandomGeneratorType_standard_exponential.
  cbn [check_types existsb isinstance negb obind orb typeof_arg is_nonelike].
  destruct (dtype_pass inv_f inv dtype Hf) as (d1 & Hd1 & ->).
  destruct (dtype_pass zig_f zig dtype Hf) as (d2 & Hd2 & ->).
  rewrite Hd in Hd1, Hd2. injection Hd1 as <-. injection Hd2 as <-. done.
Qed.

Lemma standard_exponential_array dtype d size method (bg : G) :
  is_float_dtype dtype = true -> dtype_of dtype = Some d ->
  integer_size size ->
  call_se (Some size) dtype method bg
  = match dims_of_size size with
    | Return dims =>
        if bool_decide (method = "zig") then
          loop_return (if bool_decide (d = float32) then zig_f else zig) (np_empty 0%Z dims) bg
        else if bool_decide (method = "inv") then
          loop_return (if bool_decide (d = float32) then inv_f else inv) (np_empty 0%Z dims) bg
        else (Raise (ValueError method_msg), bg)
    | Raise e => (Raise e, bg)
    | OutOfFuel => (OutOfFuel, bg)
    | Undefined => (Undefined, bg)
    end.
Proof.
  intros Hf Hd Hi. unfold call_standard_exponential, NumPyRandomGeneratorType_standard_exponential.
  cbn [check_types existsb isinstance negb obind orb typeof_arg].
  destruct (dtype_pass inv_f inv dtype Hf) as (d1 & Hd1 & ->).
  destruct (dtype_pass zig_f zig dtype Hf) as (d2 & Hd2 & ->).
  rewrite Hd in Hd1, Hd2. injection Hd1 as <-. injection Hd2 as <-.
  cbn [obind]. rewrite (integer_size_not_none size Hi), (check_size_integer_size size Hi).
  done.
Qed.

Lemma standard_exponential_as_dist dtype d method (k : G -> Z * G) size (bg : G) :
  is_float_dtype dtype = true -> dtype_of dtype = Some d ->
  (method = "zig" ∧ k = (if bool_decide (d = float32) then zig_f else zig))
  ∨ (method = "inv" ∧ k = (if bool_decide (d = float32) then inv_f else inv)) ->
  call_se size dtype method bg
  = run_overload (NumPyRandomGeneratorType_dist k (typeof_arg size)) size bg.
Proof.
  intros Hf Hd Hm.
  unfold call_standard_exponential, NumPyRandomGeneratorType_standard_exponential,
    NumPyRandomGeneratorType_dist.
  cbn [check_types existsb isinstance negb obind orb].
  destruct (dtype_pass inv_f inv dtype Hf) as (d1 & Hd1 & ->).
  destruct (dtype_pass zig_f zig dtype Hf) as (d2 & Hd2 & ->).
  rewrite Hd in Hd1, Hd2. injection Hd1 as <-. injection Hd2 as <-.
  cbn [obind].
  assert (∀ (X : Type) (a b c : X),
            (if bool_decide (method = "zig") then a
             else if bool_decide (method = "inv") then b else c)
            = (if bool_decide (method = "zig") then a else b)) as Hsel.
  { intros X a b c. destruct Hm as [[-> _]|[-> _]]; by vm_compute. }
  destruct (is_nonelike (typeof_arg size)).
  - cbn [run_overload]. rewrite Hsel.
    destruct Hm as [[-> ->]|[-> ->]]; by vm_compute bool_decide.
  - destruct (check_size (typeof_arg size)); try done. cbn [obind run_overload].
    destruct size as [size|]; [|done]. unfold fill, loop_return.
    destruct (dims_of_size size) as [dims| | |]; try done.
    rewrite Hsel. cbn [shape body np_empty].
    destruct Hm as [[-> ->]|[-> ->]]; by vm_compute bool_decide.
Qed.

(** X18: with a valid [method] and [dtype], [standard_exponential] is
    the plain sampling template on one of its four kernels: ['zig']
    and ['inv'] select the family, [np.float32] and [np.float64] the
    kernel of the family, for every [size]. *)
Theorem standard_exponential_selects_kernel (size : option pyval) (bg : G) :
  call_se size (DType float32) "zig" bg
  = run_overload (NumPyRandomGeneratorType_dist zig_f (typeof_arg size)) size bg
  ∧ call_se size (DType float64) "zig" bg
    = run_overload (NumPyRandomGeneratorType_dist zig (typeof_arg size)) size bg
  ∧ call_se size (DType float32) "inv" bg
    = run_overload (NumPyRandomGeneratorType_dist inv_f (typeof_arg size)) size bg
  ∧ call_se size (DType float64) "inv" bg
    = run_overload (NumPyRandomGeneratorType_dist inv (typeof_arg size)) size bg.
Proof.
  repeat split.
  - apply (standard_exponential_as_dist _ float32); [done|done|by left].
  - apply (standard_exponential_as_dist _ float64); [done|done|by left].
  - apply (standard_exponential_as_dist _ float32); [done|done|by right].
  - apply (standard_exponential_as_dist _ float64); [done|done|by right].
Qed.

(** X19: a [method] other than ['zig'] and ['inv'] makes
    [standard_exponential] raise [ValueError] without a draw, on the
    scalar path and on the array path (for a size [check_size]
    accepts); on the array path the test comes after the allocation, so
    a negative extent is reported first. *)
Theorem standard_exponential_unknown_method (dtype : dtype_arg) (method : string) (bg : G) :
  method ≠ "zig" -> method ≠ "inv" ->
  is_float_dtype dtype = true ->
  call_se None dtype method bg = (Raise (ValueError method_msg), bg)
  ∧ (∀ size dims, integer_size size -> dims_of_size size = Return dims ->
       call_se (Some size) dtype method bg = (Raise (ValueError method_msg), bg))
  ∧ (∀ size, negative_size size ->
       call_se (Some size) dtype method bg = (Raise (ValueError negative_dims_msg), bg)).
Proof.
  intros Hz Hi Hf. destruct (dtype_pass inv_f inv dtype Hf) as (d & Hd & _).
  split; [|split].
  - rewrite (standard_exponential_scalar dtype d method bg Hf Hd).
    by rewrite !bool_decide_eq_false_2.
  - intros size dims Hint Hdims.
    rewrite (standard_exponential_array dtype d size method bg Hf Hd Hint).
    rewrite Hdims. by rewrite !bool_decide_eq_false_2.
  - intros size [Hint Hdims]%negative_size_dims.
    rewrite (standard_exponential_array dtype d size method bg Hf Hd Hint).
    by rewrite Hdims.
Qed.

(** X20: [standard_exponential] checks the types of [dtype] and [size]
    when it is typed, before [method] is compared at run time: a dtype
    that is not a float dtype, or else a [size] that is not an integer
    or a tuple of integers, raises its [TypingError] whatever [method]
    is. *)
Theorem standard_exponential_typing_first (size : option pyval) (dtype : dtype_arg)
    (method : string) (bg : G) :
  is_float_dtype dtype = false
  ∨ (∃ s, size = Some s ∧ s ≠ PNone ∧ ¬ integer_size s) ->
  call_se size dtype method bg
  = (Raise (TypingError (if is_float_dtype dtype then size_msg else float_dtype_msg)), bg).
Proof.
  intros Hbad.
  unfold call_standard_exponential, NumPyRandomGeneratorType_standard_exponential.
  cbn [check_types existsb isinstance negb obind orb].
  destruct (is_float_dtype dtype) eqn:Hf.
  - destruct Hbad as [|(s & -> & Hnone & Hs)]; [done|].
    destruct (dtype_pass inv_f inv dtype Hf) as (d1 & Hd1 & ->).
    destruct (dtype_pass zig_f zig dtype Hf) as (d2 & Hd2 & ->).
    cbn [obind typeof_arg]. rewrite (check_size_not_integer_size s Hs).
    destruct s as [s|[|s elts]|[|s elts]| |[|e elts]]; try done;
      cbn [typeof]; by destruct (forallb _ elts).
  - by rewrite (dtype_refused inv_f inv dtype Hf).
Qed.
End StandardExponentialExtras.

Section StandardGammaExtras.
Context {G : Type} `{BitGenerator G}.
Context (gamma_f gamma : G -> scalar -> Z * G).

(** X21: [standard_gamma] checks the type of its parameter first: a
    [shape] that is neither a float nor an integer raises a
    [TypingError] whatever [dtype] and [size] are; nothing is drawn. *)
Theorem standard_gamma_parameter_checked_first (shape_param : scalar)
    (size : option pyval) (dtype : dtype_arg) (bg : G) :
  float_or_int shape_param = false ->
  call_standard_gamma gamma_f gamma shape_param size dtype bg
  = (Raise (TypingError check_types_msg), bg).
Proof.
  unfold float_or_int, call_standard_gamma, NumPyRandomGeneratorType_standard_gamma.
  by destruct (typeof_scalar shape_param).
Qed.

(** X22: every element of the array [standard_gamma] returns is drawn
    with the same [shape] parameter by the kernel [dtype] selects: the
    array has the requested shape and holds the successive samples in
    row-major order, and the bit generator has advanced by one sample
    per cell. The size is one [check_size] accepts. *)
Theorem standard_gamma_fills_with_one_parameter (shape_param : scalar) (size : pyval)
    (dims : list nat) (dtype : dtype_arg) (d : np_dtype) (bg : G) :
  float_or_int shape_param = true ->
  is_float_dtype dtype = true -> dtype_of dtype = Some d ->
  integer_size size ->
  dims_of_size size = Return dims ->
  let k := fun bg => (if bool_decide (d = float32) then gamma_f else gamma) bg shape_param in
  ∃ a, call_standard_gamma gamma_f gamma shape_param (Some size) dtype bg
       = (Return (RArray a), (draws k (nprod dims) bg).2)
     ∧ shape a = dims ∧ has_shape dims (body a)
     ∧ elems (body a) = (draws k (nprod dims) bg).1.
Proof.
  intros Hs Hf Hd Hi Hdims k.
  unfold float_or_int in Hs.
  unfold call_standard_gamma, NumPyRandomGeneratorType_standard_gamma.
  assert (check_types (Scalar (typeof_scalar shape_param)) [KFloat; KInteger] = Return tt)
    as -> by by destruct (typeof_scalar shape_param).
  destruct (dtype_pass gamma_f gamma dtype Hf) as (d1 & Hd1 & ->).
  rewrite Hd in Hd1. injection Hd1 as <-. cbn [obind typeof_arg].
  rewrite (integer_size_not_none size Hi), (check_size_integer_size size Hi).
  cbn [obind]. apply (fill_total_shape k size dims bg Hdims).
Qed.
End StandardGammaExtras.

Section ExceptionExtras.
Context {G : Type} `{BitGenerator G}.

Lemma fill_loop_not_raise (k : G -> option (Z * G)) idx bg out e :
  (fill_loop k idx bg out).1 ≠ Raise e.
Proof.
  revert bg out. induction idx as [|i idx IH]; intros bg out; [done|].
  cbn [fill_loop]. destruct (k bg) as [[v bg']|]; [apply IH|done].
Qed.

Lemma fill_raise (k : G -> option (Z * G)) size bg e :
  (fill k size bg).1 = Raise e -> (fill k size bg).2 = bg.
Proof.
  unfold fill. destruct (dims_of_size size) as [dims| | |]; try done.
  pose proof (fill_loop_not_raise k (ndindex dims) bg (body (np_empty 0%Z dims)) e) as Hn.
  destruct (fill_loop k _ bg _) as [[b| | |] bg']; cbn [fst snd] in *; try done.
  intros [= ->]. by destruct Hn.
Qed.

Lemma first_fill_one_raise (k : G -> option (Z * G)) bg e :
  (first (fill k (PScalar (SInt 1)) bg)).1 = Raise e ->
  (first (fill k (PScalar (SInt 1)) bg)).2 = bg.
Proof.
  unfold fill. cbn [dims_of_size dims_of_scalars]. change (1 <? 0)%Z with false.
  cbn [dims_of_scalars obind]. change (Z.to_nat 1) with 1.
  cbn. by destruct (k bg) as [[v bg']|].
Qed.

Lemma shuffle_loop_not_raise fuel axis_impl axis i (bg : G) (x : nest Z) e :
  (shuffle_loop fuel axis_impl axis i bg x).1.1 ≠ Raise e.
Proof.
  revert bg x. induction i as [|i IH]; intros bg x; [done|].
  cbn [shuffle_loop]. destruct (random_interval fuel bg (Z.of_nat (S i))) as [[r bg']|]; [|done].
  destruct (Z.of_nat (S i) =? intp r)%Z; [apply IH|].
  destruct (tuple_setitem _ _ _) as [i1| | |]; try done.
  destruct (tuple_setitem _ _ _) as [i2| | |]; try done; apply IH.
Qed.

Lemma call_random_raise size dtype (bg : G) e :
  (call_random size dtype bg).1 = Raise e -> (call_random size dtype bg).2 = bg.
Proof.
  unfold call_random. destruct (is_float_dtype dtype) eqn:Hf.
  - destruct (dtype_pass (next_float (G := G)) next_double dtype Hf) as (d & Hd & _).
    rewrite (random_as_dist _ dtype d Hf Hd). unfold NumPyRandomGeneratorType_dist.
    set (k := if bool_decide (d = float32) then next_float else next_double).
    destruct (is_nonelike (typeof_arg size)).
    + cbn [run_overload]. by destruct (k bg).
    + destruct (check_size (typeof_arg size)); try done. cbn [obind run_overload].
      destruct size as [size|]; [apply fill_raise|done].
  - unfold NumPyRandomGeneratorType_random. by rewrite (dtype_refused _ _ dtype Hf).
Qed.

Lemma call_integers_raise fuel low high size dtype endpoint (bg : G) e :
  (call_integers fuel low high size dtype endpoint bg).1 = Raise e ->
  (call_integers fuel low high size dtype endpoint bg).2 = bg.
Proof.
  destruct (int_or_bool low && int_or_bool high
            && bool_decide (typeof_scalar endpoint = Boolean)) eqn:Hty.
  - apply andb_prop in Hty as [[Hl Hh]%andb_prop He%bool_decide_eq_true].
    destruct (is_int_dtype dtype) eqn:Hd.
    + unfold is_int_dtype in Hd. destruct (dtype_of dtype) as [d|] eqn:Hdt; [|done].
      cbn in Hd. destruct (int_bounds d) as [[lb ub]|] eqn:Hb; [|done].
      rewrite (integers_typed fuel low high size dtype endpoint bg d lb ub) by done.
      destruct (is_nonelike (typeof_arg size)).
      * destruct (_randint_arg_check _ _ _ _ _); try done. apply first_fill_one_raise.
      * destruct (check_size (typeof_arg size)); try done.
        destruct (_randint_arg_check _ _ _ _ _); try done.
        destruct size as [size|]; [|done]. apply fill_raise.
    + by rewrite integers_bad_dtype.
  - by rewrite integers_ill_typed.
Qed.

Lemma call_shuffle_raise fuel x axis (bg : G) (h : gmap nat (ndarray Z)) e :
  (call_shuffle fuel x axis bg h).1.1 = Raise e ->
  (call_shuffle fuel x axis bg h).1.2 = bg.
Proof.
  unfold call_shuffle, NumPyRandomGeneratorType_shuffle.
  destruct (check_types (typeof_x h x) [KArray]); cbn [obind]; try done.
  destruct (check_types (typeof axis) [KInteger]); cbn [obind]; try done.
  destruct x as [l|v]; [|done]. destruct (h !! l) as [arr|]; [|done].
  destruct (Z.of_nat (ndim arr) - 1 <? axis_value axis)%Z; [done|].
  destruct (shape_getitem (shape arr) (axis_value axis)) as [n| | |]; try done.
  pose proof (shuffle_loop_not_raise fuel
    (replicate (match typeof_x h (XArray l) with Array ndim => ndim | _ => 0 end) slice_all)
    (axis_value axis) (n - 1) bg (body arr) e) as Hn.
  destruct (shuffle_loop _ _ _ _ _ _) as [[r bg'] b]. cbn [fst snd] in *.
  destruct r as [u|e0| |]; cbn [obind]; try done. intros [= ->]. by destruct Hn.
Qed.

Lemma call_permutation_raise fuel x axis (bg : G) (h : gmap nat (ndarray Z)) e :
  (call_permutation fuel x axis bg h).1.1 = Raise e ->
  (call_permutation fuel x axis bg h).1.2 = bg.
Proof.
  unfold call_permutation, NumPyRandomGeneratorType_permutation.
  destruct (check_types (typeof_x h x) [KArray; KInteger]); cbn [obind]; try done.
  destruct (check_types (typeof axis) [KInteger]); cbn [obind]; try done.
  match goal with |- context [match ?m h x with _ => _ end] => destruct (m h x) as [arr|] end;
    [|done].
  unfold alloc.
  pose proof (call_shuffle_raise fuel (XArray (fresh (dom h))) axis bg
                (<[fresh (dom h) := arr]> h) e) as Hs.
  destruct (call_shuffle _ _ _ _ _) as [[r bg'] h']. cbn [fst snd] in *.
  destruct r as [u|e0| |]; try done.
Qed.

(** X23: no call of [random], [integers], [shuffle] or [permutation]
    raises after it has drawn: whenever a call ends in an exception the
    bit generator is in the state the call found it in. *)
Theorem exceptions_precede_draws fuel (c : call) (bg : G) (h : gmap nat (ndarray Z)) e :
  (run_call fuel c bg h).1.1 = Raise e ->
  (run_call fuel c bg h).1.2 = bg.
Proof.
  destruct c as [size dtype|low high size dtype endpoint|x axis|x axis]; cbn [run_call].
  - pose proof (call_random_raise size dtype bg e). by destruct (call_random size dtype bg).
  - pose proof (call_integers_raise fuel low high size dtype endpoint bg e).
    by destruct (call_integers fuel low high size dtype endpoint bg).
  - apply call_shuffle_raise.
  - apply call_permutation_raise.
Qed.
End ExceptionExtras.

Section AccessorExtras.
Context {G : Type}.

Lemma fill_loop_ext (k1 k2 : G -> option (Z * G)) idx bg out :
  (∀ s, k1 s = k2 s) -> fill_loop k1 idx bg out = fill_loop k2 idx bg out.
Proof.
  intros Hk. revert bg out. induction idx as [|i idx IH]; intros bg out; [done|].
  cbn [fill_loop]. rewrite Hk. destruct (k2 bg) as [[v bg']|]; [apply IH|done].
Qed.

Lemma dist_ext (f1 f2 : G -> Z * G) size bg :
  (∀ s, f1 s = f2 s) ->
  run_overload (NumPyRandomGeneratorType_dist f1 (typeof_arg size)) size bg
  = run_overload (NumPyRandomGeneratorType_dist f2 (typeof_arg size)) size bg.
Proof.
  intros Hf. unfold NumPyRandomGeneratorType_dist.
  destruct (is_nonelike (typeof_arg size)).
  - cbn [run_overload]. by rewrite Hf.
  - destruct (check_size (typeof_arg size)); try done. cbn [obind run_overload].
    destruct size as [size|]; [|done]. unfold fill.
    destruct (dims_of_size size) as [dims| | |]; try done.
    rewrite (fill_loop_ext (total f1) (total f2)); [done|].
    intros s. unfold total. by rewrite Hf.
Qed.

(** X24: [random] reads the bit generator through one accessor only,
    the one [dtype] selects: two generators that agree on [next_float]
    give the same [np.float32] results and states whatever their other
    accessors do, and likewise for [next_double] and [np.float64]. *)
Theorem random_reads_one_accessor (H1 H2 : BitGenerator G) (size : option pyval)
    (dtype : dtype_arg) (bg : G) :
  (dtype_of dtype = Some float32
   ∧ ∀ s, @next_float G H1 s = @next_float G H2 s)
  ∨ (dtype_of dtype = Some float64
     ∧ ∀ s, @next_double G H1 s = @next_double G H2 s) ->
  @call_random G H1 size dtype bg = @call_random G H2 size dtype bg.
Proof.
  intros [[Hd Hacc]|[Hd Hacc]]; unfold call_random.
  - assert (is_float_dtype dtype = true) as Hf by (unfold is_float_dtype; by rewrite Hd).
    rewrite (@random_as_dist G H1 _ dtype float32 Hf Hd),
            (@random_as_dist G H2 _ dtype float32 Hf Hd).
    by apply dist_ext.
  - assert (is_float_dtype dtype = true) as Hf by (unfold is_float_dtype; by rewrite Hd).
    rewrite (@random_as_dist G H1 _ dtype float64 Hf Hd),
            (@random_as_dist G H2 _ dtype float64 Hf Hd).
    by apply dist_ext.
Qed.
End AccessorExtras.

Lemma random_dtype_checked_first_witness :
  is_float_dtype (DType int64) = false
  ∧ call_random (Some (PTuple [SInt 2; SFloat 3])) (DType int64) ([7; 3]%Z : list Z)
    = (Raise (TypingError float_dtype_msg), [7; 3]%Z).
Proof.
  split; [reflexivity|].
  exact (random_dtype_checked_first (Some (PTuple [SInt 2; SFloat 3])) (DType int64)
           ([7; 3]%Z : list Z) eq_refl).
Defined.

Lemma random_zero_extent_draws_nothing_witness :
  integer_size (PTuple [SInt 2; SInt 0])
  ∧ dims_of_size (PTuple [SInt 2; SInt 0]) = Return [2; 0]
  ∧ ∃ a, call_random (Some (PTuple [SInt 2; SInt 0])) (DType float64) ([7; 3]%Z : list Z)
         = (Return (RArray a), [7; 3]%Z)
       ∧ shape a = [2; 0] ∧ has_shape [2; 0] (body a) ∧ elems (body a) = [].
Proof.
  assert (integer_size (PTuple [SInt 2; SInt 0])) as Hi by (repeat constructor).
  split; [exact Hi|]. split; [reflexivity|].
  apply (random_zero_extent_draws_nothing (PTuple [SInt 2; SInt 0]) [2; 0] (DType float64)
           ([7; 3]%Z : list Z) eq_refl Hi eq_refl).
  apply elem_of_cons. right. apply elem_of_cons. by left.
Defined.

Lemma random_scalar_is_one_draw_witness :
  is_float_dtype (DOmitted float64) = true
  ∧ ∃ v bg',
      call_random None (DOmitted float64) ([7; 3]%Z : list Z) = (Return (RScalar v), bg')
      ∧ call_random (Some (PTuple [])) (DOmitted float64) ([7; 3]%Z : list Z)
        = (Return (RArray (mk_ndarray [] (Item v))), bg')
      ∧ call_random (Some (PScalar (SInt 1))) (DOmitted float64) ([7; 3]%Z : list Z)
        = (Return (RArray (mk_ndarray [1] (Rows [Item v]))), bg').
Proof.
  split; [reflexivity|].
  exact (random_scalar_is_one_draw (DOmitted float64) ([7; 3]%Z : list Z) eq_refl).
Defined.

Lemma negative_size_fails_in_allocation_witness :
  negative_size (PScalar (SInt (-3)))
  ∧ call_random (Some (PScalar (SInt (-3)))) (DType float32) ([7; 3]%Z : list Z)
    = (Raise (ValueError negative_dims_msg), [7; 3]%Z).
Proof.
  assert (negative_size (PScalar (SInt (-3)))) as Hn by (cbn; lia).
  split; [exact Hn|].
  exact (proj1 (proj2 (negative_size_fails_in_allocation (PScalar (SInt (-3)))
           (DType float32) (next_double (G := list Z)) ([7; 3]%Z : list Z) eq_refl Hn))).
Defined.

Lemma shuffle_short_axis_is_noop_witness :
  shape row13 !! 0 = Some 1
  ∧ call_shuffle 8 (XArray 0) (PScalar (SInt 0)) ([5; 6]%Z : list Z) {[ 0 := row13 ]}
    = (Return RNone, [5; 6]%Z, {[ 0 := row13 ]}).
Proof.
  split; [reflexivity|].
  exact (proj2 (shuffle_short_axis_is_noop 8 ([5; 6]%Z : list Z) row13 0 1 0
                  {[ 0 := row13 ]} eq_refl (le_n 1) eq_refl)).
Defined.

Lemma shuffle_rejects_ill_typed_witness :
  typeof (PScalar (SBool true)) ≠ Scalar Integer
  ∧ call_shuffle 8 (XArray 0) (PScalar (SBool true)) ([5; 6]%Z : list Z) {[ 0 := vec4 ]}
    = (Raise (TypingError check_types_msg), [5; 6]%Z, {[ 0 := vec4 ]}).
Proof.
  assert (typeof (PScalar (SBool true)) ≠ Scalar Integer) as Hax by discriminate.
  split; [exact Hax|].
  exact (shuffle_rejects_ill_typed 8 (XArray 0) (PScalar (SBool true)) ([5; 6]%Z : list Z)
           {[ 0 := vec4 ]} (or_intror Hax)).
Defined.

Lemma permutation_of_integer_witness :
  (4 < 2 ^ 63)%Z
  ∧ ∃ a, call_permutation 8 (XVal (PScalar (SInt 4))) (PScalar (SInt 0))
           ([3; 1; 0]%Z : list Z) (∅ : gmap nat (ndarray Z))
         = (Return (RRef (fresh (dom (∅ : gmap nat (ndarray Z))))), [],
            <[fresh (dom (∅ : gmap nat (ndarray Z))) := a]> ∅)
       ∧ shape a = [4]
       ∧ elems (body a) ≡ₚ [0; 1; 2; 3]%Z.
Proof.
  split; [reflexivity|].
  exact (permutation_of_integer 8 4 ([3; 1; 0]%Z : list Z) ∅ eq_refl).
Defined.

Lemma permutation_of_array_witness :
  wf mat23 ∧ fits_intp mat23
  ∧ ∃ a, call_permutation 8 (XArray 0) (PScalar (SInt 1)) ([2; 0]%Z : list Z)
           {[ 0 := mat23 ]}
         = (Return (RRef (fresh (dom ({[ 0 := mat23 ]} : gmap nat (ndarray Z))))), [],
            <[fresh (dom ({[ 0 := mat23 ]} : gmap nat (ndarray Z))) := a]> {[ 0 := mat23 ]})
       ∧ shape a = [2; 3] ∧ wf a
       ∧ elems (body a) ≡ₚ [1; 2; 3; 4; 5; 6]%Z
       ∧ ∃ f, f <$> seq 0 3 ≡ₚ seq 0 3 ∧ moved_along 1 f (body mat23) (body a).
Proof.
  split; [apply mat23_wf|]. split; [apply mat23_wf|].
  exact (permutation_of_array 8 0 mat23 1 3 ([2; 0]%Z : list Z) {[ 0 := mat23 ]}
           eq_refl (proj1 mat23_wf) (proj2 mat23_wf) eq_refl).
Defined.

Lemma permutation_axis_too_large_witness :
  (Z.of_nat (ndim (np_arange 4)) <= 1)%Z
  ∧ (call_permutation 8 (XVal (PScalar (SInt 4))) (PScalar (SInt 1))
       ([3; 1; 0]%Z : list Z) (∅ : gmap nat (ndarray Z))).1
    = (Raise AxisOutOfRange, [3; 1; 0]%Z).
Proof.
  assert (Z.of_nat (ndim (np_arange 4)) <= 1)%Z as Hax by (cbn; lia).
  split; [exact Hax|].
  exact (permutation_axis_too_large 8 (XVal (PScalar (SInt 4))) (np_arange 4) 1
           ([3; 1; 0]%Z : list Z) ∅ eq_refl Hax).
Defined.

Lemma permutation_rejects_ill_typed_witness :
  typeof (PScalar (SFloat 4)) ≠ Scalar Integer
  ∧ call_permutation 8 (XVal (PScalar (SFloat 4))) (PScalar (SInt 0))
      ([3; 1; 0]%Z : list Z) (∅ : gmap nat (ndarray Z))
    = (Raise (TypingError check_types_msg), [3; 1; 0]%Z, ∅).
Proof.
  assert (typeof (PScalar (SFloat 4)) ≠ Scalar Integer) as Hx by discriminate.
  split; [exact Hx|].
  exact (permutation_rejects_ill_typed 8 (PScalar (SFloat 4)) (PScalar (SInt 0))
           ([3; 1; 0]%Z : list Z) ∅ Hx).
Defined.

Lemma integers_rejects_ill_typed_witness :
  int_or_bool (SInt 0) && int_or_bool (SInt 10)
    && bool_decide (typeof_scalar (SInt 1) = Boolean) = false
  ∧ call_integers 8 (SInt 0) (SInt 10) None (DType int64) (SInt 1) ([7; 3]%Z : list Z)
    = (Raise (TypingError check_types_msg), [7; 3]%Z).
Proof.
  split; [reflexivity|].
  exact (integers_rejects_ill_typed 8 (SInt 0) (SInt 10) None (DType int64) (SInt 1)
           ([7; 3]%Z : list Z) eq_refl).
Defined.

Lemma integers_dtype_checked_before_size_witness :
  is_int_dtype (DType float64) = false
  ∧ call_integers 8 (SInt 0) (SInt 10) (Some (PScalar (SFloat 2))) (DType float64)
      (SBool false) ([7; 3]%Z : list Z)
    = (Raise (TypingError int_dtype_msg), [7; 3]%Z).
Proof.
  split; [reflexivity|].
  exact (integers_dtype_checked_before_size 8 (SInt 0) (SInt 10) (Some (PScalar (SFloat 2)))
           (DType float64) (SBool false) ([7; 3]%Z : list Z) eq_refl eq_refl eq_refl eq_refl).
Defined.

Lemma integers_size_checked_before_range_witness :
  ¬ integer_size (PScalar (SFloat 2))
  ∧ _randint_arg_check 10 0 false (- 2 ^ 63) (2 ^ 63 - 1) = Raise InvalidRange
  ∧ call_integers 8 (SInt 10) (SInt 0) (Some (PScalar (SFloat 2))) (DType int64)
      (SBool false) ([7; 3]%Z : list Z)
    = (Raise InvalidShape, [7; 3]%Z).
Proof.
  assert (¬ integer_size (PScalar (SFloat 2))) as Hs by discriminate.
  split; [exact Hs|]. split; [reflexivity|].
  refine (integers_size_checked_before_range 8 (SInt 10) (SInt 0) (PScalar (SFloat 2))
            (DType int64) (SBool false) ([7; 3]%Z : list Z) eq_refl eq_refl eq_refl eq_refl
            _ Hs).
  discriminate.
Defined.

Lemma integers_range_checked_before_allocation_witness :
  negative_size (PScalar (SInt (-3)))
  ∧ _randint_arg_check 10 0 false (- 2 ^ 63) (2 ^ 63 - 1) = Raise InvalidRange
  ∧ call_integers 8 (SInt 10) (SInt 0) (Some (PScalar (SInt (-3)))) (DType int64)
      (SBool false) ([7; 3]%Z : list Z)
    = (Raise InvalidRange, [7; 3]%Z).
Proof.
  split; [cbn; lia|]. split; [reflexivity|].
  exact (integers_range_checked_before_allocation 8 (SInt 10) (SInt 0)
           (Some (PScalar (SInt (-3)))) int64 false ([7; 3]%Z : list Z)
           (- 2 ^ 63)%Z (2 ^ 63 - 1)%Z InvalidRange eq_refl eq_refl eq_refl eq_refl eq_refl).
Defined.

Lemma standard_exponential_unknown_method_witness :
  "fast" ≠ "zig" ∧ "fast" ≠ "inv"
  ∧ call_standard_exponential (G := list Z) next_float next_double next_float next_double
      None (DType float64) "fast" [7; 3]%Z
    = (Raise (ValueError method_msg), [7; 3]%Z)
  ∧ call_standard_exponential (G := list Z) next_float next_double next_float next_double
      (Some (PScalar (SInt 2))) (DType float64) "fast" [7; 3]%Z
    = (Raise (ValueError method_msg), [7; 3]%Z).
Proof.
  assert ("fast" ≠ "zig") as Hz by discriminate.
  assert ("fast" ≠ "inv") as Hi by discriminate.
  split; [exact Hz|]. split; [exact Hi|].
  pose proof (standard_exponential_unknown_method (G := list Z) next_float next_double
                next_float next_double (DType float64) "fast" [7; 3]%Z Hz Hi eq_refl)
    as (Hscalar & Harray & _).
  split; [exact Hscalar|]. exact (Harray (PScalar (SInt 2)) [2] eq_refl eq_refl).
Defined.

Lemma standard_exponential_typing_first_witness :
  is_float_dtype (DType int32) = false
  ∧ call_standard_exponential (G := list Z) next_float next_double next_float next_double
      (Some (PScalar (SInt 2))) (DType int32) "fast" [7; 3]%Z
    = (Raise (TypingError float_dtype_msg), [7; 3]%Z).
Proof.
  split; [reflexivity|].
  exact (standard_exponential_typing_first (G := list Z) next_float next_double
           next_float next_double (Some (PScalar (SInt 2))) (DType int32) "fast" [7; 3]%Z
           (or_introl eq_refl)).
Defined.

Lemma standard_gamma_parameter_checked_first_witness :
  float_or_int (SStr "two") = false
  ∧ call_standard_gamma (G := list Z) (fun bg _ => next_float bg) (fun bg _ => next_double bg)
      (SStr "two") (Some (PScalar (SFloat 2))) (DType int32) [7; 3]%Z
    = (Raise (TypingError check_types_msg), [7; 3]%Z).
Proof.
  split; [reflexivity|].
  exact (standard_gamma_parameter_checked_first (G := list Z) (fun bg _ => next_float bg)
           (fun bg _ => next_double bg) (SStr "two") (Some (PScalar (SFloat 2)))
           (DType int32) [7; 3]%Z eq_refl).
Defined.

Lemma standard_gamma_fills_with_one_parameter_witness :
  integer_size (PTuple [SInt 2; SInt 2])
  ∧ dims_of_size (PTuple [SInt 2; SInt 2]) = Return [2; 2]
  ∧ ∃ a, call_standard_gamma (G := nat)
           (fun bg s => ((int_of_scalar s + (next_float bg).1)%Z, (next_float bg).2))
           (fun bg s => ((int_of_scalar s + (next_double bg).1)%Z, (next_double bg).2))
           (SInt 100) (Some (PTuple [SInt 2; SInt 2])) (DType float64) 0
         = (Return (RArray a), 4)
       ∧ shape a = [2; 2]
       ∧ elems (body a) = [100; 101; 102; 103]%Z.
Proof.
  assert (integer_size (PTuple [SInt 2; SInt 2])) as Hi by (repeat constructor).
  split; [exact Hi|]. split; [reflexivity|].
  destruct (standard_gamma_fills_with_one_parameter (G := nat)
              (fun bg s => ((int_of_scalar s + (next_float bg).1)%Z, (next_float bg).2))
              (fun bg s => ((int_of_scalar s + (next_double bg).1)%Z, (next_double bg).2))
              (SInt 100) (PTuple [SInt 2; SInt 2]) [2; 2] (DType float64) float64 0
              eq_refl eq_refl eq_refl Hi eq_refl) as (a & Hcall & Hs & _ & He).
  exists a. split; [exact Hcall|]. split; [exact Hs|exact He].
Defined.

Lemma exceptions_precede_draws_witness :
  (run_call 8 (CallPermutation (XArray 0) (PScalar (SInt 2))) ([3; 1; 0]%Z : list Z)
     {[ 0 := mat23 ]}).1.1 = Raise AxisOutOfRange
  ∧ (run_call 8 (CallPermutation (XArray 0) (PScalar (SInt 2))) ([3; 1; 0]%Z : list Z)
       {[ 0 := mat23 ]}).1.2 = [3; 1; 0]%Z.
Proof.
  assert ((run_call 8 (CallPermutation (XArray 0) (PScalar (SInt 2))) ([3; 1; 0]%Z : list Z)
             {[ 0 := mat23 ]}).1.1 = Raise AxisOutOfRange) as He by (vm_compute; reflexivity).
  split; [exact He|].
  exact (exceptions_precede_draws 8 (CallPermutation (XArray 0) (PScalar (SInt 2)))
           ([3; 1; 0]%Z : list Z) {[ 0 := mat23 ]} AxisOutOfRange He).
Defined.

Lemma random_reads_one_accessor_witness :
  (∀ s, @next_float (list Z) script_gen s = @next_float (list Z) float_only_gen s)
  ∧ @call_random (list Z) script_gen (Some (PScalar (SInt 2))) (DType float32) [7; 3]%Z
    = @call_random (list Z) float_only_gen (Some (PScalar (SInt 2))) (DType float32) [7; 3]%Z.
Proof.
  assert (∀ s, @next_float (list Z) script_gen s = @next_float (list Z) float_only_gen s)
    as Hacc by (intros s; reflexivity).
  split; [exact Hacc|].
  exact (random_reads_one_accessor script_gen float_only_gen (Some (PScalar (SInt 2)))
           (DType float32) [7; 3]%Z (or_introl (conj eq_refl Hacc))).
Defined.

(** * The claims the code departs from, and what holds in their place *)

Lemma mod_shift (x lo q k n : Z) :
  ((x - lo + q * (k * n)) mod n = (x - lo) mod n)%Z.
Proof. replace (q * (k * n))%Z with ((q * k) * n)%Z by lia. apply Z_mod_plus_full. Qed.

Lemma cast_int64_inner d lb ub x :
  int_bounds d = Some (lb, ub) -> d ≠ bool_ ->
  cast d (cast int64 x) = cast d x.
Proof.
  intros Hb Hd.
  assert (∃ q, cast int64 x = (x + q * 2 ^ 64)%Z) as [q Hq].
  { unfold cast. cbn [iinfo]. exists (- ((x - - 2 ^ 63) / 2 ^ 64))%Z.
    rewrite (Z.mod_eq (x - - 2 ^ 63) (2 ^ 64)) by lia. lia. }
  rewrite Hq. clear Hq.
  destruct d; try done; unfold cast; cbn [iinfo]; f_equal.
  - replace (x + q * 2 ^ 64 - - 2 ^ 7)%Z with (x - - 2 ^ 7 + q * (2 ^ 56 * 2 ^ 8))%Z by lia.
    apply mod_shift.
  - replace (x + q * 2 ^ 64 - 0)%Z with (x - 0 + q * (2 ^ 56 * 2 ^ 8))%Z by lia.
    apply mod_shift.
  - replace (x + q * 2 ^ 64 - - 2 ^ 15)%Z with (x - - 2 ^ 15 + q * (2 ^ 48 * 2 ^ 16))%Z by lia.
    apply mod_shift.
  - replace (x + q * 2 ^ 64 - 0)%Z with (x - 0 + q * (2 ^ 48 * 2 ^ 16))%Z by lia.
    apply mod_shift.
  - replace (x + q * 2 ^ 64 - - 2 ^ 31)%Z with (x - - 2 ^ 31 + q * (2 ^ 32 * 2 ^ 32))%Z by lia.
    apply mod_shift.
  - replace (x + q * 2 ^ 64 - 0)%Z with (x - 0 + q * (2 ^ 32 * 2 ^ 32))%Z by lia.
    apply mod_shift.
  - replace (x + q * 2 ^ 64 - - 2 ^ 63)%Z with (x - - 2 ^ 63 + q * (1 * 2 ^ 64))%Z by lia.
    apply mod_shift.
  - replace (x + q * 2 ^ 64 - 0)%Z with (x - 0 + q * (1 * 2 ^ 64))%Z by lia.
    apply mod_shift.
Qed.

Lemma randint_check_bounds low high endpoint lb ub :
  _randint_arg_check low high endpoint lb ub = Return tt ->
  let closed := (if endpoint then high else high - 1)%Z in
  (low <= closed)%Z
  ∧ (if ((lb =? -1) && (ub =? 2))%Z then (lb < low ∧ closed < ub)%Z
     else (lb <= low ∧ closed <= ub)%Z).
Proof.
  intros Hchk closed. unfold _randint_arg_check in Hchk. fold closed in Hchk.
  destruct ((lb =? -1) && (ub =? 2))%Z;
    repeat match type of Hchk with
    | context [(?a <=? ?b)%Z] => destruct (Z.leb_spec a b); try done
    | context [(?a <? ?b)%Z] => destruct (Z.ltb_spec a b); try done
    end; lia.
Qed.

Lemma sub_dtype_exact d lb ub low closed :
  int_bounds d = Some (lb, ub) ->
  (low <= closed)%Z ->
  (if ((lb =? -1) && (ub =? 2))%Z then (lb < low ∧ closed < ub)%Z
   else (lb <= low ∧ closed <= ub)%Z) ->
  (d = int64 -> (closed - low < 2 ^ 63)%Z) ->
  sub_dtype d closed low = (closed - low)%Z.
Proof.
  intros Hb Hle Hbounds Hwrap. unfold sub_dtype.
  destruct d; cbn in Hb; try done; injection Hb as <- <-;
    match type of Hbounds with
    | if ?c then _ else _ =>
        let c' := eval vm_compute in c in change c with c' in Hbounds
    end;
    cbv iota in Hbounds; cbn [is_unsigned]; unfold cast; cbn [iinfo];
    try specialize (Hwrap eq_refl); rewrite Z.mod_small; lia.
Qed.

Section IntegersRangeLaw.
Context {G : Type} `{BitGenerator G}.

Lemma fill_loop_returns (k : G -> option (Z * G)) idx bg out :
  (∀ s, is_Some (k s)) -> ∃ b bg', fill_loop k idx bg out = (Return b, bg').
Proof.
  intros Hk. revert bg out. induction idx as [|i idx IH]; intros bg out; [by eexists _, _|].
  cbn [fill_loop]. destruct (Hk bg) as [[v bg1] ->]. apply IH.
Qed.

Lemma fill_kernel_shape (k : G -> option (Z * G)) (P : Z -> Prop) size dims bg :
  (∀ s, is_Some (k s)) ->
  (∀ bg v bg1, k bg = Some (v, bg1) -> P v) ->
  dims_of_size size = Return dims ->
  ∃ a bg', fill k size bg = (Return (RArray a), bg')
           ∧ shape a = dims ∧ has_shape dims (body a) ∧ Forall P (elems (body a)).
Proof.
  intros Hsome HP Hd.
  destruct (fill_loop_returns k (ndindex dims) bg (full dims 0%Z) Hsome) as (b & bg' & Hloop).
  assert (fill k size bg = (Return (RArray (mk_ndarray dims b)), bg')) as Hfill.
  { unfold fill. rewrite Hd. cbn [np_empty body shape]. by rewrite Hloop. }
  exists (mk_ndarray dims b), bg'. split; [done|]. split; [done|].
  destruct (fill_loop_samples k P dims (ndindex dims) bg (full dims 0%Z) b bg' HP)
    as (vs & _ & _ & Hshape & _); [apply has_shape_full| |done|].
  { apply Forall_forall. intros c Hc. by apply ndindex_in_range. }
  split; [done|].
  destruct (fill_samples k P size bg _ bg' HP Hfill) as (a & [= <-] & Ha). done.
Qed.

Lemma integers_valid fuel (low high : scalar) (size : option pyval)
    (dtype : dtype_arg) (endpoint : scalar) (bg : G) d lb ub :
  int_or_bool low = true -> int_or_bool high = true ->
  typeof_scalar endpoint = Boolean ->
  dtype_of dtype = Some d -> int_bounds d = Some (lb, ub) ->
  _randint_arg_check (int_of_scalar low) (int_of_scalar high)
    (negb (int_of_scalar endpoint =? 0)%Z) lb ub = Return tt ->
  size_ok size ->
  call_integers fuel low high size dtype endpoint bg
  = let closed := (if negb (int_of_scalar endpoint =? 0)%Z
                   then int_of_scalar high else int_of_scalar high - 1)%Z in
    let rng := sub_dtype d closed (int_of_scalar low) in
    match size with
    | Some s => random_bounded_fill fuel bg (int_of_scalar low) rng s d
    | None => first (random_bounded_fill fuel bg (int_of_scalar low) rng (PScalar (SInt 1)) d)
    end.
Proof.
  intros Hl Hh He Hdt Hb Hchk Hsize.
  rewrite (integers_typed fuel low high size dtype endpoint bg d lb ub) by done.
  rewrite Hchk.
  set (ep := negb (int_of_scalar endpoint =? 0)%Z) in *.
  set (lo := int_of_scalar low) in *. set (hi := int_of_scalar high) in *.
  pose proof (randint_check_bounds lo hi ep lb ub Hchk) as [Hle Hbounds].
  cbv zeta in Hle, Hbounds.
  assert (cast d lo = lo) as Hlo.
  { apply (cast_valid d lb ub lo hi ep); [done|done|lia]. }
  assert (cast d (if ep then hi else sub_int64 hi (cast d 1))
          = (if ep then hi else hi - 1)%Z) as Hhi.
  { destruct ep.
    - apply (cast_valid d lb ub lo hi true); [done|done|lia].
    - rewrite (cast_one d lb ub Hb). unfold sub_int64.
      assert (cast d (cast int64 (hi - 1)) = cast d (hi - 1)) as ->.
      { destruct (decide (d = bool_)) as [->|Hnb].
        - cbn in Hb. injection Hb as <- <-. cbn in Hbounds.
          change (cast int64 (hi - 1)) with (intp (hi - 1)). rewrite intp_small; [done|lia].
        - by apply (cast_int64_inner d lb ub). }
      apply (cast_valid d lb ub lo hi false); [done|done|lia]. }
  rewrite Hlo, Hhi. cbv zeta.
  destruct size as [s|]; cbn [typeof_arg size_ok] in *.
  - by rewrite (integer_size_not_none s Hsize), (check_size_integer_size s Hsize).
  - done.
Qed.

(** C1, at the input where the code departs from it: for [np.int64]
    with [low = -2^63], [high = 2^63 - 1] and the endpoint included the
    argument check passes, [rng = high - low] is computed in [int64]
    and wraps around to [-1], and [-1] is what the sampler is asked
    for, where the closed range has the width [2^64 - 1]. *)
Theorem integers_int64_full_range_wraps fuel (bg : G) :
  _randint_arg_check (- 2 ^ 63) (2 ^ 63 - 1) true (- 2 ^ 63) (2 ^ 63 - 1) = Return tt
  ∧ sub_dtype int64 (2 ^ 63 - 1) (- 2 ^ 63) = (-1)%Z
  ∧ ((2 ^ 63 - 1) - (- 2 ^ 63) = 2 ^ 64 - 1)%Z
  ∧ call_integers fuel (SInt (- 2 ^ 63)) (SInt (2 ^ 63 - 1)) None (DType int64) (SBool true) bg
    = first (random_bounded_fill fuel bg (- 2 ^ 63) (-1) (PScalar (SInt 1)) int64)
  ∧ ∀ size, integer_size size ->
      call_integers fuel (SInt (- 2 ^ 63)) (SInt (2 ^ 63 - 1)) (Some size) (DType int64)
        (SBool true) bg
      = random_bounded_fill fuel bg (- 2 ^ 63) (-1) size int64.
Proof.
  split; [reflexivity|]. split; [reflexivity|]. split; [reflexivity|]. split.
  - by rewrite (integers_valid fuel (SInt (- 2 ^ 63)) (SInt (2 ^ 63 - 1)) None (DType int64)
                  (SBool true) bg int64 (- 2 ^ 63)%Z (2 ^ 63 - 1)%Z).
  - intros size Hsize.
    by rewrite (integers_valid fuel (SInt (- 2 ^ 63)) (SInt (2 ^ 63 - 1)) (Some size)
                  (DType int64) (SBool true) bg int64 (- 2 ^ 63)%Z (2 ^ 63 - 1)%Z).
Qed.

(** X25: for bounds that pass the argument check and whose closed range
    is not wider than [int64] arithmetic can hold, [integers] asks the
    sampler for [rng = high - low] with the endpoint and
    [(high - 1) - low] without, and, when the fuel is enough for the
    rejection loop, returns a scalar (no size) or an array of the
    requested shape (a size) whose every sample lies between [low] and
    the closed upper bound. *)
Theorem integers_closed_range fuel (low high : scalar) (size : option pyval)
    (dtype : dtype_arg) (endpoint : scalar) (bg : G) d lb ub :
  int_or_bool low = true -> int_or_bool high = true ->
  typeof_scalar endpoint = Boolean ->
  dtype_of dtype = Some d -> int_bounds d = Some (lb, ub) ->
  let lo := int_of_scalar low in
  let closed := (if negb (int_of_scalar endpoint =? 0)%Z
                 then int_of_scalar high else int_of_scalar high - 1)%Z in
  _randint_arg_check lo (int_of_scalar high)
    (negb (int_of_scalar endpoint =? 0)%Z) lb ub = Return tt ->
  size_ok size ->
  (d = int64 -> (closed - lo < 2 ^ 63)%Z) ->
  (∀ s, is_Some (bounded_masked fuel (closed - lo) s)) ->
  call_integers fuel low high size dtype endpoint bg
  = match size with
    | Some s => random_bounded_fill fuel bg lo (closed - lo) s d
    | None => first (random_bounded_fill fuel bg lo (closed - lo) (PScalar (SInt 1)) d)
    end
  ∧ match size with
    | None =>
        ∃ v bg', call_integers fuel low high size dtype endpoint bg = (Return (RScalar v), bg')
                 ∧ (lo <= v <= closed)%Z
    | Some s =>
        ∀ dims, dims_of_size s = Return dims ->
          ∃ a bg', call_integers fuel low high size dtype endpoint bg
                   = (Return (RArray a), bg')
                   ∧ shape a = dims ∧ has_shape dims (body a)
                   ∧ Forall (fun v => lo <= v <= closed)%Z (elems (body a))
    end.
Proof.
  intros Hl Hh He Hdt Hb lo closed Hchk Hsize Hwrap Hfuel.
  pose proof (randint_check_bounds lo (int_of_scalar high) _ lb ub Hchk) as [Hle Hbounds].
  cbv zeta in Hle, Hbounds. fold closed in Hle, Hbounds.
  pose proof (integers_valid fuel low high size dtype endpoint bg d lb ub
                Hl Hh He Hdt Hb Hchk Hsize) as Hcall.
  cbv zeta in Hcall. fold lo closed in Hcall.
  rewrite (sub_dtype_exact d lb ub lo closed Hb Hle Hbounds Hwrap) in Hcall.
  split; [exact Hcall|]. rewrite Hcall. unfold random_bounded_fill.
  set (k := fun bg0 : G =>
              match bounded_masked fuel (closed - lo) bg0 with
              | Some (v, bg') => Some (cast d (lo + v), bg')
              | None => None
              end).
  assert (∀ s, is_Some (k s)) as Hsome.
  { intros s. unfold k. destruct (Hfuel s) as [[v s'] ->]. by eexists. }
  assert (∀ bg0 v bg1, k bg0 = Some (v, bg1) -> (lo <= v <= closed)%Z) as Hk.
  { intros bg0 v bg1. unfold k.
    destruct (bounded_masked fuel (closed - lo) bg0) as [[w bg2]|] eqn:Hbm; [|done].
    intros [= <- <-]. apply bounded_masked_range in Hbm.
    rewrite (cast_valid d lb ub lo (int_of_scalar high) _ (lo + w) Hb Hchk);
      fold closed; lia. }
  destruct size as [s|].
  - intros dims Hd. apply (fill_kernel_shape k _ s dims bg Hsome Hk Hd).
  - destruct (fill_kernel_shape k _ (PScalar (SInt 1)) [1] bg Hsome Hk eq_refl)
      as (a & bg' & Hfill & _ & _ & Ha).
    rewrite Hfill. apply fill_size_one in Hfill as (_ & v & Hbody & _).
    exists v, bg'. unfold first. rewrite Hbody in *. cbn. split; [done|].
    by apply Forall_cons in Ha as [? _].
Qed.
End IntegersRangeLaw.

Lemma bounded_masked_ones {G} `{BitGenerator G} fuel k (s : G) :
  (0 <= k)%Z -> is_Some (bounded_masked (S fuel) (Z.ones k) s).
Proof.
  intros Hk. cbn [bounded_masked].
  destruct (if (Z.ones k <=? 4294967295)%Z then next_uint32 s else next_uint64 s) as [w s'].
  assert (gen_mask (Z.ones k) = Z.ones k) as ->.
  { unfold gen_mask.
    assert (Z.ones k + 1 = 2 ^ k)%Z as -> by (rewrite Z.ones_equiv; lia).
    by rewrite Z.log2_up_pow2. }
  rewrite Z.land_ones by done.
  assert ((w mod 2 ^ k <=? Z.ones k)%Z = true) as ->; [|by eexists].
  apply Z.leb_le. rewrite Z.ones_equiv.
  pose proof (Z.mod_pos_bound w (2 ^ k) ltac:(lia)). lia.
Qed.

Lemma integers_closed_range_witness :
  _randint_arg_check 0 8 false (- 2 ^ 31) (2 ^ 31 - 1) = Return tt
  ∧ ∃ a bg', call_integers 1 (SInt 0) (SInt 8) (Some (PTuple [SInt 2; SInt 2]))
               (DNumberClass int32) (SBool false) ([7; 12; 3; 15; 9]%Z : list Z)
             = (Return (RArray a), bg')
           ∧ shape a = [2; 2]
           ∧ Forall (fun v => 0 <= v <= 7)%Z (elems (body a)).
Proof.
  split; [reflexivity|].
  destruct (integers_closed_range 1 (SInt 0) (SInt 8) (Some (PTuple [SInt 2; SInt 2]))
              (DNumberClass int32) (SBool false) ([7; 12; 3; 15; 9]%Z : list Z)
              int32 (- 2 ^ 31)%Z (2 ^ 31 - 1)%Z eq_refl eq_refl eq_refl eq_refl eq_refl
              eq_refl) as [_ Harr].
  - repeat constructor.
  - discriminate.
  - intros s. apply (bounded_masked_ones 0 3 s). lia.
  - destruct (Harr [2; 2] eq_refl) as (a & bg' & Hcall & Hs & _ & Ha).
    exists a, bg'. by repeat split.
Defined.

Section ShuffleAxis.
Context {G : Type} `{BitGenerator G}.

Lemma shuffle_array_below_rank fuel (bg : G) (x : ndarray Z) (axis : Z) :
  (axis < - Z.of_nat (ndim x))%Z ->
  shuffle_array fuel bg x axis = (Raise (IndexError tuple_index_msg), bg, x).
Proof.
  intros Haxis. unfold shuffle_array. cbn [NumPyRandomGeneratorType_shuffle check_types existsb
    isinstance negb obind orb].
  assert ((Z.of_nat (ndim x) - 1 <? axis)%Z = false) as -> by (apply Z.ltb_ge; lia).
  unfold shape_getitem, ndim in *.
  assert ((axis <? 0)%Z = true) as -> by (apply Z.ltb_lt; lia).
  by assert ((axis + Z.of_nat (length (shape x)) <? 0)%Z = true) as -> by (apply Z.ltb_lt; lia).
Qed.

(** X26: an axis outside the array is refused before any draw, with the
    array, the bit generator and the store as they were: an axis beyond
    the last one by the guard of [impl], with [AxisOutOfRange]; an axis
    below [-rank] by the look-up [x.shape[axis]], with the [IndexError]
    of the tuple. *)
Theorem shuffle_axis_out_of_range fuel (bg : G) (x : ndarray Z) (axis : Z) l
    (h : gmap nat (ndarray Z)) :
  (Z.of_nat (ndim x) <= axis ∨ axis < - Z.of_nat (ndim x))%Z ->
  h !! l = Some x ->
  let e := if (Z.of_nat (ndim x) <=? axis)%Z then AxisOutOfRange
           else IndexError tuple_index_msg in
  shuffle_array fuel bg x axis = (Raise e, bg, x)
  ∧ call_shuffle fuel (XArray l) (PScalar (SInt axis)) bg h = (Raise e, bg, h).
Proof.
  intros Haxis Hl e.
  assert (shuffle_array fuel bg x axis = (Raise e, bg, x)) as Hs.
  { unfold e. destruct (Z.leb_spec (Z.of_nat (ndim x)) axis).
    - by apply shuffle_array_too_large.
    - apply shuffle_array_below_rank. lia. }
  split; [done|]. rewrite (call_shuffle_array fuel l x axis bg h Hl), Hs.
  cbn [obind]. by rewrite insert_id.
Qed.
End ShuffleAxis.

Lemma shuffle_axis_out_of_range_witness :
  (Z.of_nat (ndim vec4) <= 1)%Z
  ∧ call_shuffle 8 (XArray 0) (PScalar (SInt 1)) ([3; 1; 0]%Z : list Z) {[ 0 := vec4 ]}
    = (Raise AxisOutOfRange, [3; 1; 0]%Z, {[ 0 := vec4 ]})
  ∧ call_shuffle 8 (XArray 0) (PScalar (SInt (-2))) ([3; 1; 0]%Z : list Z) {[ 0 := vec4 ]}
    = (Raise (IndexError tuple_index_msg), [3; 1; 0]%Z, {[ 0 := vec4 ]}).
Proof.
  assert (Z.of_nat (ndim vec4) <= 1)%Z as Hax by (unfold ndim, vec4; simpl; lia).
  split; [exact Hax|]. split.
  - exact (proj2 (shuffle_axis_out_of_range 8 ([3; 1; 0]%Z : list Z) vec4 1 0 {[ 0 := vec4 ]}
                    (or_introl Hax) eq_refl)).
  - refine (proj2 (shuffle_axis_out_of_range 8 ([3; 1; 0]%Z : list Z) vec4 (-2) 0
                     {[ 0 := vec4 ]} (or_intror _) eq_refl)).
    unfold ndim, vec4; simpl; lia.
Defined.

(** C2, at the input where the code departs from it: the guard of
    [impl] is [axis > x.ndim - 1] only, so that [axis = -1] passes it;
    on the array [[10, 20]] the loop draws a word, finds [j = 0 ≠ i = 1]
    and calls [tuple_setitem] with the index [-1], which makes no bounds
    check. No [AxisOutOfRange] is raised and the bit generator has
    moved. *)
Theorem shuffle_negative_axis_unchecked :
  tuple_setitem [slice_all] (-1) (slice_one 1) = Undefined
  ∧ call_shuffle 8 (XArray 0) (PScalar (SInt (-1))) ([0]%Z : list Z) {[ 0 := vec2 ]}
    = (Undefined, [], {[ 0 := vec2 ]})
  ∧ (call_shuffle 8 (XArray 0) (PScalar (SInt (-1))) ([0]%Z : list Z) {[ 0 := vec2 ]}).1.1
    ≠ Raise AxisOutOfRange
  ∧ (call_shuffle 8 (XArray 0) (PScalar (SInt (-1))) ([0]%Z : list Z) {[ 0 := vec2 ]}).1.2
    ≠ [0]%Z.
Proof.
  split; [reflexivity|]. split; [vm_compute; reflexivity|].
  split; vm_compute; discriminate.
Qed.


Section PermutationResult.
Context {G : Type} `{BitGenerator G}.

Lemma shuffle_trace_enough fuel n i (bg : G) :
  i < n ->
  (∀ st j, 1 <= j < n -> is_Some (random_interval fuel st (Z.of_nat j))) ->
  (shuffle_trace fuel i bg).2 = true.
Proof.
  intros Hi Hsome. revert bg. induction i as [|i IH]; intros bg; [done|].
  cbn [shuffle_trace]. destruct (Hsome bg (S i) ltac:(lia)) as [[j bg1] ->].
  specialize (IH ltac:(lia) bg1). by destruct (shuffle_trace fuel i bg1) as [[rest bg2] ok].
Qed.

Lemma call_permutation_frame fuel (x : xarg) (axis : pyval) (bg : G)
    (h : gmap nat (ndarray Z)) l :
  l ∈ dom h -> (call_permutation fuel x axis bg h).2 !! l = h !! l.
Proof.
  intros Hl. unfold call_permutation, NumPyRandomGeneratorType_permutation.
  destruct (check_types (typeof_x h x) [KArray; KInteger]) as [u1| | |];
    cbn [obind]; try done.
  destruct (check_types (typeof axis) [KInteger]) as [u2| | |]; cbn [obind]; try done.
  match goal with |- context [match ?m h x with _ => _ end] => destruct (m h x) as [arr|] end;
    [|done].
  unfold alloc. set (l' := fresh (dom h)).
  assert (l' ∉ dom h) as Hfresh by apply is_fresh.
  pose proof (call_shuffle_frame fuel (XArray l') axis bg (<[l' := arr]> h) l) as Hframe.
  destruct (call_shuffle fuel (XArray l') axis bg (<[l' := arr]> h)) as [[r bg'] h'].
  cbn [snd] in Hframe.
  assert (h' !! l = h !! l) as Hh.
  { rewrite Hframe; [|intros l0 [= <-] ->; done].
    apply lookup_insert_ne. intros ->. done. }
  by destruct r.
Qed.

Lemma permuted_copy_built fuel (x : xarg) (axis n : nat) (bg : G)
    (h : gmap nat (ndarray Z)) (a0 : ndarray Z) :
  permutation_source h x = Some a0 -> wf a0 -> fits_intp a0 ->
  shape a0 !! axis = Some n ->
  permuted_copy fuel bg h a0 axis n
    (call_permutation fuel x (PScalar (SInt (Z.of_nat axis))) bg h).
Proof.
  intros Hsrc Hwf Hfit Hn. unfold permuted_copy. cbv zeta.
  rewrite (call_permutation_valid fuel x axis n bg h a0 Hsrc Hwf Hfit Hn).
  rewrite (shuffle_array_valid fuel bg a0 axis n Hwf Hfit Hn).
  pose proof (shuffle_trace_range fuel (n - 1) bg) as Hrange.
  assert ((∀ st j, 1 <= j < n -> is_Some (random_interval fuel st (Z.of_nat j))) ->
          (shuffle_trace fuel (n - 1) bg).2 = true) as Henough.
  { intros Hsome. destruct (decide (n = 0)) as [->|Hn0]; [done|].
    apply (shuffle_trace_enough fuel n); [lia|done]. }
  destruct (shuffle_trace fuel (n - 1) bg) as [[js bg'] ok]. cbn [fst snd] in *.
  split; [apply is_fresh|]. split; [done|]. split; [done|]. split.
  - intros Hsome. by rewrite Henough.
  - destruct (apply_swaps_spec (shape a0) axis n js (body a0)) as (_ & Hperm & _);
      [apply Hwf|done| |done].
    eapply Forall_impl; [exact Hrange|]. intros [i j] [? ?]. cbn [fst snd] in *.
    split; [done|lia].
Qed.

(** C8: [permutation] changes no array the caller holds, whatever its
    arguments are. Given an array [x] and an axis of it, it copies [x],
    shuffles the copy along the axis and returns it at a location the
    caller did not hold; given an integer [n] it does the same with
    [[0, 1, ..., n - 1]] along the axis 0. The array returned has the
    shape and the elements of the array built; the call draws as the
    shuffle does, and returns whenever the fuel is enough for every
    draw. *)
Theorem permutation_leaves_argument fuel (x : xarg) (bg : G)
    (h : gmap nat (ndarray Z)) :
  (∀ axis l, l ∈ dom h -> (call_permutation fuel x axis bg h).2 !! l = h !! l)
  ∧ (∀ l a (axis n : nat),
       x = XArray l -> h !! l = Some a -> wf a -> fits_intp a ->
       shape a !! axis = Some n ->
       ndarray_copy a = a
       ∧ permuted_copy fuel bg h a axis n
           (call_permutation fuel x (PScalar (SInt (Z.of_nat axis))) bg h))
  ∧ (∀ m : Z,
       x = XVal (PScalar (SInt m)) -> (0 <= m < 2 ^ 63)%Z ->
       shape (np_arange m) = [Z.to_nat m]
       ∧ elems (body (np_arange m)) = Z.of_nat <$> seq 0 (Z.to_nat m)
       ∧ permuted_copy fuel bg h (np_arange m) 0 (Z.to_nat m)
           (call_permutation fuel x (PScalar (SInt 0)) bg h)).
Proof.
  split; [|split].
  - intros axis l Hl. by apply call_permutation_frame.
  - intros l a axis n -> Hl Hwf Hfit Hn. split; [apply ndarray_copy_id|].
    by apply permuted_copy_built.
  - intros m -> Hm. destruct (np_arange_elems m) as [Hs He].
    split; [done|]. split; [done|].
    destruct (np_arange_wf m ltac:(lia)) as [Hwf Hfit].
    by apply (permuted_copy_built fuel (XVal (PScalar (SInt m))) 0 (Z.to_nat m)).
Qed.
End PermutationResult.

Lemma permutation_leaves_argument_witness :
  permuted_copy 8 ([3; 1; 0]%Z : list Z) ({[ 0 := vec4 ]} : gmap nat (ndarray Z)) vec4 0 4
    (call_permutation 8 (XArray 0) (PScalar (SInt 0)) ([3; 1; 0]%Z : list Z) {[ 0 := vec4 ]})
  ∧ (call_permutation 8 (XArray 0) (PScalar (SInt 0)) ([3; 1; 0]%Z : list Z)
       {[ 0 := vec4 ]}).2 !! 0 = Some vec4.
Proof.
  pose proof (permutation_leaves_argument 8 (XArray 0) ([3; 1; 0]%Z : list Z)
                {[ 0 := vec4 ]}) as (Hframe & Harr & _).
  split.
  - exact (proj2 (Harr 0 vec4 0 4 eq_refl eq_refl (proj1 vec4_wf) (proj2 vec4_wf) eq_refl)).
  - rewrite (Hframe (PScalar (SInt 0)) 0); [reflexivity|].
    apply elem_of_dom. by exists vec4.
Defined.

Section SamplingShapeLaw.
Context {G : Type} `{BitGenerator G}.

Lemma dist_shape_law (k : G -> Z * G) :
  shape_law (fun size => run_overload (NumPyRandomGeneratorType_dist k (typeof_arg size)) size).
Proof.
  split.
  - intros size dims bg Hi Hd. cbn [typeof_arg]. rewrite dist_array_path by done.
    destruct (fill_total_shape k size dims bg Hd) as (a & -> & ? & ? & _). by exists a.
  - intros bg. cbn. destruct (k bg) as [v bg']. by exists v.
Qed.

Lemma shape_law_ext (m1 m2 : option pyval -> G -> outcome pyresult * G) :
  (∀ size bg, m1 size bg = m2 size bg) -> shape_law m2 -> shape_law m1.
Proof.
  intros Heq [Harr Hsc]. split.
  - intros size dims bg Hi Hd. rewrite Heq. by apply Harr.
  - intros bg. rewrite Heq. apply Hsc.
Qed.

Lemma standard_normal_as_dist (f g : G -> Z * G) size dtype d :
  is_float_dtype dtype = true -> dtype_of dtype = Some d ->
  NumPyRandomGeneratorType_standard_normal f g size dtype
  = NumPyRandomGeneratorType_dist (if bool_decide (d = float32) then f else g) size.
Proof.
  intros Hf Hd. unfold NumPyRandomGeneratorType_standard_normal.
  destruct (dtype_pass f g dtype Hf) as (d' & Hd' & ->).
  rewrite Hd in Hd'. injection Hd' as <-. done.
Qed.

Lemma standard_gamma_as_dist (f g : G -> scalar -> Z * G) p size dtype d (bg : G) :
  float_or_int p = true ->
  is_float_dtype dtype = true -> dtype_of dtype = Some d ->
  call_standard_gamma f g p size dtype bg
  = run_overload
      (NumPyRandomGeneratorType_dist
         (fun bg => (if bool_decide (d = float32) then f else g) bg p) (typeof_arg size))
      size bg.
Proof.
  intros Hp Hf Hd. unfold float_or_int in Hp.
  unfold call_standard_gamma, NumPyRandomGeneratorType_standard_gamma,
    NumPyRandomGeneratorType_dist.
  assert (check_types (Scalar (typeof_scalar p)) [KFloat; KInteger] = Return tt)
    as -> by by destruct (typeof_scalar p).
  destruct (dtype_pass f g dtype Hf) as (d1 & Hd1 & ->).
  rewrite Hd in Hd1. injection Hd1 as <-. cbn [obind].
  destruct (is_nonelike (typeof_arg size)); [done|].
  by destruct (check_size (typeof_arg size)).
Qed.

(** C5, at the input where the code departs from it: the size
    [(np.int32(2), np.int64(3))] is a tuple of non-negative integers
    that resolves to the shape [(2, 3)], but its items have two types,
    it is not a [UniTuple], and [check_size] refuses it with the
    message that asks for a tuple of integers; no array is returned by
    [random] or by a distribution. *)
Theorem mixed_width_size_refused (dist_func : G -> Z * G) (bg : G) :
  dims_of_size (PNpTuple [(int32, 2%Z); (int64, 3%Z)]) = Return [2; 3]
  ∧ typeof (PNpTuple [(int32, 2%Z); (int64, 3%Z)]) = Tuple [Integer; Integer]
  ∧ check_size (typeof (PNpTuple [(int32, 2%Z); (int64, 3%Z)])) = Raise InvalidShape
  ∧ call_random (Some (PNpTuple [(int32, 2%Z); (int64, 3%Z)])) (DType float64) bg
    = (Raise InvalidShape, bg)
  ∧ run_overload
      (NumPyRandomGeneratorType_dist dist_func
         (typeof (PNpTuple [(int32, 2%Z); (int64, 3%Z)])))
      (Some (PNpTuple [(int32, 2%Z); (int64, 3%Z)])) bg
    = (Raise InvalidShape, bg).
Proof. by repeat split. Qed.

(** X27: the shape law. An integer [n] resolves to the shape [(n,)], a
    tuple of integers to itself, the empty tuple to the empty shape; and
    for every size [check_size] accepts, whose extents are not negative,
    each sampling method returns an array of exactly the resolved shape,
    and a scalar when no size is given: [random], [standard_normal],
    [standard_exponential] and [standard_gamma] for every way of
    naming a float dtype, the distributions without a dtype, and
    [integers] on a valid range when the fuel is enough for the
    rejection loop. *)
Theorem sampling_shape_law :
  (∀ n, integer_size (size_int n) ∧ dims_of_size (size_int n) = Return [n])
  ∧ (∀ dims, integer_size (size_tuple dims) ∧ dims_of_size (size_tuple dims) = Return dims)
  ∧ (integer_size (PTuple []) ∧ dims_of_size (PTuple []) = Return [])
  ∧ (∀ dtype, is_float_dtype dtype = true ->
       shape_law (fun size => call_random size dtype))
  ∧ (∀ (f g : G -> Z * G) dtype, is_float_dtype dtype = true ->
       shape_law (fun size => call_standard_normal f g size dtype))
  ∧ (∀ (inv_f inv zig_f zig : G -> Z * G) dtype method,
       is_float_dtype dtype = true -> method = "zig" ∨ method = "inv" ->
       shape_law (fun size => call_standard_exponential inv_f inv zig_f zig size dtype method))
  ∧ (∀ (f g : G -> scalar -> Z * G) p dtype,
       float_or_int p = true -> is_float_dtype dtype = true ->
       shape_law (fun size => call_standard_gamma f g p size dtype))
  ∧ (∀ dist_func : G -> Z * G,
       shape_law (fun size =>
         run_overload (NumPyRandomGeneratorType_dist dist_func (typeof_arg size)) size))
  ∧ (∀ fuel low high dtype endpoint d lb ub,
       int_or_bool low = true -> int_or_bool high = true ->
       typeof_scalar endpoint = Boolean ->
       dtype_of dtype = Some d -> int_bounds d = Some (lb, ub) ->
       _randint_arg_check (int_of_scalar low) (int_of_scalar high)
         (negb (int_of_scalar endpoint =? 0)%Z) lb ub = Return tt ->
       (∀ s, is_Some (bounded_masked fuel
                        (sub_dtype d
                           (if negb (int_of_scalar endpoint =? 0)%Z
                            then int_of_scalar high else int_of_scalar high - 1)%Z
                           (int_of_scalar low)) s)) ->
       shape_law (fun size => call_integers fuel low high size dtype endpoint)).
Proof.
  split; [|split; [|split; [|split; [|split; [|split; [|split; [|split]]]]]]].
  - intros n. split; [done|]. apply (dims_of_scalars_nat [n]).
  - intros dims. split; [|apply dims_of_scalars_nat].
    cbn [integer_size size_tuple]. apply Forall_fmap, Forall_forall. by intros d _.
  - split; [constructor|done].
  - intros dtype Hf. destruct (dtype_pass (next_float (G := G)) next_double dtype Hf)
      as (d & Hd & _).
    eapply shape_law_ext; [|apply dist_shape_law].
    intros size bg. unfold call_random. by rewrite (random_as_dist _ dtype d Hf Hd).
  - intros f g dtype Hf. destruct (dtype_pass f g dtype Hf) as (d & Hd & _).
    eapply shape_law_ext; [|apply dist_shape_law].
    intros size bg. unfold call_standard_normal.
    by rewrite (standard_normal_as_dist f g _ dtype d Hf Hd).
  - intros inv_f inv zig_f zig dtype method Hf Hm.
    destruct (dtype_pass zig_f zig dtype Hf) as (d & Hd & _).
    destruct Hm as [->| ->].
    + eapply shape_law_ext; [|apply dist_shape_law]. intros size bg.
      apply (standard_exponential_as_dist inv_f inv zig_f zig dtype d); [done|done|].
      left. split; reflexivity.
    + eapply shape_law_ext; [|apply dist_shape_law]. intros size bg.
      apply (standard_exponential_as_dist inv_f inv zig_f zig dtype d); [done|done|].
      right. split; reflexivity.
  - intros f g p dtype Hp Hf. destruct (dtype_pass f g dtype Hf) as (d & Hd & _).
    eapply shape_law_ext; [|apply dist_shape_law]. intros size bg.
    by apply (standard_gamma_as_dist f g p size dtype d).
  - apply dist_shape_law.
  - intros fuel low high dtype endpoint d lb ub Hl Hh He Hdt Hb Hchk Hfuel.
    set (rng := sub_dtype d _ _) in Hfuel.
    set (k := fun bg0 : G =>
                match bounded_masked fuel rng bg0 with
                | Some (v, bg') => Some (cast d (int_of_scalar low + v), bg')
                | None => None
                end).
    assert (∀ s, is_Some (k s)) as Hsome.
    { intros s. unfold k. destruct (Hfuel s) as [[v s'] ->]. by eexists. }
    split.
    + intros size dims bg Hi Hd.
      rewrite (integers_valid fuel low high (Some size) dtype endpoint bg d lb ub) by done.
      cbv zeta. fold rng. unfold random_bounded_fill. fold k.
      destruct (fill_kernel_shape k (fun _ => True) size dims bg Hsome ltac:(done) Hd)
        as (a & bg' & -> & Hs & Hshape & _).
      by exists a.
    + intros bg.
      rewrite (integers_valid fuel low high None dtype endpoint bg d lb ub) by done.
      cbv zeta. fold rng. unfold random_bounded_fill. fold k.
      destruct (fill_kernel_shape k (fun _ => True) (PScalar (SInt 1)) [1] bg Hsome
                  ltac:(done) eq_refl) as (a & bg' & Hfill & _ & _ & _).
      rewrite Hfill. apply fill_size_one in Hfill as (_ & v & Hbody & _).
      exists v. unfold first. by rewrite Hbody.
Qed.
End SamplingShapeLaw.
